(** * hypr-config-manager: the hierarchical program-configuration engine

    A shallow embedding of the Go packages [pkg/hyprconfig] and
    [pkg/hchandler], with one function of [pkg/configfinder], the
    properties their specification states and further properties of the
    code.

    Conventions of the embedding.
    - A Go [string] is a Rocq [string] (a sequence of 8-bit characters);
      [[]byte] is [list byte]; [time.Time] is a [Z] (nanoseconds since the
      epoch); Go's [int] is a [Z] kept inside 64 bits, with the wrap-around
      written out where the code can overflow.
    - Field [F] of struct [HyprProgramConfig] is the projection [pc_F], of
      [HyprConfig] it is [hc_F]; the other structs keep their field names.
    - A slice is a [list]; [[]*HyprProgramConfig] and [[]HyprProgramConfig]
      are both [list HyprProgramConfig]: every tree below is decoded afresh
      from the store, so no two nodes share a pointer, and a function that
      mutates its argument in place returns the mutated value here.
    - An argument that stays the same through a recursion ([targetID],
      [progID], [newProg], ...) is a Section variable and so comes first.
    - The document store is a record of finite maps and lists that is passed
      through every repository method; its calls fail only for the logical
      reasons the code tests for (no matching document, duplicate key). *)

From Stdlib Require Import ZArith String Ascii List Decimal DecimalString DecimalZ.
From Stdlib.Strings Require Import Byte.
From stdpp Require Import gmap strings list fin_maps.
Import ListNotations.

Local Open Scope string_scope.
Local Open Scope Z_scope.
Local Open Scope list_scope.

(** ** Go standard library: [strings]

    The functions read a string character by character.  Go reads runes,
    and the two agree on ASCII text, which is what configuration text and
    version strings are; white space is [unicode.IsSpace] on the ASCII
    range. *)

Module GoStrings.

(** [unicode.IsSpace] on the ASCII range: tab, line feed, vertical tab,
    form feed, carriage return and space. *)
Definition isSpace (c : ascii) : bool :=
  let n := nat_of_ascii c in
  ((9 <=? n)%nat && (n <=? 13)%nat) || (n =? 32)%nat.

(** [strings.FieldsFunc]: the maximal runs of characters that do not
    satisfy [f], empty runs left out.  [cur] is the field being read. *)
Fixpoint fieldsFrom (f : ascii -> bool) (cur : string) (s : string) : list string :=
  match s with
  | EmptyString => if String.eqb cur "" then [] else [cur]
  | String c s' =>
      if f c
      then (if String.eqb cur "" then fieldsFrom f "" s'
            else cur :: fieldsFrom f "" s')
      else fieldsFrom f (cur ++ String c "")%string s'
  end.

Definition FieldsFunc (s : string) (f : ascii -> bool) : list string :=
  fieldsFrom f "" s.

Definition Fields (s : string) : list string := FieldsFunc s isSpace.

Fixpoint trimLeft (s : string) : string :=
  match s with
  | String c s' => if isSpace c then trimLeft s' else s
  | EmptyString => EmptyString
  end.

(** Drops the trailing white space: a character stays when it is not a
    space or something after it stays. *)
Fixpoint trimRight (s : string) : string :=
  match s with
  | EmptyString => EmptyString
  | String c s' =>
      match trimRight s' with
      | EmptyString => if isSpace c then EmptyString else String c EmptyString
      | t => String c t
      end
  end.

Definition TrimSpace (s : string) : string := trimRight (trimLeft s).

(** [strings.Contains s sub] for a one-character [sub]. *)
Fixpoint ContainsChar (s : string) (c : ascii) : bool :=
  match s with
  | EmptyString => false
  | String d s' => Ascii.eqb d c || ContainsChar s' c
  end.

(** [strings.Split s sep] for a one-character [sep]: one more part than
    there are separators. *)
Fixpoint splitFrom (sep : ascii) (cur : string) (s : string) : list string :=
  match s with
  | EmptyString => [cur]
  | String c s' =>
      if Ascii.eqb c sep then cur :: splitFrom sep "" s'
      else splitFrom sep (cur ++ String c "")%string s'
  end.

Definition Split (s : string) (sep : ascii) : list string := splitFrom sep "" s.

End GoStrings.

(** ** Data model ([HyprProgramConfig], [HyprConfig] and friends) *)

Record FileContent := mkFileContent {
  Data : list Byte.byte;
  FileType : string;
  Headers : gmap string string;
  Hash : string
}.

Local Unset Elimination Schemes.

Inductive HyprProgramConfig := mkHyprProgramConfig {
  pc_ID : string;
  pc_Title : string;
  pc_Program : string;
  pc_InstallPath : string;
  pc_Args : list string;
  pc_EnvVars : gmap string string;
  pc_FileContent : FileContent;
  pc_Dependencies : list string;
  pc_SubConfigs : list HyprProgramConfig;
  pc_Platform : list string;
  pc_Optional : bool;
  pc_UpdatedTimestamp : Z;
  pc_CreatedTimestamp : Z
}.

Local Set Elimination Schemes.

Record Author := mkAuthor {
  UserName : string;
  ProfilePicture : string;
  URL : string
}.

Record HyprConfig := mkHyprConfig {
  hc_ID : string;
  hc_Title : string;
  hc_Description : string;
  hc_Author : Author;
  hc_ProgramConfigs : list HyprProgramConfig;
  hc_GalleryPictures : list string;
  hc_OwnerID : string;
  hc_Private : bool;
  hc_Likes : Z;
  hc_Version : string;
  hc_Tags : list string;
  hc_CreatedTimestamp : Z;
  hc_UpdatedTimestamp : Z
}.

Record ConfigSearchFilters := mkConfigSearchFilters {
  f_Query : string;
  f_Tags : list string;
  f_Program : string;
  f_OwnerID : string;
  f_Private : option bool;
  f_UpdatedFrom : option Z;
  f_UpdatedTo : option Z
}.

Record UserFavorite := mkUserFavorite {
  fav_UserID : string;
  fav_ConfigID : string;
  FavoritedAt : Z
}.

Record UserHyprState := mkUserHyprState {
  st_UserID : string;
  st_ConfigID : string;
  AppliedAt : Z
}.

(** [session.UserSessionData], as far as the package reads it. *)
Record UserSessionData := mkUserSessionData {
  UserID : string;
  Roles : list string;
  SignedIn : bool
}.

(** Assignments to one field of a node ([x.F = v] in the source). *)
Definition set_SubConfigs (x : HyprProgramConfig) (s : list HyprProgramConfig) : HyprProgramConfig :=
  mkHyprProgramConfig (pc_ID x) (pc_Title x) (pc_Program x) (pc_InstallPath x)
    (pc_Args x) (pc_EnvVars x) (pc_FileContent x) (pc_Dependencies x) s
    (pc_Platform x) (pc_Optional x) (pc_UpdatedTimestamp x) (pc_CreatedTimestamp x).

Definition set_ID (x : HyprProgramConfig) (i : string) : HyprProgramConfig :=
  mkHyprProgramConfig i (pc_Title x) (pc_Program x) (pc_InstallPath x)
    (pc_Args x) (pc_EnvVars x) (pc_FileContent x) (pc_Dependencies x) (pc_SubConfigs x)
    (pc_Platform x) (pc_Optional x) (pc_UpdatedTimestamp x) (pc_CreatedTimestamp x).

Definition set_UpdatedTimestamp (x : HyprProgramConfig) (t : Z) : HyprProgramConfig :=
  mkHyprProgramConfig (pc_ID x) (pc_Title x) (pc_Program x) (pc_InstallPath x)
    (pc_Args x) (pc_EnvVars x) (pc_FileContent x) (pc_Dependencies x) (pc_SubConfigs x)
    (pc_Platform x) (pc_Optional x) t (pc_CreatedTimestamp x).

Definition set_CreatedTimestamp (x : HyprProgramConfig) (t : Z) : HyprProgramConfig :=
  mkHyprProgramConfig (pc_ID x) (pc_Title x) (pc_Program x) (pc_InstallPath x)
    (pc_Args x) (pc_EnvVars x) (pc_FileContent x) (pc_Dependencies x) (pc_SubConfigs x)
    (pc_Platform x) (pc_Optional x) (pc_UpdatedTimestamp x) t.

(** Induction over a forest: a property of the empty forest that passes from
    the children of a node and from its later siblings to the forest that
    starts with the node. *)
Section ForestInd.
Variable P : list HyprProgramConfig -> Prop.
Hypothesis Hnil : P [].
Hypothesis Hcons : forall x rest, P (pc_SubConfigs x) -> P rest -> P (x :: rest).

Fixpoint children_ind (x : HyprProgramConfig) : P (pc_SubConfigs x) :=
  match x as x0 return P (pc_SubConfigs x0) with
  | mkHyprProgramConfig _ _ _ _ _ _ _ _ subs _ _ _ _ =>
      (fix go (l : list HyprProgramConfig) : P l :=
         match l with
         | [] => Hnil
         | y :: r => Hcons y r (children_ind y) (go r)
         end) subs
  end.

Definition forest_ind (l : list HyprProgramConfig) : P l :=
  (fix go (l : list HyprProgramConfig) : P l :=
     match l with
     | [] => Hnil
     | y :: r => Hcons y r (children_ind y) (go r)
     end) l.
End ForestInd.

(** The identities of a forest, in depth-first pre-order. *)
Fixpoint node_ids (x : HyprProgramConfig) : list string :=
  pc_ID x :: flat_map node_ids (pc_SubConfigs x).

Definition ids (l : list HyprProgramConfig) : list string := flat_map node_ids l.

(** A node without its children, and the nodes of a forest in pre-order,
    each with the identities of its ancestors from the root down.  The list
    determines the forest: the ancestor chains give every node its parent,
    the order gives the order of siblings. *)
Definition own (x : HyprProgramConfig) : HyprProgramConfig := set_SubConfigs x [].

Fixpoint node_flat (anc : list string) (x : HyprProgramConfig)
  : list (list string * HyprProgramConfig) :=
  (anc, own x) :: flat_map (node_flat (anc ++ [pc_ID x])) (pc_SubConfigs x).

Definition flat (anc : list string) (l : list HyprProgramConfig)
  : list (list string * HyprProgramConfig) := flat_map (node_flat anc) l.

(** ** Tree mutator ([client.go]) *)

(** *** Remove *)

Section Remove.
Variable targetID : string.

(** [filterSubConfigs(sc.SubConfigs, targetID)], by recursion on [sc]. *)
Fixpoint filterSubConfigs_in (sc : HyprProgramConfig) {struct sc} : list HyprProgramConfig :=
  (fix filterSubConfigs (sub : list HyprProgramConfig) : list HyprProgramConfig :=
     match sub with
     | [] => []
     | sc :: rest =>
         let sc :=
           match pc_SubConfigs sc with
           | [] => sc
           | _ :: _ => set_SubConfigs sc (filterSubConfigs_in sc)
           end in
         if String.eqb (pc_ID sc) targetID then filterSubConfigs rest
         else sc :: filterSubConfigs rest
     end) (pc_SubConfigs sc).

Fixpoint filterSubConfigs (sub : list HyprProgramConfig) : list HyprProgramConfig :=
  match sub with
  | [] => []
  | sc :: rest =>
      let sc :=
        match pc_SubConfigs sc with
        | [] => sc
        | _ :: _ => set_SubConfigs sc (filterSubConfigs_in sc)
        end in
      if String.eqb (pc_ID sc) targetID then filterSubConfigs rest
      else sc :: filterSubConfigs rest
  end.

Fixpoint removeNestedProgramConfig (lst : list HyprProgramConfig) : list HyprProgramConfig :=
  match lst with
  | [] => []
  | item :: rest =>
      let item :=
        match pc_SubConfigs item with
        | [] => item
        | _ :: _ => set_SubConfigs item (filterSubConfigs (pc_SubConfigs item))
        end in
      if negb (String.eqb (pc_ID item) targetID)
      then item :: removeNestedProgramConfig rest
      else removeNestedProgramConfig rest
  end.
End Remove.

(** [below t e]: the node [e] of a flattened forest has identity [t] or an
    ancestor of identity [t]. *)
Definition below (t : string) (e : list string * HyprProgramConfig) : bool :=
  existsb (String.eqb t) (fst e ++ [pc_ID (snd e)]).

(** *** Insert *)

Section Insert.
Variable newProg : HyprProgramConfig.
Variable parentID : string.

(** [insertIntoNested(x.SubConfigs, newProg, parentID)], by recursion on
    [x]: the children after the insertion and the flag the source returns. *)
Fixpoint insertIntoNested_in (x : HyprProgramConfig) {struct x}
  : list HyprProgramConfig * bool :=
  (fix insertIntoNested (lst : list HyprProgramConfig) : list HyprProgramConfig * bool :=
     match lst with
     | [] => ([], false)
     | y :: rest =>
         if String.eqb (pc_ID y) parentID
         then (set_SubConfigs y (pc_SubConfigs y ++ [newProg]) :: rest, true)
         else
           match (match pc_SubConfigs y with
                  | [] => ([], false)
                  | _ :: _ => insertIntoNested_in y
                  end) with
           | (sub, true) => (set_SubConfigs y sub :: rest, true)
           | (_, false) =>
               let (rest', ok) := insertIntoNested rest in (y :: rest', ok)
           end
     end) (pc_SubConfigs x).

Fixpoint insertIntoNested (lst : list HyprProgramConfig) : list HyprProgramConfig * bool :=
  match lst with
  | [] => ([], false)
  | y :: rest =>
      if String.eqb (pc_ID y) parentID
      then (set_SubConfigs y (pc_SubConfigs y ++ [newProg]) :: rest, true)
      else
        match (match pc_SubConfigs y with
               | [] => ([], false)
               | _ :: _ => insertIntoNested_in y
               end) with
        | (sub, true) => (set_SubConfigs y sub :: rest, true)
        | (_, false) =>
            let (rest', ok) := insertIntoNested rest in (y :: rest', ok)
        end
  end.

Fixpoint insertIntoSubConfig (lst : list HyprProgramConfig) : list HyprProgramConfig * bool :=
  match lst with
  | [] => ([], false)
  | y :: rest =>
      if String.eqb (pc_ID y) parentID
      then (set_SubConfigs y (pc_SubConfigs y ++ [newProg]) :: rest, true)
      else
        match (match pc_SubConfigs y with
               | [] => ([], false)
               | _ :: _ => insertIntoNested (pc_SubConfigs y)
               end) with
        | (sub, true) => (set_SubConfigs y sub :: rest, true)
        | (_, false) =>
            let (rest', ok) := insertIntoSubConfig rest in (y :: rest', ok)
        end
  end.
End Insert.

(** The tree part of [AddProgramConfig]: a nil or empty parent appends at the
    top level, any other parent goes through [insertIntoSubConfig]; [None] is
    the parent-not-found failure. *)
Definition Insert (tree : list HyprProgramConfig) (newProg : HyprProgramConfig)
    (parentID : option string) : option (list HyprProgramConfig) :=
  match parentID with
  | None => Some (tree ++ [newProg])
  | Some p =>
      if String.eqb p "" then Some (tree ++ [newProg])
      else
        match insertIntoSubConfig newProg p tree with
        | (tree', true) => Some tree'
        | (_, false) => None
        end
  end.

(** *** Update *)

Section Update.
Variable progID : string.
Variable updates : HyprProgramConfig.
Variable now : Z.

(** What [updateProgramConfigRecursive] stores in place of the matched
    node [old]: the payload with four fields overwritten. *)
Definition replacement_top (old : HyprProgramConfig) : HyprProgramConfig :=
  let updates := set_ID updates progID in
  let updates := set_CreatedTimestamp updates (pc_CreatedTimestamp old) in
  let updates := set_UpdatedTimestamp updates now in
  set_SubConfigs updates (pc_SubConfigs old).

(** The same in [updateSubConfigRecursive], which sets the updated
    timestamp after the node is stored. *)
Definition replacement_nested (old : HyprProgramConfig) : HyprProgramConfig :=
  let updates := set_ID updates progID in
  let updates := set_CreatedTimestamp updates (pc_CreatedTimestamp old) in
  let updates := set_SubConfigs updates (pc_SubConfigs old) in
  set_UpdatedTimestamp updates now.

(** [updateSubConfigRecursive(x.SubConfigs, progID, updates, now)], by
    recursion on [x]. *)
Fixpoint updateSubConfigRecursive_in (x : HyprProgramConfig) {struct x}
  : list HyprProgramConfig * bool :=
  (fix updateSubConfigRecursive (lst : list HyprProgramConfig)
     : list HyprProgramConfig * bool :=
     match lst with
     | [] => ([], false)
     | y :: rest =>
         if String.eqb (pc_ID y) progID
         then (replacement_nested y :: rest, true)
         else
           match pc_SubConfigs y with
           | [] =>
               let (rest', done) := updateSubConfigRecursive rest in (y :: rest', done)
           | _ :: _ =>
               let (sub, done) := updateSubConfigRecursive_in y in
               if done then (set_SubConfigs y sub :: rest, true)
               else
                 let (rest', done) := updateSubConfigRecursive rest in
                 (set_SubConfigs y sub :: rest', done)
           end
     end) (pc_SubConfigs x).

Fixpoint updateSubConfigRecursive (lst : list HyprProgramConfig)
  : list HyprProgramConfig * bool :=
  match lst with
  | [] => ([], false)
  | y :: rest =>
      if String.eqb (pc_ID y) progID
      then (replacement_nested y :: rest, true)
      else
        match pc_SubConfigs y with
        | [] =>
            let (rest', done) := updateSubConfigRecursive rest in (y :: rest', done)
        | _ :: _ =>
            let (sub, done) := updateSubConfigRecursive_in y in
            if done then (set_SubConfigs y sub :: rest, true)
            else
              let (rest', done) := updateSubConfigRecursive rest in
              (set_SubConfigs y sub :: rest', done)
        end
  end.

Fixpoint updateProgramConfigRecursive (lst : list HyprProgramConfig)
  : list HyprProgramConfig * bool :=
  match lst with
  | [] => ([], false)
  | y :: rest =>
      if String.eqb (pc_ID y) progID
      then (replacement_top y :: rest, true)
      else
        match pc_SubConfigs y with
        | [] =>
            let (rest', done) := updateProgramConfigRecursive rest in (y :: rest', done)
        | _ :: _ =>
            let (sub, done) := updateSubConfigRecursive (pc_SubConfigs y) in
            if done then (set_SubConfigs y sub :: rest, true)
            else
              let (rest', done) := updateProgramConfigRecursive rest in
              (set_SubConfigs y sub :: rest', done)
        end
  end.
End Update.

(** [replaced l old new l']: the forest [l'] is [l] with one occurrence of
    the node [old] exchanged for [new], every other node, at every depth,
    being the same and in the same place. *)
Inductive replaced (old new : HyprProgramConfig)
  : list HyprProgramConfig -> list HyprProgramConfig -> Prop :=
| replaced_here rest : replaced old new (old :: rest) (new :: rest)
| replaced_later x rest rest' :
    replaced old new rest rest' -> replaced old new (x :: rest) (x :: rest')
| replaced_below x sub' rest :
    replaced old new (pc_SubConfigs x) sub' ->
    replaced old new (x :: rest) (set_SubConfigs x sub' :: rest).

(** *** Move: extraction *)

Section Extract.
Variable progID : string.

(** [extractProgramConfigNested(x.SubConfigs, progID)], by recursion on
    [x].  [newList] is the slice the loop appends to; both early returns
    hand back [newList] as it stands. *)
Fixpoint extractProgramConfigNested_in (x : HyprProgramConfig) {struct x}
  : list HyprProgramConfig * option HyprProgramConfig :=
  (fix loop (newList lst : list HyprProgramConfig) {struct lst}
     : list HyprProgramConfig * option HyprProgramConfig :=
     match lst with
     | [] => (newList, None)
     | sc :: rest =>
         if String.eqb (pc_ID sc) progID then (newList, Some sc)
         else
           match pc_SubConfigs sc with
           | [] => loop (newList ++ [sc]) rest
           | _ :: _ =>
               match extractProgramConfigNested_in sc with
               | (subNew, Some removed) =>
                   (newList ++ [set_SubConfigs sc subNew], Some removed)
               | (_, None) => loop (newList ++ [sc]) rest
               end
           end
     end) [] (pc_SubConfigs x).

Fixpoint extractNested_loop (newList lst : list HyprProgramConfig) {struct lst}
  : list HyprProgramConfig * option HyprProgramConfig :=
  match lst with
  | [] => (newList, None)
  | sc :: rest =>
      if String.eqb (pc_ID sc) progID then (newList, Some sc)
      else
        match pc_SubConfigs sc with
        | [] => extractNested_loop (newList ++ [sc]) rest
        | _ :: _ =>
            match extractProgramConfigNested_in sc with
            | (subNew, Some removed) =>
                (newList ++ [set_SubConfigs sc subNew], Some removed)
            | (_, None) => extractNested_loop (newList ++ [sc]) rest
            end
        end
  end.

Definition extractProgramConfigNested (lst : list HyprProgramConfig)
  : list HyprProgramConfig * option HyprProgramConfig :=
  extractNested_loop [] lst.

Fixpoint extract_loop (newList lst : list HyprProgramConfig) {struct lst}
  : list HyprProgramConfig * option HyprProgramConfig :=
  match lst with
  | [] => (newList, None)
  | item :: rest =>
      if String.eqb (pc_ID item) progID then (newList, Some item)
      else
        match pc_SubConfigs item with
        | [] => extract_loop (newList ++ [item]) rest
        | _ :: _ =>
            match extractProgramConfigNested (pc_SubConfigs item) with
            | (subNew, Some removed) =>
                (newList ++ [set_SubConfigs item subNew], Some removed)
            | (_, None) => extract_loop (newList ++ [item]) rest
            end
        end
  end.

Definition extractProgramConfig (lst : list HyprProgramConfig)
  : list HyprProgramConfig * option HyprProgramConfig :=
  extract_loop [] lst.
End Extract.

(** ** Go standard library: [regexp]

    The patterns of this package are sequences of single characters,
    character classes, greedy repetitions of a class and capture groups
    around them.  Go's [regexp] returns the leftmost match and, among the
    matches that start there, the one a backtracking search finds first;
    [run] is that search. *)

Module GoRegexp.

Inductive tok :=
| One (p : ascii -> bool)     (* one character of the class *)
| Star (p : ascii -> bool)    (* [p*], greedy *)
| Open                        (* [(] *)
| Close.                      (* [)] *)

Definition regex := list tok.

(** [p+] is [pp*]. *)
Definition Plus (p : ascii -> bool) : regex := [One p; Star p].

Definition lit (s : string) : regex :=
  map (fun c => One (Ascii.eqb c)) (list_ascii_of_string s).

Definition snoc (s : string) (c : ascii) : string := (s ++ String c "")%string.

(** [run re s m g caps]: match [re] at the start of [s]; [m] is the text
    matched so far, [g] the text read since the last [Open], [caps] the
    groups closed so far.  The result is the matched text and the groups. *)
Fixpoint run (re : regex) (s m g : string) (caps : list string) {struct re}
  : option (string * list string) :=
  match re with
  | [] => Some (m, caps)
  | One p :: re' =>
      match s with
      | String c s' => if p c then run re' s' (snoc m c) (snoc g c) caps else None
      | EmptyString => None
      end
  | Star p :: re' =>
      (fix star (s m g : string) {struct s} : option (string * list string) :=
         match s with
         | String c s' =>
             if p c
             then match star s' (snoc m c) (snoc g c) with
                  | Some r => Some r
                  | None => run re' s m g caps
                  end
             else run re' s m g caps
         | EmptyString => run re' s m g caps
         end) s m g
  | Open :: re' => run re' s m "" caps
  | Close :: re' => run re' s m g (caps ++ [g])
  end.

(** [re.FindAllStringSubmatch(s, -1)]: the successive non-overlapping
    matches, each as the matched text followed by its groups.  [skip]
    counts the characters still covered by the last match.  (No pattern of
    this package matches the empty string, so the rule for empty matches
    next to a match never applies.) *)
Fixpoint findFrom (re : regex) (s : string) (skip : nat) : list (list string) :=
  match s with
  | EmptyString =>
      match skip, run re "" "" "" [] with
      | O, Some (m, caps) => [m :: caps]
      | _, _ => []
      end
  | String c s' =>
      match skip with
      | S k => findFrom re s' k
      | O =>
          match run re s "" "" [] with
          | Some (m, caps) => (m :: caps) :: findFrom re s' (String.length m - 1)
          | None => findFrom re s' 0
          end
      end
  end.

Definition FindAllStringSubmatch (re : regex) (s : string) : list (list string) :=
  findFrom re s 0.

(** The classes [\s], [\S], [\w] and [[^\n]] of Go's syntax. *)
Definition class_s (c : ascii) : bool :=
  let n := nat_of_ascii c in
  (n =? 9)%nat || (n =? 10)%nat || (n =? 12)%nat || (n =? 13)%nat || (n =? 32)%nat.

Definition class_S (c : ascii) : bool := negb (class_s c).

Definition class_w (c : ascii) : bool :=
  let n := nat_of_ascii c in
  ((48 <=? n)%nat && (n <=? 57)%nat) || ((65 <=? n)%nat && (n <=? 90)%nat)
  || ((97 <=? n)%nat && (n <=? 122)%nat) || (n =? 95)%nat.

Definition not_newline (c : ascii) : bool := negb (nat_of_ascii c =? 10)%nat.

End GoRegexp.

(** ** Text extraction ([util.go]) *)

Definition LF : string := String (ascii_of_nat 10) "".

(** The pattern [\$(\w+)\s*=\s*(\S+)]. *)
Definition reKeyValue : GoRegexp.regex :=
  GoRegexp.lit "$" ++ [GoRegexp.Open] ++ GoRegexp.Plus GoRegexp.class_w ++ [GoRegexp.Close]
  ++ [GoRegexp.Star GoRegexp.class_s] ++ GoRegexp.lit "=" ++ [GoRegexp.Star GoRegexp.class_s]
  ++ [GoRegexp.Open] ++ GoRegexp.Plus GoRegexp.class_S ++ [GoRegexp.Close].

(** The pattern [#*\s*exec-once\s*=\s*([^\n]+)]. *)
Definition reExecOnce : GoRegexp.regex :=
  [GoRegexp.Star (Ascii.eqb "#"); GoRegexp.Star GoRegexp.class_s] ++ GoRegexp.lit "exec-once"
  ++ [GoRegexp.Star GoRegexp.class_s] ++ GoRegexp.lit "=" ++ [GoRegexp.Star GoRegexp.class_s]
  ++ [GoRegexp.Open] ++ GoRegexp.Plus GoRegexp.not_newline ++ [GoRegexp.Close].

(** The pattern [#*\s*exec\s*[=,]\s*([^\n]+)]. *)
Definition reExec : GoRegexp.regex :=
  [GoRegexp.Star (Ascii.eqb "#"); GoRegexp.Star GoRegexp.class_s] ++ GoRegexp.lit "exec"
  ++ [GoRegexp.Star GoRegexp.class_s]
  ++ [GoRegexp.One (fun c => Ascii.eqb c "=" || Ascii.eqb c ",")]
  ++ [GoRegexp.Star GoRegexp.class_s]
  ++ [GoRegexp.Open] ++ GoRegexp.Plus GoRegexp.not_newline ++ [GoRegexp.Close].

(** [match[i]] of a submatch slice. *)
Definition sub (mt : list string) (i : nat) : string := nth i mt "".

Definition ParseKeyValuePairs (input : string) : gmap string string :=
  let matches := GoRegexp.FindAllStringSubmatch reKeyValue input in
  fold_left (fun result mt => <[("$" ++ sub mt 1)%string := sub mt 2]> result) matches ∅.

Definition ignore : gset string := {[ "va11-popup"; "va11-confirm" ]}.

(** Modelled from the spec: [utils.DeduplicateStrings], of package
    [pkg/utils], which is not among the sources; section 4.1 step 6 says it
    removes duplicates and preserves the first-seen order.  [seen] holds the
    strings already returned. *)
Fixpoint dedupFrom (seen : gset string) (l : list string) : list string :=
  match l with
  | [] => []
  | x :: rest =>
      if decide (x ∈ seen) then dedupFrom seen rest
      else x :: dedupFrom ({[x]} ∪ seen) rest
  end.

Definition DeduplicateStrings (l : list string) : list string := dedupFrom ∅ l.

(** The body of the innermost loop of [ExtractExecOnceCommands]: what one
    part of a command line appends to [commands]. *)
Definition commandOfPart (pairs : gmap string string) (part : string) : list string :=
  let pts := GoStrings.Fields (GoStrings.TrimSpace part) in
  match pts with
  | [] => []
  | p0 :: _ =>
      match pairs !! p0 with
      | Some v =>
          if decide (GoStrings.TrimSpace v ∈ ignore) then []
          else [GoStrings.TrimSpace v]
      | None =>
          if decide (GoStrings.TrimSpace p0 ∈ ignore) then []
          else [GoStrings.TrimSpace p0]
      end
  end.

(** What one match appends to [commands]. *)
Definition commandsOfMatch (pairs : gmap string string) (mt : list string) : list string :=
  if GoStrings.ContainsChar (sub mt 0) "#" then []
  else
    let commandLine := sub mt 1 in
    let parts :=
      GoStrings.FieldsFunc commandLine
        (fun c => Ascii.eqb c "&" || Ascii.eqb c (ascii_of_nat 10) || Ascii.eqb c ";") in
    flat_map (commandOfPart pairs) parts.

(** [commands] as it stands before the deduplication. *)
Definition collectCommands (input : string) : list string :=
  let pairs := ParseKeyValuePairs input in
  let reList := [reExecOnce; reExec] in
  flat_map
    (fun re => flat_map (commandsOfMatch pairs) (GoRegexp.FindAllStringSubmatch re input))
    reList.

Definition ExtractExecOnceCommands (input : string) : list string :=
  DeduplicateStrings (collectCommands input).

(** The text of the specification's example, line by line. *)
Definition example_config : string :=
  String.concat LF
    ["$term = kitty"; "exec-once = $term --workdir ~"; "exec = firefox &"; "# exec = ignored"].

(** ** Go standard library: [strconv], [errors] and [fmt] *)

Module GoStrconv.

Definition maxInt : Z := 2 ^ 63 - 1.
Definition minInt : Z := - 2 ^ 63.

(** The value of a Go [int] after an arithmetic operation: the result
    modulo [2^64], read as a signed number. *)
Definition wrap (z : Z) : Z := (z + 2 ^ 63) mod 2 ^ 64 - 2 ^ 63.

(** [strconv.Itoa], also the verb [%d] of [fmt]. *)
Definition Itoa (z : Z) : string := NilZero.string_of_int (Z.to_int z).

(** [strconv.Atoi]: an optional sign and then one or more decimal digits;
    [None] stands for a syntax or range error. *)
Definition Atoi (s : string) : option Z :=
  let '(neg, digits) :=
    match s with
    | String "+" r => (false, r)
    | String "-" r => (true, r)
    | _ => (false, s)
    end in
  match NilZero.uint_of_string digits with
  | None => None
  | Some d =>
      let n := Z.of_uint d in
      let v := if neg : bool then - n else n in
      if (minInt <=? v) && (v <=? maxInt) then Some v else None
  end.

End GoStrconv.

(** The errors of the package: the three sentinels of [client.go] and the
    errors made by [fmt.Errorf], which carry their message. *)
Inductive error :=
| ErrUnauthorized
| ErrForbidden
| ErrNotFound
| Errorf (msg : string).

(** [err.Error()], which is also what the verb [%w] prints. *)
Definition Error (e : error) : string :=
  match e with
  | ErrUnauthorized => "unauthorized"
  | ErrForbidden => "forbidden"
  | ErrNotFound => "not found"
  | Errorf msg => msg
  end.

(** ** Validation *)

Definition validPrograms : gset string :=
  {[ "hyprland"; "hypridle"; "hyprpaper"; "hyprlock"; "hypr-u";
     "kitty"; "wofi"; "alacritty"; "foot"; "wezterm"; "rofi"; "wayland-protocols";
     "waybar"; "eww"; "swaync";
     "sway";
     "clipse"; "mako"; "dunst"; "grim"; "slurp"; "swappy"; "pipewire"; "pulseaudio";
     "elephant"; "walker" ]}.

Section Validate.
Variable checkProgramExists : string -> option error.

(** The test both steps of [Validate] make on a program name: the static
    whitelist first, the gateway only for a name that is not in it. *)
Definition checkProgramName (name : string) : option error :=
  if decide (name ∈ validPrograms) then None
  else
    match checkProgramExists name with
    | Some _ => Some (Errorf ("invalid or unsupported program name: " ++ name)%string)
    | None => None
    end.

(** The loop over the extracted commands: the first failure is returned. *)
Fixpoint checkCommands (commands : list string) : option error :=
  match commands with
  | [] => None
  | cmd :: rest =>
      match checkProgramName cmd with
      | Some err => Some err
      | None => checkCommands rest
      end
  end.

Definition subConfigError (i : nat) (err : error) : error :=
  Errorf ("sub-config #" ++ GoStrconv.Itoa (Z.of_nat i + 1)
          ++ " failed validation: " ++ Error err)%string.

(** The method [Validate] of [HyprProgramConfig]. *)
Fixpoint pc_Validate (pc : HyprProgramConfig) {struct pc} : option error :=
  match checkProgramName (pc_Program pc) with
  | Some err => Some err
  | None =>
      let content := pc_FileContent pc in
      match
        (if (0 <? length (Data content))%nat && negb (String.eqb (Hash content) "")
         then checkCommands
                (ExtractExecOnceCommands (string_of_list_byte (Data content)))
         else None)
      with
      | Some err => Some err
      | None =>
          (fix validateSubConfigs (i : nat) (subs : list HyprProgramConfig) {struct subs}
             : option error :=
             match subs with
             | [] => None
             | subConfig :: rest =>
                 match pc_Validate subConfig with
                 | Some err => Some (subConfigError i err)
                 | None => validateSubConfigs (S i) rest
                 end
             end) 0%nat (pc_SubConfigs pc)
      end
  end.

(** The third step of [Validate], from index [i] on. *)
Fixpoint validateSubConfigs (i : nat) (subs : list HyprProgramConfig) {struct subs}
  : option error :=
  match subs with
  | [] => None
  | subConfig :: rest =>
      match pc_Validate subConfig with
      | Some err => Some (subConfigError i err)
      | None => validateSubConfigs (S i) rest
      end
  end.

Fixpoint validateProgramConfigs (i : nat) (pcs : list HyprProgramConfig) {struct pcs}
  : option error :=
  match pcs with
  | [] => None
  | pc :: rest =>
      match pc_Validate pc with
      | Some err =>
          Some (Errorf ("program config #" ++ GoStrconv.Itoa (Z.of_nat i + 1)
                        ++ " (" ++ pc_Title pc ++ ") failed validation: " ++ Error err)%string)
      | None => validateProgramConfigs (S i) rest
      end
  end.

(** The method [Validate] of [HyprConfig]. *)
Definition hc_Validate (hc : HyprConfig) : option error :=
  if String.eqb (hc_Title hc) "" then Some (Errorf "config title cannot be empty")
  else if (length (hc_ProgramConfigs hc) =? 0)%nat
  then Some (Errorf "config must contain at least one program configuration")
  else validateProgramConfigs 0 (hc_ProgramConfigs hc).
End Validate.

(** [static_only pc]: the declared program of [pc] and of every node below
    it is in the static whitelist, and none of them carries file content. *)
Fixpoint static_only (pc : HyprProgramConfig) : bool :=
  bool_decide (pc_Program pc ∈ validPrograms)
  && (length (Data (pc_FileContent pc)) =? 0)%nat
  && forallb static_only (pc_SubConfigs pc).

(** Example nodes: a node of the given program with the given children and
    nothing else. *)
Definition node (id program : string) (subs : list HyprProgramConfig) : HyprProgramConfig :=
  mkHyprProgramConfig id id program "" [] ∅ (mkFileContent [] "" ∅ "") [] subs [] false 0 0.

(** ** BSON values and documents

    [bson.M] is [map[string]interface{}]: a document is a list of
    key-value pairs with distinct keys, in no particular order; a value is
    one of the kinds this package puts into documents. *)

Local Unset Elimination Schemes.

Inductive bval :=
| BString (s : string)
| BBool (b : bool)
| BInt64 (n : Z)
| BTime (t : Z)
| BPrograms (l : list HyprProgramConfig)    (* a [[]HyprProgramConfig] *)
| BArray (l : list bval)                    (* a [[]string] or [[]bson.M] *)
| BM (m : list (string * bval)).            (* a [bson.M] *)

Local Set Elimination Schemes.

Definition bsonM := list (string * bval).

(** [m[k]] with its presence flag, [delete(m, k)], [m[k] = v], [len(m)]. *)
Fixpoint M_get (k : string) (m : bsonM) : option bval :=
  match m with
  | [] => None
  | (k', v) :: rest => if String.eqb k' k then Some v else M_get k rest
  end.

Definition M_delete (k : string) (m : bsonM) : bsonM :=
  List.filter (fun kv => negb (String.eqb (fst kv) k)) m.

Definition M_set (k : string) (v : bval) (m : bsonM) : bsonM :=
  (k, v) :: M_delete k m.

Definition BStrings (l : list string) : bval := BArray (map BString l).

(** ** The document store

    One collection per kind of document, as in [ConfigManagerMongo]:
    configs by [_id], the favorite records, the applied state by user, the
    names of the allowed programs. *)

Record Store := mkStore {
  Collection : gmap string HyprConfig;
  FavoritesCollection : list UserFavorite;
  StateCollection : gmap string UserHyprState;
  ProgramsCollection : gset string
}.

Definition set_Collection (m : Store) (c : gmap string HyprConfig) : Store :=
  mkStore c (FavoritesCollection m) (StateCollection m) (ProgramsCollection m).

Definition set_FavoritesCollection (m : Store) (f : list UserFavorite) : Store :=
  mkStore (Collection m) f (StateCollection m) (ProgramsCollection m).

(** The fields of a stored config that [$set] and [$inc] reach. *)
Definition set_hc_ProgramConfigs (hc : HyprConfig) (l : list HyprProgramConfig) : HyprConfig :=
  mkHyprConfig (hc_ID hc) (hc_Title hc) (hc_Description hc) (hc_Author hc) l
    (hc_GalleryPictures hc) (hc_OwnerID hc) (hc_Private hc) (hc_Likes hc) (hc_Version hc)
    (hc_Tags hc) (hc_CreatedTimestamp hc) (hc_UpdatedTimestamp hc).

Definition set_hc_UpdatedTimestamp (hc : HyprConfig) (t : Z) : HyprConfig :=
  mkHyprConfig (hc_ID hc) (hc_Title hc) (hc_Description hc) (hc_Author hc)
    (hc_ProgramConfigs hc) (hc_GalleryPictures hc) (hc_OwnerID hc) (hc_Private hc)
    (hc_Likes hc) (hc_Version hc) (hc_Tags hc) (hc_CreatedTimestamp hc) t.

Definition set_hc_Likes (hc : HyprConfig) (n : Z) : HyprConfig :=
  mkHyprConfig (hc_ID hc) (hc_Title hc) (hc_Description hc) (hc_Author hc)
    (hc_ProgramConfigs hc) (hc_GalleryPictures hc) (hc_OwnerID hc) (hc_Private hc)
    n (hc_Version hc) (hc_Tags hc) (hc_CreatedTimestamp hc) (hc_UpdatedTimestamp hc).

(** ** Sessions ([util.go]) *)

(** The context carries the session that [session.GetSession] finds, or
    none. *)
Definition getUserFromContext (ctx : option UserSessionData) : UserSessionData + error :=
  match ctx with
  | None => inr ErrUnauthorized
  | Some user => if negb (SignedIn user) then inr ErrUnauthorized else inl user
  end.

Fixpoint isAdmin (roles : list string) : bool :=
  match roles with
  | [] => false
  | r :: rest => if String.eqb r "admin" then true else isAdmin rest
  end.

(** The ownership test of every mutating method:
    [cfg.OwnerID != user.UserID && !isAdmin(user.Roles)]. *)
Definition forbidden (cfg : HyprConfig) (user : UserSessionData) : bool :=
  negb (String.eqb (hc_OwnerID cfg) (UserID user)) && negb (isAdmin (Roles user)).

(** ** Aggregate repository ([client.go]) *)

Definition checkProgramExists (m : Store) (programName : string) : option error :=
  if decide (programName ∈ ProgramsCollection m) then None
  else Some (Errorf ("program '" ++ programName
                     ++ "' is not in the list of allowed programs")%string).

Definition bumpPatchVersion (v : string) : string :=
  let parts := GoStrings.Split v "." in
  match parts with
  | [major; minor; p] =>
      let patch := match GoStrconv.Atoi p with Some n => n | None => 0 end in
      let patch := GoStrconv.wrap (patch + 1) in
      (major ++ "." ++ minor ++ "." ++ GoStrconv.Itoa patch)%string
  | _ => "0.0.1"
  end.

(** Decoders of the values of a document into the field types of
    [HyprConfig]; a value of another kind is a decoding error. *)
Definition asString (v : bval) : option string :=
  match v with BString s => Some s | _ => None end.

Definition asBool (v : bval) : option bool :=
  match v with BBool b => Some b | _ => None end.

Definition asTime (v : bval) : option Z :=
  match v with BTime t => Some t | _ => None end.

Definition asInt64 (v : bval) : option Z :=
  match v with BInt64 n => Some n | _ => None end.

Fixpoint allStrings (l : list bval) : option (list string) :=
  match l with
  | [] => Some []
  | v :: rest =>
      match asString v, allStrings rest with
      | Some s, Some r => Some (s :: r)
      | _, _ => None
      end
  end.

Definition asStrings (v : bval) : option (list string) :=
  match v with BArray l => allStrings l | _ => None end.

Definition asPrograms (v : bval) : option (list HyprProgramConfig) :=
  match v with BPrograms l => Some l | _ => None end.

(** One field of the merged struct: the value under [key] decoded with
    [dec] when the document has the key, the existing value otherwise. *)
Definition field {A : Type} (doc : bsonM) (key : string) (dec : bval -> option A)
    (existing : A) : option A :=
  match M_get key doc with
  | Some v => dec v
  | None => Some existing
  end.

Definition asAuthor (existing : Author) (v : bval) : option Author :=
  match v with
  | BM d =>
      match field d "username" asString (UserName existing),
            field d "profile_picture" asString (ProfilePicture existing),
            field d "url" asString (URL existing) with
      | Some u, Some p, Some l => Some (mkAuthor u p l)
      | _, _, _ => None
      end
  | _ => None
  end.

(** Steps 1 to 3 of the validation block of [UpdateConfig]: the existing
    config is marshalled to a document, the updates overwrite its keys, and
    the document is unmarshalled into a copy of the existing struct.  Field
    by field that is: the value of the update when it has the field's key,
    the existing value when it has not; keys that belong to no field are
    ignored. *)
Definition mergeUpdates (existing : HyprConfig) (updates : bsonM) : option HyprConfig :=
  match field updates "_id" asString (hc_ID existing),
        field updates "title" asString (hc_Title existing),
        field updates "description" asString (hc_Description existing),
        field updates "author" (asAuthor (hc_Author existing)) (hc_Author existing),
        field updates "program_configs" asPrograms (hc_ProgramConfigs existing),
        field updates "gallery_pictures" asStrings (hc_GalleryPictures existing),
        field updates "owner_id" asString (hc_OwnerID existing) with
  | Some id, Some title, Some description, Some author, Some programs, Some gallery,
    Some owner =>
      match field updates "private" asBool (hc_Private existing),
            field updates "likes" asInt64 (hc_Likes existing),
            field updates "version" asString (hc_Version existing),
            field updates "tags" asStrings (hc_Tags existing),
            field updates "created_timestamp" asTime (hc_CreatedTimestamp existing),
            field updates "updated_timestamp" asTime (hc_UpdatedTimestamp existing) with
      | Some private, Some likes, Some version, Some tags, Some created, Some updated =>
          Some (mkHyprConfig id title description author programs gallery owner private
                  likes version tags created updated)
      | _, _, _, _, _, _ => None
      end
  | _, _, _, _, _, _, _ => None
  end.

(** [UpdateConfig]: the error it returns ([None] for nil) and the store it
    leaves.  The one write is the [UpdateOne] with [$set] at the end, which
    gives the stored document the fields of [updates]. *)
Definition UpdateConfig (ctx : option UserSessionData) (now : Z) (id : string)
    (updates : bsonM) (m : Store) : option error * Store :=
  match getUserFromContext ctx with
  | inr err => (Some err, m)
  | inl user =>
      match Collection m !! id with
      | None => (Some ErrNotFound, m)
      | Some existing =>
          if forbidden existing user then (Some ErrForbidden, m)
          else
            let newVersion := bumpPatchVersion (hc_Version existing) in
            let updates := M_set "version" (BString newVersion) updates in
            let updates := M_set "updated_timestamp" (BTime now) updates in
            let updates := M_delete "_id" updates in
            let updates := M_delete "owner_id" updates in
            let updates := M_delete "likes" updates in
            let updates := M_delete "created_timestamp" updates in
            let updates := M_delete "program_configs" updates in
            match mergeUpdates existing updates with
            | None =>
                (Some (Errorf "failed to unmarshal merged BSON into struct"), m)
            | Some mergedCfg =>
                match hc_Validate (checkProgramExists m) mergedCfg with
                | Some err =>
                    (Some (Errorf ("merged config failed validation: " ++ Error err)%string), m)
                | None =>
                    (None, set_Collection m (<[id := mergedCfg]> (Collection m)))
                end
            end
      end
  end.

Definition GetConfig (ctx : option UserSessionData) (id : string) (m : Store)
  : HyprConfig + error :=
  let user := match getUserFromContext ctx with inl u => Some u | inr _ => None end in
  match Collection m !! id with
  | None => inr ErrNotFound
  | Some cfg =>
      if hc_Private cfg
      then match user with
           | None => inr ErrForbidden
           | Some user =>
               if negb (String.eqb (hc_OwnerID cfg) (UserID user))
                  && negb (isAdmin (Roles user))
               then inr ErrForbidden else inl cfg
           end
      else inl cfg
  end.

(** [UpdateByID] with [$set] of [program_configs] and [updated_timestamp]. *)
Definition writeProgramConfigs (m : Store) (configID : string)
    (programs : list HyprProgramConfig) (now : Z) : Store :=
  set_Collection m
    (alter (fun cfg => set_hc_UpdatedTimestamp (set_hc_ProgramConfigs cfg programs) now)
       configID (Collection m)).

(** [MoveProgramConfig]; a nil [newParentID] is [None]. *)
Definition MoveProgramConfig (ctx : option UserSessionData) (now : Z)
    (configID progID : string) (newParentID : option string) (m : Store)
  : option error * Store :=
  match getUserFromContext ctx with
  | inr err => (Some err, m)
  | inl user =>
      match Collection m !! configID with
      | None => (Some ErrNotFound, m)
      | Some cfg =>
          if forbidden cfg user then (Some ErrForbidden, m)
          else
            match extractProgramConfig progID (hc_ProgramConfigs cfg) with
            | (_, None) =>
                (Some (Errorf ("program config with ID " ++ progID ++ " not found")%string), m)
            | (programs, Some removed) =>
                let removed := set_UpdatedTimestamp removed now in
                let toTopLevel :=
                  (None, writeProgramConfigs m configID (programs ++ [removed]) now) in
                match newParentID with
                | None => toTopLevel
                | Some p =>
                    if String.eqb p "" then toTopLevel
                    else
                      match insertIntoSubConfig removed p programs with
                      | (_, false) =>
                          (Some (Errorf ("parent program config with ID " ++ p
                                         ++ " not found")%string), m)
                      | (programs, true) =>
                          (None, writeProgramConfigs m configID programs now)
                      end
                end
            end
      end
  end.

(** *** Favorites *)

(** The filter [{user_id, config_id}] on a favorite record. *)
Definition isFavorite (userID configID : string) (f : UserFavorite) : bool :=
  String.eqb (fav_UserID f) userID && String.eqb (fav_ConfigID f) configID.

(** [FavoritesCollection.FindOne]. *)
Fixpoint findFavorite (userID configID : string) (favs : list UserFavorite)
  : option UserFavorite :=
  match favs with
  | [] => None
  | f :: rest => if isFavorite userID configID f then Some f else findFavorite userID configID rest
  end.

(** [FavoritesCollection.InsertOne] under the unique index on
    [(user_id, config_id)]: a second record of a pair is a duplicate-key
    error. *)
Definition insertFavorite (f : UserFavorite) (favs : list UserFavorite)
  : list UserFavorite + error :=
  match findFavorite (fav_UserID f) (fav_ConfigID f) favs with
  | Some _ => inr (Errorf "duplicate key")
  | None => inl (favs ++ [f])
  end.

(** [FavoritesCollection.DeleteOne]: the first matching record goes; the
    second component is [DeletedCount]. *)
Fixpoint deleteFavorite (userID configID : string) (favs : list UserFavorite)
  : list UserFavorite * Z :=
  match favs with
  | [] => ([], 0)
  | f :: rest =>
      if isFavorite userID configID f then (rest, 1)
      else let (rest', n) := deleteFavorite userID configID rest in (f :: rest', n)
  end.

(** [Collection.UpdateByID] with [$inc] of [likes]; nothing happens when no
    config has the identity. *)
Definition incLikes (m : Store) (configID : string) (by_ : Z) : Store :=
  set_Collection m
    (alter (fun cfg => set_hc_Likes cfg (hc_Likes cfg + by_)) configID (Collection m)).

Definition FavoriteConfig (ctx : option UserSessionData) (now : Z) (configID : string)
    (m : Store) : option error * Store :=
  match getUserFromContext ctx with
  | inr err => (Some err, m)
  | inl user =>
      match findFavorite (UserID user) configID (FavoritesCollection m) with
      | Some _ => (None, m)
      | None =>
          match insertFavorite (mkUserFavorite (UserID user) configID now)
                  (FavoritesCollection m) with
          | inr err => (Some err, m)
          | inl favs => (None, incLikes (set_FavoritesCollection m favs) configID 1)
          end
      end
  end.

Definition UnfavoriteConfig (ctx : option UserSessionData) (configID : string)
    (m : Store) : option error * Store :=
  match getUserFromContext ctx with
  | inr err => (Some err, m)
  | inl user =>
      let (favs, DeletedCount) :=
        deleteFavorite (UserID user) configID (FavoritesCollection m) in
      let m := set_FavoritesCollection m favs in
      if DeletedCount =? 0 then (None, m)
      else (None, incLikes m configID (-1))
  end.

(** The number of favorite records that reference a config, and the
    invariant that ties the like counters to it. *)
Definition favoriteCount (configID : string) (favs : list UserFavorite) : Z :=
  Z.of_nat (length (List.filter (fun f => String.eqb (fav_ConfigID f) configID) favs)).

Definition likes_consistent (m : Store) : Prop :=
  forall id cfg, Collection m !! id = Some cfg ->
                 hc_Likes cfg = favoriteCount id (FavoritesCollection m).

(** ** Search predicate ([util.go]) *)

Definition buildSearchFilter (filters : ConfigSearchFilters) (user : option UserSessionData)
  : bsonM :=
  let andParts : list bval := [] in
  let andParts :=
    if negb (String.eqb (f_Query filters) "")
    then
      let q := f_Query filters in
      andParts ++
      [BM [("$or",
            BArray
              [BM [("title", BM [("$regex", BString q); ("$options", BString "i")])];
               BM [("description", BM [("$regex", BString q); ("$options", BString "i")])];
               BM [("tags", BM [("$regex", BString q); ("$options", BString "i")])]])]]
    else andParts in
  let andParts :=
    if (0 <? length (f_Tags filters))%nat
    then andParts ++ [BM [("tags", BM [("$all", BStrings (f_Tags filters))])]]
    else andParts in
  let andParts :=
    if negb (String.eqb (f_Program filters) "")
    then andParts ++ [BM [("program_configs.program", BString (f_Program filters))]]
    else andParts in
  let andParts :=
    if negb (String.eqb (f_OwnerID filters) "")
    then andParts ++ [BM [("owner_id", BString (f_OwnerID filters))]]
    else andParts in
  let andParts :=
    match f_Private filters with
    | Some private => andParts ++ [BM [("private", BBool private)]]
    | None => andParts
    end in
  let andParts :=
    match f_UpdatedFrom filters, f_UpdatedTo filters with
    | None, None => andParts
    | from, to =>
        let rangeFilter : bsonM := [] in
        let rangeFilter :=
          match from with
          | Some s => M_set "$gte" (BTime (s * 1000000000)) rangeFilter
          | None => rangeFilter
          end in
        let rangeFilter :=
          match to with
          | Some s => M_set "$lte" (BTime (s * 1000000000)) rangeFilter
          | None => rangeFilter
          end in
        andParts ++ [BM [("updated_timestamp", BM rangeFilter)]]
    end in
  let orClause := [BM [("private", BBool false)]] in
  let orClause :=
    match user with
    | Some user => orClause ++ [BM [("owner_id", BString (UserID user))]]
    | None => orClause
    end in
  let finalFilter : bsonM := [("$or", BArray orClause)] in
  if (0 <? length andParts)%nat
  then M_set "$and" (BArray andParts) finalFilter
  else finalFilter.

(** The visibility clause of [buildSearchFilter]. *)
Definition visibility (user : option UserSessionData) : bval :=
  BArray
    (match user with
     | Some user => [BM [("private", BBool false)]] ++ [BM [("owner_id", BString (UserID user))]]
     | None => [BM [("private", BBool false)]]
     end).

(** *** What a filter document selects

    The store evaluates the filter; this is the part of MongoDB's query
    language that [buildSearchFilter] uses.  A document matches a filter
    when it satisfies every entry of it; [$or] and [$and] take a list of
    filters; any other key is a field path with a value to equal or with a
    document of operators.  A path that ends in an array offers every
    element of the array.  The regular-expression engine of the store is a
    parameter. *)

Section Query.
Variable regexMatch : string -> string -> string -> bool.  (* pattern, options, subject *)

(** The values a stored config offers under a field path; a field that is
    [omitempty] and empty is not there. *)
Definition fieldValues (cfg : HyprConfig) (path : string) : list bval :=
  if String.eqb path "_id" then [BString (hc_ID cfg)]
  else if String.eqb path "title" then [BString (hc_Title cfg)]
  else if String.eqb path "description"
  then (if String.eqb (hc_Description cfg) "" then [] else [BString (hc_Description cfg)])
  else if String.eqb path "tags" then map BString (hc_Tags cfg)
  else if String.eqb path "program_configs.program"
  then map (fun pc => BString (pc_Program pc)) (hc_ProgramConfigs cfg)
  else if String.eqb path "owner_id" then [BString (hc_OwnerID cfg)]
  else if String.eqb path "private" then [BBool (hc_Private cfg)]
  else if String.eqb path "likes" then [BInt64 (hc_Likes cfg)]
  else if String.eqb path "version" then [BString (hc_Version cfg)]
  else if String.eqb path "updated_timestamp" then [BTime (hc_UpdatedTimestamp cfg)]
  else if String.eqb path "created_timestamp" then [BTime (hc_CreatedTimestamp cfg)]
  else [].

(** Equality of scalar values. *)
Definition bval_eqb (a b : bval) : bool :=
  match a, b with
  | BString x, BString y => String.eqb x y
  | BBool x, BBool y => Bool.eqb x y
  | BInt64 x, BInt64 y => x =? y
  | BTime x, BTime y => x =? y
  | _, _ => false
  end.

Definition evalOperator (vals : list bval) (ops : bsonM) (op : string) (arg : bval) : bool :=
  if String.eqb op "$regex"
  then match arg with
       | BString pattern =>
           let options := match M_get "$options" ops with
                          | Some (BString o) => o
                          | _ => ""
                          end in
           existsb (fun v => match v with
                             | BString s => regexMatch pattern options s
                             | _ => false
                             end) vals
       | _ => false
       end
  else if String.eqb op "$options" then true
  else if String.eqb op "$all"
  then match arg with
       | BArray wanted => forallb (fun w => existsb (bval_eqb w) vals) wanted
       | _ => false
       end
  else if String.eqb op "$gte"
  then match arg with
       | BTime t => existsb (fun v => match v with BTime u => t <=? u | _ => false end) vals
       | _ => false
       end
  else if String.eqb op "$lte"
  then match arg with
       | BTime t => existsb (fun v => match v with BTime u => u <=? t | _ => false end) vals
       | _ => false
       end
  else false.

Definition evalField (cfg : HyprConfig) (path : string) (cond : bval) : bool :=
  let vals := fieldValues cfg path in
  match cond with
  | BM ops => forallb (fun kv => evalOperator vals ops (fst kv) (snd kv)) ops
  | v => existsb (bval_eqb v) vals
  end.

(** [matches cfg filter]: the stored config [cfg] is selected by the filter
    document [filter]. *)
Fixpoint matches (cfg : HyprConfig) (filter : bval) {struct filter} : bool :=
  match filter with
  | BM entries =>
      (fix every (entries : list (string * bval)) : bool :=
         match entries with
         | [] => true
         | (key, v) :: rest =>
             (if String.eqb key "$or"
              then match v with
                   | BArray alternatives =>
                       (fix some (l : list bval) : bool :=
                          match l with
                          | [] => false
                          | f :: l' => matches cfg f || some l'
                          end) alternatives
                   | _ => false
                   end
              else if String.eqb key "$and"
              then match v with
                   | BArray parts =>
                       (fix each (l : list bval) : bool :=
                          match l with
                          | [] => true
                          | f :: l' => matches cfg f && each l'
                          end) parts
                   | _ => false
                   end
              else evalField cfg key v)
             && every rest
         end) entries
  | _ => false
  end.
End Query.

(** ** HTTP handler ([hchandler/handler.go]) *)

(** [StringSlicesEqual]: the two slices have the same strings the same
    number of times. *)
Definition countStrings (l : list string) : gmap string nat :=
  fold_left (fun mp s => <[s := S (default 0%nat (mp !! s))]> mp) l ∅.

Definition StringSlicesEqual (a b : list string) : bool :=
  if (length a =? 0)%nat && (length b =? 0)%nat then true
  else
    let mapA := countStrings a in
    let mapB := countStrings b in
    if negb (size mapA =? size mapB)%nat then false
    else
      forallb (fun kc => match mapB !! fst kc with
                         | Some countB => (countB =? snd kc)%nat
                         | None => false
                         end) (map_to_list mapA).

(** The field set [Handler.UpdateConfig] builds from the request body and
    the existing config. *)
Definition buildUpdates (updatesBody existing : HyprConfig) : bsonM :=
  let updates : bsonM := [] in
  let updates :=
    if negb (String.eqb (hc_Title updatesBody) "")
       && negb (String.eqb (hc_Title updatesBody) (hc_Title existing))
    then M_set "title" (BString (hc_Title updatesBody)) updates else updates in
  let updates :=
    if negb (String.eqb (hc_Description updatesBody) "")
       && negb (String.eqb (hc_Description updatesBody) (hc_Description existing))
    then M_set "description" (BString (hc_Description updatesBody)) updates else updates in
  let updates :=
    if (0 <? length (hc_ProgramConfigs updatesBody))%nat
    then M_set "program_configs" (BPrograms (hc_ProgramConfigs updatesBody)) updates
    else updates in
  let updates :=
    if negb (Bool.eqb (hc_Private updatesBody) (hc_Private existing))
    then M_set "private" (BString (hc_Title updatesBody)) updates else updates in
  let updates :=
    if (0 <? length (hc_Tags updatesBody))%nat
       && negb (StringSlicesEqual (hc_Tags updatesBody) (hc_Tags existing))
    then M_set "tags" (BStrings (hc_Tags updatesBody)) updates else updates in
  updates.

(** What the handler writes to the response. *)
Inductive response :=
| WriteError (status : Z) (message : string)
| WriteBody (status : string).

(** [Handler.UpdateConfig] after the request body is read: [configID] is
    the path parameter, [updatesBody] the decoded body. *)
Definition Handler_UpdateConfig (ctx : option UserSessionData) (now : Z)
    (configID : string) (updatesBody : HyprConfig) (m : Store) : response * Store :=
  if String.eqb configID "" then (WriteError 400 "config_id is required", m)
  else
    match GetConfig ctx configID m with
    | inr err => (WriteError 500 (Error err), m)
    | inl existing =>
        let updates := buildUpdates updatesBody existing in
        if (length updates =? 0)%nat then (WriteBody "no changes", m)
        else
          match UpdateConfig ctx now configID updates m with
          | (Some err, m') => (WriteError 500 (Error err), m')
          | (None, m') => (WriteBody "updated", m')
          end
    end.

(** ** Example data *)

(** A tree with a chain [a / b / c] and a second top-level node [d]. *)
Definition example_tree : list HyprProgramConfig :=
  [node "a" "kitty" [node "b" "wofi" [node "c" "waybar" []]]; node "d" "foot" []].

(** A payload that asks for another identity, creation time and children. *)
Definition example_payload : HyprProgramConfig :=
  mkHyprProgramConfig "other" "Launcher" "rofi" "" [] ∅ (mkFileContent [] "" ∅ "") []
    [node "x" "eww" []] [] false 99 99.

Definition example_owner : UserSessionData := mkUserSessionData "u1" [] true.

Definition example_visitor : UserSessionData := mkUserSessionData "u2" [] true.

Definition example_config_doc (private : bool) (likes : Z) : HyprConfig :=
  mkHyprConfig "c1" "Desk" "" (mkAuthor "ann" "" "") example_tree [] "u1" private likes
    "1.2.3" [] 10 20.

Definition example_store (private : bool) (favs : list UserFavorite) : Store :=
  mkStore {[ "c1" := example_config_doc private (Z.of_nat (length favs)) ]} favs ∅ ∅.

(** A request body that renames the config and makes it private. *)
Definition example_body : HyprConfig :=
  mkHyprConfig "" "Desk two" "" (mkAuthor "" "" "") [] [] "" true 0 "" [] 0 0.

(** ** Further vocabulary for the tree *)

(** The nodes of a forest, each with its subtree, in pre-order. *)
Fixpoint node_nodes (x : HyprProgramConfig) : list HyprProgramConfig :=
  x :: flat_map node_nodes (pc_SubConfigs x).

Definition nodes (l : list HyprProgramConfig) : list HyprProgramConfig :=
  flat_map node_nodes l.

(** ** The rest of the aggregate repository ([client.go]) *)

Definition set_StateCollection (m : Store) (s : gmap string UserHyprState) : Store :=
  mkStore (Collection m) (FavoritesCollection m) s (ProgramsCollection m).


Definition set_hc_ID (hc : HyprConfig) (i : string) : HyprConfig :=
  mkHyprConfig i (hc_Title hc) (hc_Description hc) (hc_Author hc)
    (hc_ProgramConfigs hc) (hc_GalleryPictures hc) (hc_OwnerID hc) (hc_Private hc)
    (hc_Likes hc) (hc_Version hc) (hc_Tags hc) (hc_CreatedTimestamp hc)
    (hc_UpdatedTimestamp hc).

Definition set_hc_OwnerID (hc : HyprConfig) (o : string) : HyprConfig :=
  mkHyprConfig (hc_ID hc) (hc_Title hc) (hc_Description hc) (hc_Author hc)
    (hc_ProgramConfigs hc) (hc_GalleryPictures hc) o (hc_Private hc)
    (hc_Likes hc) (hc_Version hc) (hc_Tags hc) (hc_CreatedTimestamp hc)
    (hc_UpdatedTimestamp hc).

Definition set_hc_CreatedTimestamp (hc : HyprConfig) (t : Z) : HyprConfig :=
  mkHyprConfig (hc_ID hc) (hc_Title hc) (hc_Description hc) (hc_Author hc)
    (hc_ProgramConfigs hc) (hc_GalleryPictures hc) (hc_OwnerID hc) (hc_Private hc)
    (hc_Likes hc) (hc_Version hc) (hc_Tags hc) t (hc_UpdatedTimestamp hc).

(** [CreateConfig]; [uuid] is the string [uuid.New] gives, [created] and
    [updated] are the two readings of the clock.  [InsertOne] fails on an
    [_id] that is taken. *)
Definition CreateConfig (ctx : option UserSessionData) (uuid : string) (created updated : Z)
    (cfg : HyprConfig) (m : Store) : (HyprConfig + error) * Store :=
  match getUserFromContext ctx with
  | inr err => (inr err, m)
  | inl user =>
      let cfg := set_hc_ID cfg uuid in
      let cfg := set_hc_OwnerID cfg (UserID user) in
      let cfg := set_hc_CreatedTimestamp cfg created in
      let cfg := set_hc_UpdatedTimestamp cfg updated in
      match hc_Validate (checkProgramExists m) cfg with
      | Some err => (inr (Errorf ("config validation failed: " ++ Error err)%string), m)
      | None =>
          match Collection m !! hc_ID cfg with
          | Some _ => (inr (Errorf "duplicate key"), m)
          | None => (inl cfg, set_Collection m (<[hc_ID cfg := cfg]> (Collection m)))
          end
      end
  end.

Definition DeleteConfig (ctx : option UserSessionData) (id : string) (m : Store)
  : option error * Store :=
  match getUserFromContext ctx with
  | inr err => (Some err, m)
  | inl user =>
      match Collection m !! id with
      | None => (Some ErrNotFound, m)
      | Some cfg =>
          if forbidden cfg user then (Some ErrForbidden, m)
          else (None, set_Collection m (delete id (Collection m)))
      end
  end.

(** The filters of [ListConfigs] and [ListMyConfigs]; the pagination that
    runs them is the store's. *)
Definition listConfigsFilter (user : option UserSessionData) : bsonM :=
  let filter : bsonM := [("$or", BArray [BM [("private", BBool false)]])] in
  match user with
  | Some user =>
      match M_get "$or" filter with
      | Some (BArray l) =>
          M_set "$or" (BArray (l ++ [BM [("owner_id", BString (UserID user))]])) filter
      | _ => filter
      end
  | None => filter
  end.

Definition listMyConfigsFilter (user : UserSessionData) : bsonM :=
  [("owner_id", BString (UserID user))].

(** [ApplyConfig]: an upsert of the caller's one state document. *)
Definition ApplyConfig (ctx : option UserSessionData) (now : Z) (configID : string)
    (m : Store) : option error * Store :=
  match getUserFromContext ctx with
  | inr err => (Some err, m)
  | inl user =>
      (None,
       set_StateCollection m
         (<[UserID user := mkUserHyprState (UserID user) configID now]> (StateCollection m)))
  end.

Definition GetAppliedConfig (ctx : option UserSessionData) (m : Store) : HyprConfig + error :=
  match getUserFromContext ctx with
  | inr err => inr err
  | inl user =>
      match StateCollection m !! UserID user with
      | None => inr ErrNotFound
      | Some state => GetConfig ctx (st_ConfigID state) m
      end
  end.

Definition CountUsersUsingConfig (configID : string) (m : Store) : Z :=
  Z.of_nat (size (filter (fun kv : string * UserHyprState => st_ConfigID (snd kv) = configID)
                    (StateCollection m))).

(** [AddProgramConfig]; [uuid] is the string [uuid.NewString] gives. *)
Definition AddProgramConfig (ctx : option UserSessionData) (uuid : string) (now : Z)
    (configID : string) (newProg : HyprProgramConfig) (parentID : option string)
    (m : Store) : option error * Store :=
  match getUserFromContext ctx with
  | inr err => (Some err, m)
  | inl user =>
      match Collection m !! configID with
      | None => (Some ErrNotFound, m)
      | Some cfg =>
          if forbidden cfg user then (Some ErrForbidden, m)
          else
            let newProg := if String.eqb (pc_ID newProg) "" then set_ID newProg uuid
                           else newProg in
            let newProg := set_CreatedTimestamp newProg now in
            let newProg := set_UpdatedTimestamp newProg now in
            let toTopLevel :=
              (None, writeProgramConfigs m configID (hc_ProgramConfigs cfg ++ [newProg]) now) in
            match parentID with
            | None => toTopLevel
            | Some p =>
                if String.eqb p "" then toTopLevel
                else
                  match insertIntoSubConfig newProg p (hc_ProgramConfigs cfg) with
                  | (_, false) =>
                      (Some (Errorf ("parent program config with ID " ++ p
                                     ++ " not found")%string), m)
                  | (programs, true) =>
                      (None, writeProgramConfigs m configID programs now)
                  end
            end
      end
  end.

(** [UpdateByID] with [$pull] of the top-level nodes of an identity; the
    second component is [ModifiedCount]. *)
Definition pullProgramConfig (m : Store) (configID progID : string) : Store * Z :=
  match Collection m !! configID with
  | None => (m, 0)
  | Some cfg =>
      if existsb (fun pc => String.eqb (pc_ID pc) progID) (hc_ProgramConfigs cfg)
      then (set_Collection m
              (<[configID :=
                   set_hc_ProgramConfigs cfg
                     (List.filter (fun pc => negb (String.eqb (pc_ID pc) progID))
                        (hc_ProgramConfigs cfg))]> (Collection m)), 1)
      else (m, 0)
  end.

Definition RemoveProgramConfig (ctx : option UserSessionData) (now : Z)
    (configID progID : string) (m : Store) : option error * Store :=
  match getUserFromContext ctx with
  | inr err => (Some err, m)
  | inl user =>
      match Collection m !! configID with
      | None => (Some ErrNotFound, m)
      | Some cfg =>
          if forbidden cfg user then (Some ErrForbidden, m)
          else
            let (m, ModifiedCount) := pullProgramConfig m configID progID in
            if 0 <? ModifiedCount
            then (None,
                  set_Collection m
                    (alter (fun c => set_hc_UpdatedTimestamp c now) configID (Collection m)))
            else
              let updatedList := removeNestedProgramConfig progID (hc_ProgramConfigs cfg) in
              (None, writeProgramConfigs m configID updatedList now)
      end
  end.

Definition UpdateProgramConfig (ctx : option UserSessionData) (now : Z)
    (configID progID : string) (updates : HyprProgramConfig) (m : Store)
  : option error * Store :=
  match getUserFromContext ctx with
  | inr err => (Some err, m)
  | inl user =>
      match Collection m !! configID with
      | None => (Some ErrNotFound, m)
      | Some cfg =>
          if forbidden cfg user then (Some ErrForbidden, m)
          else
            match updateProgramConfigRecursive progID updates now (hc_ProgramConfigs cfg) with
            | (_, false) =>
                (Some (Errorf ("program config with ID " ++ progID ++ " not found")%string), m)
            | (updated, true) => (None, writeProgramConfigs m configID updated now)
            end
      end
  end.

(** *** The allow list *)







(** Everything of a config but its tree and its updated timestamp, and the
    stores that differ at most in the trees and updated timestamps of their
    configs. *)
Definition meta (hc : HyprConfig) :=
  (hc_ID hc, hc_Title hc, hc_Description hc, hc_Author hc, hc_GalleryPictures hc,
   hc_OwnerID hc, hc_Private hc, hc_Likes hc, hc_Version hc, hc_Tags hc,
   hc_CreatedTimestamp hc).

Definition same_meta (m m' : Store) : Prop :=
  FavoritesCollection m' = FavoritesCollection m /\
  StateCollection m' = StateCollection m /\
  ProgramsCollection m' = ProgramsCollection m /\
  forall id, meta <$> Collection m' !! id = meta <$> Collection m !! id.

(** The filter of a search that asks for nothing. *)
Definition noFilters : ConfigSearchFilters :=
  mkConfigSearchFilters "" [] "" "" None None None.

(** ** Vocabulary for the validator *)



(** ** Vocabulary for the search filter: the parts of the [$and] group, one
    per filter that is set. *)
Definition queryPart (filters : ConfigSearchFilters) : list bval :=
  if negb (String.eqb (f_Query filters) "")
  then
    let q := f_Query filters in
    [BM [("$or",
          BArray
            [BM [("title", BM [("$regex", BString q); ("$options", BString "i")])];
             BM [("description", BM [("$regex", BString q); ("$options", BString "i")])];
             BM [("tags", BM [("$regex", BString q); ("$options", BString "i")])]])]]
  else [].

Definition tagsPart (filters : ConfigSearchFilters) : list bval :=
  if (0 <? length (f_Tags filters))%nat
  then [BM [("tags", BM [("$all", BStrings (f_Tags filters))])]]
  else [].

Definition programPart (filters : ConfigSearchFilters) : list bval :=
  if negb (String.eqb (f_Program filters) "")
  then [BM [("program_configs.program", BString (f_Program filters))]]
  else [].

Definition ownerPart (filters : ConfigSearchFilters) : list bval :=
  if negb (String.eqb (f_OwnerID filters) "")
  then [BM [("owner_id", BString (f_OwnerID filters))]]
  else [].

Definition privatePart (filters : ConfigSearchFilters) : list bval :=
  match f_Private filters with
  | Some private => [BM [("private", BBool private)]]
  | None => []
  end.

Definition rangePart (filters : ConfigSearchFilters) : list bval :=
  match f_UpdatedFrom filters, f_UpdatedTo filters with
  | None, None => []
  | Some from, None => [BM [("updated_timestamp", BM [("$gte", BTime (from * 1000000000))])]]
  | None, Some to => [BM [("updated_timestamp", BM [("$lte", BTime (to * 1000000000))])]]
  | Some from, Some to =>
      [BM [("updated_timestamp",
            BM [("$lte", BTime (to * 1000000000)); ("$gte", BTime (from * 1000000000))])]]
  end.

(** ** Quoted text ([configfinder/client.go]) *)

(** The double quote character. *)
Definition quote : ascii := ascii_of_nat 34.

Definition notQuote (c : ascii) : bool := negb (Ascii.eqb c quote).

(** The pattern of [ExtractBetweenQuotes]: a quote, a group of characters
    other than the quote, a quote. *)
Definition reQuoted : GoRegexp.regex :=
  [GoRegexp.One (Ascii.eqb quote); GoRegexp.Open; GoRegexp.Star notQuote; GoRegexp.Close;
   GoRegexp.One (Ascii.eqb quote)].

(** [re.FindStringSubmatch(s)]: the leftmost match, which is the first one
    [FindAllStringSubmatch] returns; [nil] when there is none. *)
Definition FindStringSubmatch (re : GoRegexp.regex) (s : string) : list string :=
  match GoRegexp.FindAllStringSubmatch re s with
  | mt :: _ => mt
  | [] => []
  end.

Definition ExtractBetweenQuotes (input : string) : string + error :=
  let mt := FindStringSubmatch reQuoted input in
  if (length mt <? 2)%nat then inr (Errorf "no content found between quotes")
  else inl (sub mt 1).

(** * Properties *)

(** *** Remove *)

Lemma filterSubConfigs_in_eq t sc :
  filterSubConfigs_in t sc = filterSubConfigs t (pc_SubConfigs sc).
Proof. destruct sc; reflexivity. Qed.

Lemma set_SubConfigs_same x : set_SubConfigs x (pc_SubConfigs x) = x.
Proof. destruct x; reflexivity. Qed.

Lemma set_SubConfigs_twice x a b :
  set_SubConfigs (set_SubConfigs x a) b = set_SubConfigs x b.
Proof. reflexivity. Qed.

Lemma pc_ID_set_SubConfigs x s : pc_ID (set_SubConfigs x s) = pc_ID x.
Proof. reflexivity. Qed.

Lemma pc_SubConfigs_set_SubConfigs x s : pc_SubConfigs (set_SubConfigs x s) = s.
Proof. reflexivity. Qed.

Create Rewrite HintDb pc.
#[export] Hint Rewrite pc_ID_set_SubConfigs pc_SubConfigs_set_SubConfigs
  set_SubConfigs_twice set_SubConfigs_same : pc.

Lemma filterSubConfigs_cons t sc rest :
  filterSubConfigs t (sc :: rest) =
  if String.eqb (pc_ID sc) t then filterSubConfigs t rest
  else set_SubConfigs sc (filterSubConfigs t (pc_SubConfigs sc)) :: filterSubConfigs t rest.
Proof.
  cbn [filterSubConfigs]. rewrite filterSubConfigs_in_eq.
  destruct (pc_SubConfigs sc) eqn:E.
  - cbn. rewrite <- E, set_SubConfigs_same. reflexivity.
  - reflexivity.
Qed.

Lemma removeNested_is_filter t l :
  removeNestedProgramConfig t l = filterSubConfigs t l.
Proof.
  induction l as [|x r IH]; [reflexivity|].
  rewrite filterSubConfigs_cons. cbn [removeNestedProgramConfig]. rewrite IH.
  destruct (pc_SubConfigs x) eqn:E.
  - cbn. rewrite <- E, set_SubConfigs_same. destruct (String.eqb (pc_ID x) t); reflexivity.
  - cbn. destruct (String.eqb (pc_ID x) t); reflexivity.
Qed.

Lemma ids_cons x r : ids (x :: r) = pc_ID x :: ids (pc_SubConfigs x) ++ ids r.
Proof. destruct x; reflexivity. Qed.

Lemma ids_app l1 l2 : ids (l1 ++ l2) = ids l1 ++ ids l2.
Proof. unfold ids. apply flat_map_app. Qed.

Lemma flat_cons anc x r :
  flat anc (x :: r) =
  (anc, own x) :: flat (anc ++ [pc_ID x]) (pc_SubConfigs x) ++ flat anc r.
Proof. destruct x; reflexivity. Qed.

Lemma own_set_SubConfigs x s : own (set_SubConfigs x s) = own x.
Proof. reflexivity. Qed.

Lemma existsb_eqb_app t a b :
  existsb (String.eqb t) (a ++ b) = existsb (String.eqb t) a || existsb (String.eqb t) b.
Proof. apply existsb_app. Qed.

Lemma flat_below t l :
  forall anc, existsb (String.eqb t) anc = true ->
  List.filter (fun e => negb (below t e)) (flat anc l) = [].
Proof.
  induction l using forest_ind; intros anc Hanc; [reflexivity|].
  rewrite flat_cons. cbn [List.filter]. unfold below at 1. cbn [fst snd].
  rewrite existsb_eqb_app, Hanc. cbn [orb negb].
  rewrite List.filter_app, IHl, IHl0; auto.
  rewrite existsb_eqb_app, Hanc. reflexivity.
Qed.

Lemma flat_filterSubConfigs t l :
  forall anc, existsb (String.eqb t) anc = false ->
  flat anc (filterSubConfigs t l) =
  List.filter (fun e => negb (below t e)) (flat anc l).
Proof.
  induction l as [|x r IHsub IHr] using forest_ind; intros anc Hanc; [reflexivity|].
  rewrite filterSubConfigs_cons, (flat_cons anc x r).
  cbn [List.filter]. unfold below at 1. cbn [fst snd].
  rewrite existsb_eqb_app, Hanc. cbn [existsb orb].
  change (pc_ID (own x)) with (pc_ID x).
  rewrite List.filter_app, <- IHr by assumption.
  rewrite (String.eqb_sym t). destruct (String.eqb (pc_ID x) t) eqn:E.
  - apply String.eqb_eq in E. subst t. cbn [negb orb].
    rewrite flat_below; [reflexivity|].
    rewrite existsb_eqb_app. cbn. rewrite String.eqb_refl. apply orb_true_r.
  - cbn [negb orb]. rewrite flat_cons, own_set_SubConfigs. cbn [pc_ID set_SubConfigs pc_SubConfigs].
    rewrite IHsub; [reflexivity|].
    rewrite existsb_eqb_app, Hanc. cbn. rewrite String.eqb_sym, E. reflexivity.
Qed.

Lemma ids_filterSubConfigs t l : ~ In t (ids (filterSubConfigs t l)).
Proof.
  induction l as [|x r IHsub IHr] using forest_ind; [intros []|].
  rewrite filterSubConfigs_cons. destruct (String.eqb (pc_ID x) t) eqn:E; [assumption|].
  rewrite ids_cons. cbn [pc_ID set_SubConfigs pc_SubConfigs].
  apply String.eqb_neq in E. intros [H|H]; [congruence|].
  apply in_app_or in H. tauto.
Qed.

(** Removal is the identity on a forest that does not hold the target. *)
Lemma filterSubConfigs_absent t l : ~ In t (ids l) -> filterSubConfigs t l = l.
Proof.
  induction l as [|x r IHsub IHr] using forest_ind; [reflexivity|].
  rewrite ids_cons, filterSubConfigs_cons. intros H.
  destruct (String.eqb (pc_ID x) t) eqn:E.
  - apply String.eqb_eq in E. exfalso. apply H. left. exact E.
  - rewrite IHsub, IHr, set_SubConfigs_same; [reflexivity| |];
      intros Hin; apply H; right; apply in_or_app; tauto.
Qed.

(** C1. [removeNestedProgramConfig] deletes every node of the target
    identity with its whole subtree, at any depth: the target identity does
    not occur in the result, and the nodes of the result are, in the original
    order and under the original ancestors, exactly the nodes of the input
    that neither have the target identity nor lie below a node that has it. *)
Theorem removeNested_cascades (targetID : string) (lst : list HyprProgramConfig) :
  ~ In targetID (ids (removeNestedProgramConfig targetID lst)) /\
  flat [] (removeNestedProgramConfig targetID lst) =
    List.filter (fun e => negb (below targetID e)) (flat [] lst) /\
  map pc_ID (removeNestedProgramConfig targetID lst) =
    List.filter (fun i => negb (String.eqb i targetID)) (map pc_ID lst).
Proof.
  rewrite removeNested_is_filter. split; [apply ids_filterSubConfigs|]. split.
  - apply flat_filterSubConfigs. reflexivity.
  - induction lst as [|x r IH]; [reflexivity|].
    rewrite filterSubConfigs_cons. cbn [map List.filter].
    destruct (String.eqb (pc_ID x) targetID); cbn [negb map]; rewrite IH; reflexivity.
Qed.

(** *** Insert *)

Lemma insertIntoNested_in_eq n p x :
  insertIntoNested_in n p x = insertIntoNested n p (pc_SubConfigs x).
Proof. destruct x; reflexivity. Qed.

Lemma insertIntoNested_cons n p y rest :
  insertIntoNested n p (y :: rest) =
  if String.eqb (pc_ID y) p
  then (set_SubConfigs y (pc_SubConfigs y ++ [n]) :: rest, true)
  else match insertIntoNested n p (pc_SubConfigs y) with
       | (sub, true) => (set_SubConfigs y sub :: rest, true)
       | (_, false) =>
           let (rest', ok) := insertIntoNested n p rest in (y :: rest', ok)
       end.
Proof.
  cbn [insertIntoNested]. rewrite insertIntoNested_in_eq.
  destruct (pc_SubConfigs y); reflexivity.
Qed.

Lemma insertIntoSubConfig_is_nested n p l :
  insertIntoSubConfig n p l = insertIntoNested n p l.
Proof.
  induction l as [|y rest IH]; [reflexivity|].
  rewrite insertIntoNested_cons. cbn [insertIntoSubConfig]. rewrite IH.
  destruct (pc_SubConfigs y); reflexivity.
Qed.

(** The search succeeds exactly when the parent identity occurs. *)
Lemma insertIntoNested_found n p l :
  snd (insertIntoNested n p l) = true <-> In p (ids l).
Proof.
  induction l as [|y rest IHsub IHr] using forest_ind; [cbn; split; [discriminate|tauto]|].
  rewrite insertIntoNested_cons, ids_cons.
  destruct (String.eqb (pc_ID y) p) eqn:E.
  - apply String.eqb_eq in E. cbn. tauto.
  - apply String.eqb_neq in E.
    destruct (insertIntoNested n p (pc_SubConfigs y)) as [sub [|]] eqn:Es; cbn [snd] in IHsub.
    + cbn. split; [intros _|reflexivity]. right. apply in_or_app. left. tauto.
    + destruct (insertIntoNested n p rest) as [rest' ok] eqn:Er. cbn [snd] in *.
      rewrite IHr. split; [intros H; right; apply in_or_app; tauto|].
      intros [H|H]; [congruence|]. apply in_app_or in H. destruct H as [H|H]; [|exact H].
      apply IHsub in H. discriminate.
Qed.

Lemma insertIntoNested_missed n p l :
  snd (insertIntoNested n p l) = false -> fst (insertIntoNested n p l) = l.
Proof.
  induction l as [|y rest IHsub IHr] using forest_ind; [reflexivity|].
  rewrite insertIntoNested_cons.
  destruct (String.eqb (pc_ID y) p); [discriminate|].
  destruct (insertIntoNested n p (pc_SubConfigs y)) as [sub [|]]; [discriminate|].
  destruct (insertIntoNested n p rest) as [rest' ok]. cbn [fst snd] in *.
  intros H. rewrite IHr by exact H. reflexivity.
Qed.

Lemma filterSubConfigs_app t a b :
  filterSubConfigs t (a ++ b) = filterSubConfigs t a ++ filterSubConfigs t b.
Proof.
  induction a as [|x a IH]; [reflexivity|].
  rewrite <- app_comm_cons, !filterSubConfigs_cons, IH.
  destruct (String.eqb (pc_ID x) t); reflexivity.
Qed.

Lemma filterSubConfigs_target t x :
  pc_ID x = t -> filterSubConfigs t [x] = [].
Proof.
  intros H. rewrite filterSubConfigs_cons.
  apply String.eqb_eq in H. rewrite H. reflexivity.
Qed.

(** Removing the inserted identity undoes a nested insertion. *)
Lemma insertIntoNested_remove n p l :
  ~ In (pc_ID n) (ids l) ->
  filterSubConfigs (pc_ID n) (fst (insertIntoNested n p l)) = l.
Proof.
  induction l as [|y rest IHsub IHr] using forest_ind; [reflexivity|].
  rewrite ids_cons. intros H.
  assert (Hy : pc_ID y <> pc_ID n) by (intros E; apply H; left; exact E).
  assert (Hs : ~ In (pc_ID n) (ids (pc_SubConfigs y)))
    by (intros E; apply H; right; apply in_or_app; tauto).
  assert (Hr : ~ In (pc_ID n) (ids rest))
    by (intros E; apply H; right; apply in_or_app; tauto).
  apply String.eqb_neq in Hy.
  rewrite insertIntoNested_cons.
  destruct (String.eqb (pc_ID y) p).
  - cbn [fst]. rewrite filterSubConfigs_cons. autorewrite with pc.
    rewrite Hy, filterSubConfigs_app, (filterSubConfigs_target _ n) by reflexivity.
    rewrite !filterSubConfigs_absent, app_nil_r by assumption.
    autorewrite with pc. reflexivity.
  - specialize (IHsub Hs). specialize (IHr Hr).
    destruct (insertIntoNested n p (pc_SubConfigs y)) as [sub [|]].
    + cbn [fst] in *. rewrite filterSubConfigs_cons. autorewrite with pc.
      rewrite Hy, IHsub, filterSubConfigs_absent by assumption.
      autorewrite with pc. reflexivity.
    + destruct (insertIntoNested n p rest) as [rest' ok]. cbn [fst] in *.
      rewrite filterSubConfigs_cons, Hy, IHr, filterSubConfigs_absent by assumption.
      autorewrite with pc. reflexivity.
Qed.

(** C4. Insert then remove round-trips: for a tree [T], a childless node [N]
    whose identity does not occur in [T], and a parent that is absent, empty
    (both: top level) or an identity of [T], the insertion succeeds and
    removing [N]'s identity from its result gives [T] back. *)
Theorem insert_then_remove (T : list HyprProgramConfig) (N : HyprProgramConfig)
    (parentID : option string) :
  pc_SubConfigs N = [] ->
  ~ In (pc_ID N) (ids T) ->
  (forall p, parentID = Some p -> p <> "" -> In p (ids T)) ->
  exists T', Insert T N parentID = Some T' /\
             removeNestedProgramConfig (pc_ID N) T' = T.
Proof.
  intros _ Hfresh Hparent.
  assert (Htop : removeNestedProgramConfig (pc_ID N) (T ++ [N]) = T).
  { rewrite removeNested_is_filter, filterSubConfigs_app,
      filterSubConfigs_absent, filterSubConfigs_target, app_nil_r by auto.
    reflexivity. }
  unfold Insert. destruct parentID as [p|]; [|eauto].
  destruct (String.eqb p "") eqn:E; [eauto|].
  apply String.eqb_neq in E. specialize (Hparent p eq_refl E).
  rewrite insertIntoSubConfig_is_nested.
  apply (insertIntoNested_found N) in Hparent.
  pose proof (insertIntoNested_remove N p T Hfresh) as Hrt.
  destruct (insertIntoNested N p T) as [T' ok]. cbn [fst snd] in *. subst ok.
  exists T'. split; [reflexivity|]. rewrite removeNested_is_filter. exact Hrt.
Qed.

(** *** Update *)

Lemma updateSubConfigRecursive_in_eq p u now x :
  updateSubConfigRecursive_in p u now x = updateSubConfigRecursive p u now (pc_SubConfigs x).
Proof. destruct x; reflexivity. Qed.

Lemma replacement_nested_top p u now old :
  replacement_nested p u now old = replacement_top p u now old.
Proof. reflexivity. Qed.

Lemma updateSubConfigRecursive_cons p u now y rest :
  updateSubConfigRecursive p u now (y :: rest) =
  if String.eqb (pc_ID y) p
  then (replacement_top p u now y :: rest, true)
  else
    let (sub, done) := updateSubConfigRecursive p u now (pc_SubConfigs y) in
    if done then (set_SubConfigs y sub :: rest, true)
    else
      let (rest', done) := updateSubConfigRecursive p u now rest in
      (set_SubConfigs y sub :: rest', done).
Proof.
  cbn [updateSubConfigRecursive]. rewrite updateSubConfigRecursive_in_eq.
  destruct (pc_SubConfigs y) eqn:E; [|reflexivity].
  cbn. rewrite <- E. autorewrite with pc. reflexivity.
Qed.

Lemma updateProgramConfigRecursive_is_nested p u now l :
  updateProgramConfigRecursive p u now l = updateSubConfigRecursive p u now l.
Proof.
  induction l as [|y rest IH]; [reflexivity|].
  rewrite updateSubConfigRecursive_cons. cbn [updateProgramConfigRecursive]. rewrite IH.
  destruct (pc_SubConfigs y) eqn:E; [|reflexivity].
  cbn. rewrite <- E. autorewrite with pc. reflexivity.
Qed.

Lemma updateSubConfigRecursive_missed p u now l :
  snd (updateSubConfigRecursive p u now l) = false ->
  fst (updateSubConfigRecursive p u now l) = l.
Proof.
  induction l as [|y rest IHsub IHr] using forest_ind; [reflexivity|].
  rewrite updateSubConfigRecursive_cons.
  destruct (String.eqb (pc_ID y) p); [discriminate|].
  destruct (updateSubConfigRecursive p u now (pc_SubConfigs y)) as [sub [|]]; [discriminate|].
  destruct (updateSubConfigRecursive p u now rest) as [rest' done]. cbn [fst snd] in *.
  intros H. rewrite IHr, IHsub by auto. autorewrite with pc. reflexivity.
Qed.

Lemma updateSubConfigRecursive_found p u now l :
  snd (updateSubConfigRecursive p u now l) = true <-> In p (ids l).
Proof.
  induction l as [|y rest IHsub IHr] using forest_ind; [cbn; split; [discriminate|tauto]|].
  rewrite updateSubConfigRecursive_cons, ids_cons.
  destruct (String.eqb (pc_ID y) p) eqn:E.
  - apply String.eqb_eq in E. cbn. tauto.
  - apply String.eqb_neq in E.
    destruct (updateSubConfigRecursive p u now (pc_SubConfigs y)) as [sub [|]];
      cbn [snd] in IHsub.
    + cbn. split; [intros _|reflexivity]. right. apply in_or_app. left. tauto.
    + destruct (updateSubConfigRecursive p u now rest) as [rest' done]. cbn [snd] in *.
      rewrite IHr. split; [intros H; right; apply in_or_app; tauto|].
      intros [H|H]; [congruence|]. apply in_app_or in H. destruct H as [H|H]; [|exact H].
      apply IHsub in H. discriminate.
Qed.

Lemma updateSubConfigRecursive_replaced p u now l :
  snd (updateSubConfigRecursive p u now l) = true ->
  exists old, pc_ID old = p /\
    replaced old (replacement_top p u now old) l (fst (updateSubConfigRecursive p u now l)).
Proof.
  induction l as [|y rest IHsub IHr] using forest_ind; [discriminate|].
  rewrite updateSubConfigRecursive_cons.
  destruct (String.eqb (pc_ID y) p) eqn:E.
  - intros _. exists y. apply String.eqb_eq in E. split; [exact E|]. constructor.
  - pose proof (updateSubConfigRecursive_missed p u now (pc_SubConfigs y)) as Hm.
    destruct (updateSubConfigRecursive p u now (pc_SubConfigs y)) as [sub [|]];
      cbn [fst snd] in *.
    + intros _. destruct (IHsub eq_refl) as [old [Hid Hrep]].
      exists old. split; [exact Hid|]. apply replaced_below. exact Hrep.
    + rewrite Hm by reflexivity.
      destruct (updateSubConfigRecursive p u now rest) as [rest' done]. cbn [fst snd] in *.
      intros H. destruct (IHr H) as [old [Hid Hrep]].
      exists old. split; [exact Hid|]. autorewrite with pc. apply replaced_later. exact Hrep.
Qed.

(** C2. [updateProgramConfigRecursive] reports a match exactly when the
    identity occurs in the tree.  On a match it exchanges one node [old] of
    that identity for the caller's payload with the identity, the creation
    timestamp and the children of [old] and with the updated timestamp
    [now], and every other node stays as it was; without a match the tree
    is returned unchanged. *)
Theorem update_forces_immutable_fields (lst : list HyprProgramConfig) (progID : string)
    (updates : HyprProgramConfig) (now : Z) :
  let result := updateProgramConfigRecursive progID updates now lst in
  (snd result = true <-> In progID (ids lst)) /\
  (snd result = false -> fst result = lst) /\
  (snd result = true ->
   exists old new,
     pc_ID old = progID /\
     replaced old new lst (fst result) /\
     pc_ID new = pc_ID old /\
     pc_CreatedTimestamp new = pc_CreatedTimestamp old /\
     pc_SubConfigs new = pc_SubConfigs old /\
     pc_UpdatedTimestamp new = now /\
     new = set_SubConfigs
             (set_UpdatedTimestamp
                (set_CreatedTimestamp (set_ID updates (pc_ID old)) (pc_CreatedTimestamp old))
                now)
             (pc_SubConfigs old)).
Proof.
  cbn zeta. rewrite updateProgramConfigRecursive_is_nested.
  split; [apply updateSubConfigRecursive_found|].
  split; [apply updateSubConfigRecursive_missed|].
  intros H. destruct (updateSubConfigRecursive_replaced _ _ _ _ H) as [old [Hid Hrep]].
  exists old, (replacement_top progID updates now old).
  repeat split; try assumption; try reflexivity.
  - cbn. congruence.
  - unfold replacement_top. rewrite Hid. reflexivity.
Qed.

(** *** Extraction *)

Lemma extractProgramConfigNested_in_eq p x :
  extractProgramConfigNested_in p x = extractProgramConfigNested p (pc_SubConfigs x).
Proof. destruct x; reflexivity. Qed.

Lemma extractNested_loop_cons p newList sc rest :
  extractNested_loop p newList (sc :: rest) =
  if String.eqb (pc_ID sc) p then (newList, Some sc)
  else match extractProgramConfigNested p (pc_SubConfigs sc) with
       | (subNew, Some removed) => (newList ++ [set_SubConfigs sc subNew], Some removed)
       | (_, None) => extractNested_loop p (newList ++ [sc]) rest
       end.
Proof.
  cbn [extractNested_loop]. rewrite extractProgramConfigNested_in_eq.
  destruct (pc_SubConfigs sc); reflexivity.
Qed.

Lemma extract_loop_is_nested p l :
  forall newList, extract_loop p newList l = extractNested_loop p newList l.
Proof.
  induction l as [|y rest IH]; intros newList; [reflexivity|].
  rewrite extractNested_loop_cons. cbn [extract_loop]. rewrite IH.
  destruct (pc_SubConfigs y); reflexivity.
Qed.

(** The extraction finds a node exactly when the identity occurs. *)
Lemma extractNested_loop_found p l :
  forall newList,
    In p (ids l) <-> exists removed, snd (extractNested_loop p newList l) = Some removed.
Proof.
  induction l as [|y rest IHsub IHr] using forest_ind; intros newList.
  - cbn. split; [tauto|]. intros [r H]. discriminate.
  - rewrite extractNested_loop_cons, ids_cons.
    destruct (String.eqb (pc_ID y) p) eqn:E.
    + apply String.eqb_eq in E. cbn. split; [eauto|tauto].
    + apply String.eqb_neq in E. specialize (IHsub []).
      unfold extractProgramConfigNested.
      destruct (extractNested_loop p [] (pc_SubConfigs y)) as [subNew [removed|]];
        cbn [snd] in *.
      * split; [eauto|]. intros _. right. apply in_or_app. left. apply IHsub. eauto.
      * rewrite <- IHr. split.
        -- intros [H|H]; [congruence|]. apply in_app_or in H. destruct H as [H|H]; [|exact H].
           apply IHsub in H. destruct H as [r H]. discriminate.
        -- intros H. right. apply in_or_app. tauto.
Qed.

Lemma extractProgramConfig_found p l :
  In p (ids l) <-> exists removed, snd (extractProgramConfig p l) = Some removed.
Proof.
  unfold extractProgramConfig. rewrite extract_loop_is_nested.
  apply extractNested_loop_found.
Qed.

(** *** The extractor *)

Lemma dedupFrom_elem x l : forall seen, x ∈ dedupFrom seen l <-> x ∈ l /\ x ∉ seen.
Proof.
  induction l as [|y l IH]; intros seen; cbn [dedupFrom].
  - rewrite elem_of_nil. tauto.
  - destruct (decide (y ∈ seen)) as [Hy|Hy].
    + rewrite IH, elem_of_cons. split; [tauto|].
      intros [[->|H] Hx]; [contradiction|tauto].
    + rewrite !elem_of_cons, IH, not_elem_of_union, elem_of_singleton.
      destruct (decide (x = y)) as [->|Hne]; tauto.
Qed.

Lemma dedupFrom_NoDup l : forall seen, NoDup (dedupFrom seen l).
Proof.
  induction l as [|y l IH]; intros seen; cbn [dedupFrom]; [constructor|].
  destruct (decide (y ∈ seen)); [apply IH|].
  constructor; [|apply IH].
  rewrite dedupFrom_elem, not_elem_of_union, elem_of_singleton. tauto.
Qed.

Lemma dedupFrom_snoc x l :
  forall seen,
    dedupFrom seen (l ++ [x]) =
    if decide (x ∈ seen \/ x ∈ l) then dedupFrom seen l else dedupFrom seen l ++ [x].
Proof.
  induction l as [|y l IH]; intros seen; cbn [dedupFrom app].
  - destruct (decide (x ∈ seen)) as [Hx|Hx]; destruct (decide _) as [H|H]; try reflexivity.
    + exfalso. apply H. left. exact Hx.
    + exfalso. destruct H as [H|H]; [contradiction|]. apply elem_of_nil in H. exact H.
  - destruct (decide (y ∈ seen)) as [Hy|Hy]; rewrite IH.
    + destruct (decide _) as [H|H]; destruct (decide _) as [H'|H']; try reflexivity.
      * exfalso. apply H'. rewrite elem_of_cons. tauto.
      * exfalso. apply H. rewrite elem_of_cons in H'.
        destruct H' as [H'|[->|H']]; tauto.
    + destruct (decide _) as [H|H]; destruct (decide _) as [H'|H']; try reflexivity.
      * exfalso. apply H'. rewrite elem_of_cons.
        rewrite elem_of_union, elem_of_singleton in H. tauto.
      * exfalso. apply H. rewrite elem_of_union, elem_of_singleton.
        rewrite elem_of_cons in H'. tauto.
Qed.

(** C5. On the specification's example the extractor returns [kitty] and
    [firefox], in that order: [$term] is replaced by its value and the
    commented line gives nothing; a further [exec-once = kitty] adds no
    duplicate.  In general the result is the deduplication of the collected
    commands: it has no duplicates, holds exactly the collected commands,
    and a command is appended exactly when it was not seen before. *)
Theorem extractor_example_and_order :
  ExtractExecOnceCommands example_config = ["kitty"; "firefox"] /\
  ExtractExecOnceCommands (example_config ++ LF ++ "exec-once = kitty")%string
    = ["kitty"; "firefox"] /\
  (forall input, ExtractExecOnceCommands input = DeduplicateStrings (collectCommands input)) /\
  (forall l, NoDup (DeduplicateStrings l)) /\
  (forall l x, x ∈ DeduplicateStrings l <-> x ∈ l) /\
  DeduplicateStrings [] = [] /\
  (forall l x, DeduplicateStrings (l ++ [x]) =
               if decide (x ∈ l) then DeduplicateStrings l else DeduplicateStrings l ++ [x]).
Proof.
  split; [vm_compute; reflexivity|]. split; [vm_compute; reflexivity|].
  split; [reflexivity|]. split; [intros l; apply dedupFrom_NoDup|]. split.
  { intros l x. unfold DeduplicateStrings. rewrite dedupFrom_elem.
    pose proof (not_elem_of_empty (C := gset string) x). tauto. }
  split; [reflexivity|].
  intros l x. unfold DeduplicateStrings. rewrite dedupFrom_snoc.
  pose proof (not_elem_of_empty (C := gset string) x).
  destruct (decide _) as [H'|H']; destruct (decide _) as [H''|H'']; try reflexivity; tauto.
Qed.

(** *** The validator *)

Lemma pc_Validate_eq check pc :
  pc_Validate check pc =
  match checkProgramName check (pc_Program pc) with
  | Some err => Some err
  | None =>
      match
        (if (0 <? length (Data (pc_FileContent pc)))%nat
            && negb (String.eqb (Hash (pc_FileContent pc)) "")
         then checkCommands check
                (ExtractExecOnceCommands (string_of_list_byte (Data (pc_FileContent pc))))
         else None)
      with
      | Some err => Some err
      | None => validateSubConfigs check 0 (pc_SubConfigs pc)
      end
  end.
Proof. destruct pc; reflexivity. Qed.

Lemma static_only_eq pc :
  static_only pc =
  bool_decide (pc_Program pc ∈ validPrograms)
  && (length (Data (pc_FileContent pc)) =? 0)%nat
  && forallb static_only (pc_SubConfigs pc).
Proof. destruct pc; reflexivity. Qed.

Lemma static_only_valid check l :
  forallb static_only l = true -> forall i, validateSubConfigs check i l = None.
Proof.
  induction l as [|pc rest IHsub IHr] using forest_ind; [reflexivity|].
  cbn [forallb]. intros H i. apply andb_prop in H. destruct H as [Hpc Hrest].
  cbn [validateSubConfigs]. rewrite pc_Validate_eq.
  rewrite static_only_eq in Hpc.
  apply andb_prop in Hpc. destruct Hpc as [Hpc Hsubs].
  apply andb_prop in Hpc. destruct Hpc as [Hprog Hdata].
  apply bool_decide_eq_true in Hprog. apply Nat.eqb_eq in Hdata.
  unfold checkProgramName. rewrite decide_True by exact Hprog.
  rewrite Hdata. cbn [Nat.ltb Nat.leb andb].
  rewrite IHsub by exact Hsubs. apply IHr. exact Hrest.
Qed.

(** C6, as amended. A node whose declared program is not in the static
    whitelist and which carries no file content fails validation, with the
    error that names the program, whenever the gateway reports an error for
    it.  A node that, with all the nodes below it, declares whitelisted
    programs and carries no file content is valid for every gateway, so the
    outcome does not depend on the gateway. *)
Theorem validate_node (checkProgramExists : string -> option error) (pc : HyprProgramConfig) :
  (pc_Program pc ∉ validPrograms ->
   Data (pc_FileContent pc) = [] ->
   checkProgramExists (pc_Program pc) <> None ->
   pc_Validate checkProgramExists pc =
     Some (Errorf ("invalid or unsupported program name: " ++ pc_Program pc)%string)) /\
  (static_only pc = true ->
   pc_Validate checkProgramExists pc = None /\
   forall gateway, pc_Validate gateway pc = pc_Validate checkProgramExists pc).
Proof.
  split.
  - intros Hprog _ Hcheck. rewrite pc_Validate_eq. unfold checkProgramName.
    rewrite decide_False by exact Hprog.
    destruct (checkProgramExists (pc_Program pc)); [reflexivity|congruence].
  - intros H.
    assert (Hall : forall check, pc_Validate check pc = None).
    { intros check. pose proof (static_only_valid check [pc]) as Hv.
      cbn [forallb validateSubConfigs] in Hv. rewrite H in Hv.
      specialize (Hv eq_refl 0%nat).
      destruct (pc_Validate check pc); [discriminate|reflexivity]. }
    split; [apply Hall|]. intros gateway. rewrite !Hall. reflexivity.
Qed.

Lemma validate_node_witness :
  pc_Validate (fun _ => Some ErrNotFound) (node "n1" "unknownapp" [])
    = Some (Errorf "invalid or unsupported program name: unknownapp") /\
  pc_Validate (fun _ => Some ErrNotFound) (node "n1" "kitty" [node "n2" "wofi" []]) = None.
Proof.
  split.
  - apply (proj1 (validate_node (fun _ => Some ErrNotFound) (node "n1" "unknownapp" []))).
    + apply (bool_decide_eq_false_1 _). vm_compute. reflexivity.
    + reflexivity.
    + discriminate.
  - apply (proj2 (validate_node (fun _ => Some ErrNotFound)
                    (node "n1" "kitty" [node "n2" "wofi" []]))).
    vm_compute. reflexivity.
Defined.

(** Against C6 as first stated: a whitelisted parent without file content
    fails validation through its child, and its outcome changes with the
    gateway. *)
Lemma validate_whitelisted_parent_counterexample :
  let parent := node "n1" "kitty" [node "n2" "unknownapp" []] in
  pc_Program parent ∈ validPrograms /\
  Data (pc_FileContent parent) = [] /\
  pc_Validate (fun _ => Some ErrNotFound) parent
    = Some (Errorf "sub-config #1 failed validation: invalid or unsupported program name: unknownapp") /\
  pc_Validate (fun _ => None) parent = None.
Proof.
  cbn zeta. split; [apply (bool_decide_eq_true_1 _); vm_compute; reflexivity|].
  split; [reflexivity|]. split; vm_compute; reflexivity.
Qed.

(** *** Version bump *)

Lemma append_cons x a b : (String x a ++ b)%string = String x (a ++ b)%string.
Proof. reflexivity. Qed.

Lemma append_assoc_s (a b c : string) : ((a ++ b) ++ c)%string = (a ++ (b ++ c))%string.
Proof.
  induction a as [|x a IH]; [reflexivity|].
  rewrite !append_cons, IH. reflexivity.
Qed.

Lemma append_empty_r (a : string) : (a ++ "")%string = a.
Proof.
  induction a as [|x a IH]; [reflexivity|].
  rewrite append_cons, IH. reflexivity.
Qed.

Lemma append_snoc a c b : ((a ++ String c "") ++ b)%string = (a ++ String c b)%string.
Proof. rewrite append_assoc_s. reflexivity. Qed.

Lemma splitFrom_last sep a :
  GoStrings.ContainsChar a sep = false ->
  forall cur, GoStrings.splitFrom sep cur a = [(cur ++ a)%string].
Proof.
  induction a as [|c a IH]; intros H cur.
  - cbn [GoStrings.splitFrom]. rewrite append_empty_r. reflexivity.
  - cbn [GoStrings.ContainsChar] in H. apply orb_false_elim in H. destruct H as [Hc Ha].
    cbn [GoStrings.splitFrom]. rewrite Hc, IH by exact Ha.
    rewrite append_snoc. reflexivity.
Qed.

Lemma splitFrom_part sep a rest :
  GoStrings.ContainsChar a sep = false ->
  forall cur,
    GoStrings.splitFrom sep cur (a ++ String sep rest)%string =
    (cur ++ a)%string :: GoStrings.splitFrom sep "" rest.
Proof.
  induction a as [|c a IH]; intros H cur.
  - change ("" ++ String sep rest)%string with (String sep rest).
    cbn [GoStrings.splitFrom]. rewrite Ascii.eqb_refl, append_empty_r. reflexivity.
  - cbn [GoStrings.ContainsChar] in H. apply orb_false_elim in H. destruct H as [Hc Ha].
    rewrite append_cons. cbn [GoStrings.splitFrom]. rewrite Hc, IH by exact Ha.
    rewrite append_snoc. reflexivity.
Qed.

Lemma Split_three a b c :
  GoStrings.ContainsChar a "." = false ->
  GoStrings.ContainsChar b "." = false ->
  GoStrings.ContainsChar c "." = false ->
  GoStrings.Split (a ++ "." ++ b ++ "." ++ c)%string "." = [a; b; c].
Proof.
  intros Ha Hb Hc. unfold GoStrings.Split.
  change (a ++ "." ++ b ++ "." ++ c)%string
    with (a ++ String "." (b ++ String "." c))%string.
  rewrite splitFrom_part, splitFrom_part, splitFrom_last by assumption.
  reflexivity.
Qed.

Lemma string_of_uint_no_dot d :
  GoStrings.ContainsChar (NilEmpty.string_of_uint d) "." = false.
Proof. induction d; cbn; assumption || reflexivity. Qed.

Lemma Itoa_no_dot z : GoStrings.ContainsChar (GoStrconv.Itoa z) "." = false.
Proof.
  unfold GoStrconv.Itoa.
  destruct (Z.to_int z) as [d|d]; cbn; destruct d; cbn; try reflexivity;
    apply string_of_uint_no_dot.
Qed.

Lemma Atoi_unsigned d :
  d <> Nil ->
  GoStrconv.Atoi (NilZero.string_of_uint d) =
  if (GoStrconv.minInt <=? Z.of_uint d) && (Z.of_uint d <=? GoStrconv.maxInt)
  then Some (Z.of_uint d) else None.
Proof.
  intros Hd. pose proof (NilZero.usu d Hd) as Hu.
  unfold GoStrconv.Atoi.
  destruct d; try congruence; cbn [NilZero.string_of_uint NilEmpty.string_of_uint] in *;
    rewrite Hu; reflexivity.
Qed.

Lemma Atoi_Itoa z :
  GoStrconv.minInt <= z <= GoStrconv.maxInt ->
  GoStrconv.Atoi (GoStrconv.Itoa z) = Some z.
Proof.
  intros Hz. pose proof (DecimalZ.of_to z) as Hof.
  unfold GoStrconv.Itoa. destruct z as [|p|p]; [reflexivity| |].
  - cbn [Z.to_int NilZero.string_of_int] in *. cbn [Z.of_int] in Hof.
    rewrite Atoi_unsigned by apply DecimalPos.Unsigned.to_uint_nonnil.
    rewrite Hof.
    rewrite (proj2 (Z.leb_le _ _)), (proj2 (Z.leb_le _ _)) by lia. reflexivity.
  - cbn [Z.to_int NilZero.string_of_int] in *. cbn [Z.of_int] in Hof.
    unfold GoStrconv.Atoi.
    rewrite NilZero.usu by apply DecimalPos.Unsigned.to_uint_nonnil.
    rewrite Hof.
    rewrite (proj2 (Z.leb_le _ _)), (proj2 (Z.leb_le _ _)) by lia. reflexivity.
Qed.

Lemma Atoi_range s n : GoStrconv.Atoi s = Some n -> GoStrconv.minInt <= n <= GoStrconv.maxInt.
Proof.
  unfold GoStrconv.Atoi.
  destruct (match s with
            | String "+" r => (false, r)
            | String "-" r => (true, r)
            | _ => (false, s)
            end) as [neg digits].
  destruct (NilZero.uint_of_string digits) as [d|]; [|discriminate].
  destruct (_ && _) eqn:E; [|discriminate].
  intros H. injection H as <-. apply andb_prop in E. lia.
Qed.

(** *** BSON documents *)

Lemma M_get_delete_ne k k' m : k <> k' -> M_get k (M_delete k' m) = M_get k m.
Proof.
  intros Hne. induction m as [|[k0 v] m IH]; [reflexivity|].
  unfold M_delete in *. cbn [List.filter fst M_get].
  destruct (String.eqb k0 k') eqn:E; cbn [negb M_get].
  - apply String.eqb_eq in E. subst k0.
    destruct (String.eqb k' k) eqn:E'; [apply String.eqb_eq in E'; congruence|exact IH].
  - rewrite IH. reflexivity.
Qed.

Lemma M_get_set_eq k v m : M_get k (M_set k v m) = Some v.
Proof. cbn. rewrite String.eqb_refl. reflexivity. Qed.

Lemma M_get_set_ne k k' v m : k <> k' -> M_get k (M_set k' v m) = M_get k m.
Proof.
  intros Hne. cbn. destruct (String.eqb k' k) eqn:E.
  - apply String.eqb_eq in E. congruence.
  - apply M_get_delete_ne. exact Hne.
Qed.

Lemma mergeUpdates_version existing updates v merged :
  M_get "version" updates = Some (BString v) ->
  mergeUpdates existing updates = Some merged ->
  hc_Version merged = v.
Proof.
  intros Hv. unfold mergeUpdates.
  assert (Hf : field updates "version" asString (hc_Version existing) = Some v)
    by (unfold field; rewrite Hv; reflexivity).
  rewrite Hf.
  repeat match goal with
         | |- context [match field ?d ?k ?dec ?e with _ => _ end] =>
             destruct (field d k dec e)
         end; try discriminate.
  intros H. injection H as <-. reflexivity.
Qed.

(** C8, as amended. [bumpPatchVersion] maps [1.2.3] to [1.2.4]; on three
    dot-separated components whose patch component [strconv.Atoi] reads as a
    number below the largest [int] it keeps the major and minor components
    and gives the patch component that number plus one; every input that
    does not split into exactly three components gives [0.0.1]; and an
    [UpdateConfig] that succeeds leaves the bumped version in the stored
    config. *)
Theorem bumpPatchVersion_spec :
  bumpPatchVersion "1.2.3" = "1.2.4" /\
  (forall major minor patch n,
     GoStrings.ContainsChar major "." = false ->
     GoStrings.ContainsChar minor "." = false ->
     GoStrings.ContainsChar patch "." = false ->
     GoStrconv.Atoi patch = Some n ->
     n < GoStrconv.maxInt ->
     let v' := bumpPatchVersion (major ++ "." ++ minor ++ "." ++ patch)%string in
     v' = (major ++ "." ++ minor ++ "." ++ GoStrconv.Itoa (n + 1))%string /\
     exists patch', GoStrings.Split v' "." = [major; minor; patch'] /\
                    GoStrconv.Atoi patch' = Some (n + 1)) /\
  (forall v, length (GoStrings.Split v ".") <> 3%nat -> bumpPatchVersion v = "0.0.1") /\
  (forall ctx now id updates m m' existing,
     Collection m !! id = Some existing ->
     UpdateConfig ctx now id updates m = (None, m') ->
     exists stored, Collection m' !! id = Some stored /\
                    hc_Version stored = bumpPatchVersion (hc_Version existing)).
Proof.
  split; [vm_compute; reflexivity|]. split; [|split].
  - intros major minor patch n Hmajor Hminor Hpatch Hn Hlt. cbn zeta.
    pose proof (Atoi_range _ _ Hn) as Hrange.
    assert (Hw : GoStrconv.wrap (n + 1) = n + 1).
    { unfold GoStrconv.wrap, GoStrconv.minInt, GoStrconv.maxInt in *.
      rewrite Z.mod_small by lia. lia. }
    assert (Hb : bumpPatchVersion (major ++ "." ++ minor ++ "." ++ patch)%string
                 = (major ++ "." ++ minor ++ "." ++ GoStrconv.Itoa (n + 1))%string).
    { unfold bumpPatchVersion. rewrite Split_three by assumption.
      rewrite Hn, Hw. reflexivity. }
    rewrite Hb. split; [reflexivity|]. exists (GoStrconv.Itoa (n + 1)). split.
    + apply Split_three; try assumption. apply Itoa_no_dot.
    + apply Atoi_Itoa. unfold GoStrconv.minInt, GoStrconv.maxInt in *. lia.
  - intros v Hlen. unfold bumpPatchVersion.
    destruct (GoStrings.Split v ".") as [|a [|b [|c [|d l]]]]; try reflexivity.
    cbn in Hlen. congruence.
  - intros ctx now id updates m m' existing Hex. unfold UpdateConfig.
    destruct (getUserFromContext ctx) as [user|err]; [|discriminate].
    rewrite Hex. destruct (forbidden existing user); [discriminate|].
    match goal with
    | |- context [mergeUpdates existing ?u] =>
        assert (Hv : M_get "version" u
                     = Some (BString (bumpPatchVersion (hc_Version existing))))
    end.
    { rewrite !M_get_delete_ne by discriminate.
      rewrite M_get_set_ne by discriminate. apply M_get_set_eq. }
    match goal with
    | |- context [mergeUpdates existing ?u] =>
        destruct (mergeUpdates existing u) as [merged|] eqn:Hm; [|discriminate]
    end.
    destruct (hc_Validate (checkProgramExists m) merged); [discriminate|].
    intros H. injection H as <-. exists merged. split.
    + cbn. apply lookup_insert_eq.
    + eapply mergeUpdates_version; eassumption.
Qed.

(** *** Move *)

(** C3. When the aggregate holds the target node and the caller may change
    it, a move under a non-empty parent identity that matches no node left
    after the extraction returns the parent-not-found error and writes
    nothing: the store is the one before the call, whose config still holds
    the target node. *)
Theorem move_parent_not_found_writes_nothing
    (ctx : option UserSessionData) (user : UserSessionData) (now : Z)
    (configID progID parent : string) (m : Store) (cfg : HyprConfig) :
  getUserFromContext ctx = inl user ->
  Collection m !! configID = Some cfg ->
  forbidden cfg user = false ->
  In progID (ids (hc_ProgramConfigs cfg)) ->
  parent <> "" ->
  ~ In parent (ids (fst (extractProgramConfig progID (hc_ProgramConfigs cfg)))) ->
  MoveProgramConfig ctx now configID progID (Some parent) m =
    (Some (Errorf ("parent program config with ID " ++ parent ++ " not found")%string), m) /\
  exists stored,
    Collection (snd (MoveProgramConfig ctx now configID progID (Some parent) m)) !! configID
      = Some stored /\
    In progID (ids (hc_ProgramConfigs stored)).
Proof.
  intros Huser Hcfg Hallowed Htarget Hparent Habsent.
  assert (Hmove : MoveProgramConfig ctx now configID progID (Some parent) m =
    (Some (Errorf ("parent program config with ID " ++ parent ++ " not found")%string), m)).
  { unfold MoveProgramConfig. rewrite Huser, Hcfg, Hallowed.
    apply extractProgramConfig_found in Htarget. destruct Htarget as [removed Hrem].
    destruct (extractProgramConfig progID (hc_ProgramConfigs cfg)) as [programs r].
    cbn [fst snd] in *. subst r.
    apply String.eqb_neq in Hparent. cbn zeta. rewrite Hparent.
    rewrite insertIntoSubConfig_is_nested.
    destruct (insertIntoNested (set_UpdatedTimestamp removed now) parent programs)
      as [programs' ok] eqn:Hins.
    destruct ok; [|reflexivity].
    exfalso. apply Habsent.
    apply (insertIntoNested_found (set_UpdatedTimestamp removed now)).
    rewrite Hins. reflexivity. }
  split; [exact Hmove|]. rewrite Hmove. exists cfg. split; assumption.
Qed.

(** *** Search predicate *)

Lemma matches_cons regexMatch cfg key v rest :
  matches regexMatch cfg (BM ((key, v) :: rest)) =
  (if String.eqb key "$or"
   then match v with
        | BArray alternatives => existsb (matches regexMatch cfg) alternatives
        | _ => false
        end
   else if String.eqb key "$and"
   then match v with
        | BArray parts => forallb (matches regexMatch cfg) parts
        | _ => false
        end
   else evalField regexMatch cfg key v)
  && matches regexMatch cfg (BM rest).
Proof. reflexivity. Qed.

Lemma buildSearchFilter_shape filters user :
  exists andParts,
    buildSearchFilter filters user =
    if (0 <? length andParts)%nat
    then [("$and", BArray andParts); ("$or", visibility user)]
    else [("$or", visibility user)].
Proof. unfold buildSearchFilter. eexists. reflexivity. Qed.

Lemma visibility_hides regexMatch cfg user :
  hc_Private cfg = true ->
  match user with
  | Some u => UserID u <> hc_OwnerID cfg
  | None => True
  end ->
  matches regexMatch cfg (BM [("$or", visibility user)]) = false.
Proof.
  intros Hprivate Hother. rewrite matches_cons. cbn [String.eqb Ascii.eqb Bool.eqb].
  apply andb_false_intro1. unfold visibility. destruct user as [u|].
  - cbn [app existsb]. rewrite !matches_cons. unfold evalField.
    cbn. rewrite Hprivate. cbn.
    apply String.eqb_neq in Hother. rewrite Hother. reflexivity.
  - cbn [existsb]. rewrite matches_cons. unfold evalField.
    cbn. rewrite Hprivate. reflexivity.
Qed.

(** C7. Whatever the filter asks for, the predicate that
    [buildSearchFilter] builds rejects every private aggregate whose owner
    is not the caller, and every private aggregate when there is no
    caller. *)
Theorem search_never_selects_foreign_private
    (regexMatch : string -> string -> string -> bool)
    (filters : ConfigSearchFilters) (user : option UserSessionData) (cfg : HyprConfig) :
  hc_Private cfg = true ->
  match user with
  | Some u => UserID u <> hc_OwnerID cfg
  | None => True
  end ->
  matches regexMatch cfg (BM (buildSearchFilter filters user)) = false.
Proof.
  intros Hprivate Hother.
  destruct (buildSearchFilter_shape filters user) as [andParts ->].
  destruct (0 <? length andParts)%nat.
  - rewrite matches_cons, visibility_hides by assumption. apply andb_false_r.
  - apply visibility_hides; assumption.
Qed.

(** *** Handler *)

(** C9. When the privacy flag of the request body differs from the stored
    one, the field set the handler builds maps the key [private] to the
    title of the body, a string, and that field set is what the handler
    passes to the repository's [UpdateConfig]. *)
Theorem handler_writes_title_into_private
    (ctx : option UserSessionData) (now : Z) (configID : string)
    (updatesBody existing : HyprConfig) (m : Store) :
  configID <> "" ->
  GetConfig ctx configID m = inl existing ->
  hc_Private updatesBody <> hc_Private existing ->
  let updates := buildUpdates updatesBody existing in
  M_get "private" updates = Some (BString (hc_Title updatesBody)) /\
  Handler_UpdateConfig ctx now configID updatesBody m =
    match UpdateConfig ctx now configID updates m with
    | (Some err, m') => (WriteError 500 (Error err), m')
    | (None, m') => (WriteBody "updated", m')
    end.
Proof.
  intros Hid Hget Hdiff. cbn zeta.
  assert (Hprivate : M_get "private" (buildUpdates updatesBody existing)
                     = Some (BString (hc_Title updatesBody))).
  { unfold buildUpdates.
    assert (Hne : Bool.eqb (hc_Private updatesBody) (hc_Private existing) = false)
      by (apply Bool.eqb_false_iff; exact Hdiff).
    rewrite Hne. cbn [negb].
    destruct (_ && negb (StringSlicesEqual _ _)).
    - rewrite M_get_set_ne by discriminate. apply M_get_set_eq.
    - apply M_get_set_eq. }
  split; [exact Hprivate|].
  unfold Handler_UpdateConfig. apply String.eqb_neq in Hid. rewrite Hid, Hget.
  destruct (buildUpdates updatesBody existing); [discriminate|]. reflexivity.
Qed.

(** *** Favorites *)

Lemma findFavorite_In u c favs :
  (exists f, In f favs /\ isFavorite u c f = true) ->
  exists f, findFavorite u c favs = Some f.
Proof.
  induction favs as [|g favs IH]; intros [f [Hin Hf]]; [destruct Hin|].
  cbn [findFavorite]. destruct (isFavorite u c g) eqn:E; [eauto|].
  apply IH. destruct Hin as [->|Hin]; [congruence|eauto].
Qed.

Lemma favoriteCount_cons id f favs :
  favoriteCount id (f :: favs) =
  (if String.eqb (fav_ConfigID f) id then 1 else 0) + favoriteCount id favs.
Proof.
  unfold favoriteCount. cbn [List.filter].
  destruct (String.eqb (fav_ConfigID f) id); cbn [length]; lia.
Qed.

Lemma favoriteCount_snoc id f favs :
  favoriteCount id (favs ++ [f]) =
  favoriteCount id favs + (if String.eqb (fav_ConfigID f) id then 1 else 0).
Proof.
  induction favs as [|g favs IH].
  - cbn [app]. rewrite favoriteCount_cons. unfold favoriteCount. cbn. lia.
  - rewrite <- app_comm_cons, !favoriteCount_cons, IH. lia.
Qed.

Lemma isFavorite_config u c f : isFavorite u c f = true -> fav_ConfigID f = c.
Proof.
  unfold isFavorite. intros H. apply andb_prop in H. destruct H as [_ H].
  apply String.eqb_eq. exact H.
Qed.

Lemma deleteFavorite_spec u c favs :
  (snd (deleteFavorite u c favs) = 0 /\ fst (deleteFavorite u c favs) = favs) \/
  (snd (deleteFavorite u c favs) = 1 /\
   forall id, favoriteCount id (fst (deleteFavorite u c favs)) =
              favoriteCount id favs - (if String.eqb c id then 1 else 0)).
Proof.
  induction favs as [|f favs IH]; [left; split; reflexivity|].
  cbn [deleteFavorite]. destruct (isFavorite u c f) eqn:E.
  - right. split; [reflexivity|]. intros id. cbn [fst].
    rewrite favoriteCount_cons, (isFavorite_config _ _ _ E). lia.
  - destruct (deleteFavorite u c favs) as [rest n]. cbn [fst snd] in *.
    destruct IH as [[Hn Hrest]|[Hn Hcount]].
    + left. split; [exact Hn|]. rewrite Hrest. reflexivity.
    + right. split; [exact Hn|]. intros id. rewrite !favoriteCount_cons, Hcount. lia.
Qed.

Lemma deleteFavorite_absent u c favs :
  (forall f, In f favs -> isFavorite u c f = false) ->
  deleteFavorite u c favs = (favs, 0).
Proof.
  induction favs as [|f favs IH]; intros H; [reflexivity|].
  cbn [deleteFavorite]. rewrite (H f) by (left; reflexivity).
  rewrite IH by (intros g Hg; apply H; right; exact Hg). reflexivity.
Qed.

Lemma set_FavoritesCollection_same m : set_FavoritesCollection m (FavoritesCollection m) = m.
Proof. destruct m; reflexivity. Qed.

(** A change of one like counter by the change of the number of records
    that reference its config keeps the counters consistent. *)
Lemma incLikes_consistent m favs configID delta :
  likes_consistent m ->
  (forall id, favoriteCount id favs =
              favoriteCount id (FavoritesCollection m)
              + (if String.eqb configID id then delta else 0)) ->
  likes_consistent (incLikes (set_FavoritesCollection m favs) configID delta).
Proof.
  intros Hinv Hcount id cfg. cbn. rewrite lookup_alter, Hcount.
  destruct (decide (configID = id)) as [->|Hne].
  - rewrite String.eqb_refl.
    destruct (Collection m !! id) as [old|] eqn:Hold; [|discriminate].
    cbn. intros H. injection H as <-. cbn. rewrite (Hinv id old Hold). reflexivity.
  - apply String.eqb_neq in Hne. rewrite Hne, Z.add_0_r. apply Hinv.
Qed.

(** C10. [FavoriteConfig] and [UnfavoriteConfig] keep every like counter
    equal to the number of favorite records that reference its config.  A
    signed-in user who favorites a config they already favorited gets
    success and the store is unchanged (no record, no increment); one who
    unfavorites a config they did not favorite gets success and the store
    is unchanged (no decrement). *)
Theorem favorites_keep_like_counters
    (ctx : option UserSessionData) (now : Z) (configID : string) (m : Store) :
  (likes_consistent m ->
   likes_consistent (snd (FavoriteConfig ctx now configID m)) /\
   likes_consistent (snd (UnfavoriteConfig ctx configID m))) /\
  (forall user,
     getUserFromContext ctx = inl user ->
     (exists f, In f (FavoritesCollection m) /\ isFavorite (UserID user) configID f = true) ->
     FavoriteConfig ctx now configID m = (None, m)) /\
  (forall user,
     getUserFromContext ctx = inl user ->
     (forall f, In f (FavoritesCollection m) -> isFavorite (UserID user) configID f = false) ->
     UnfavoriteConfig ctx configID m = (None, m)).
Proof.
  split; [|split].
  - intros Hinv. split.
    + unfold FavoriteConfig. destruct (getUserFromContext ctx) as [user|err]; [|exact Hinv].
      unfold insertFavorite. cbn [fav_UserID fav_ConfigID].
      destruct (findFavorite (UserID user) configID (FavoritesCollection m)); [exact Hinv|].
      cbn [snd]. apply incLikes_consistent; [exact Hinv|].
      intros id. rewrite favoriteCount_snoc. reflexivity.
    + unfold UnfavoriteConfig. destruct (getUserFromContext ctx) as [user|err]; [|exact Hinv].
      destruct (deleteFavorite_spec (UserID user) configID (FavoritesCollection m))
        as [[Hn Hfavs]|[Hn Hcount]];
        destruct (deleteFavorite (UserID user) configID (FavoritesCollection m)) as [favs n];
        cbn [fst snd] in *; subst n; cbn [Z.eqb snd].
      * subst favs. rewrite set_FavoritesCollection_same. exact Hinv.
      * apply incLikes_consistent; [exact Hinv|].
        intros id. rewrite Hcount. destruct (String.eqb configID id); lia.
  - intros user Huser Hfav. unfold FavoriteConfig. rewrite Huser.
    destruct (findFavorite_In _ _ _ Hfav) as [f ->]. reflexivity.
  - intros user Huser Hnone. unfold UnfavoriteConfig. rewrite Huser.
    rewrite deleteFavorite_absent by exact Hnone. cbn [Z.eqb].
    rewrite set_FavoritesCollection_same. reflexivity.
Qed.

(** *** The theorems at concrete inputs *)

Lemma update_forces_immutable_fields_witness :
  exists old new,
    pc_ID old = "b" /\
    replaced old new example_tree
      (fst (updateProgramConfigRecursive "b" example_payload 7 example_tree)) /\
    pc_ID new = pc_ID old /\
    pc_CreatedTimestamp new = pc_CreatedTimestamp old /\
    pc_SubConfigs new = pc_SubConfigs old /\
    pc_UpdatedTimestamp new = 7 /\
    new = set_SubConfigs
            (set_UpdatedTimestamp
               (set_CreatedTimestamp (set_ID example_payload (pc_ID old))
                  (pc_CreatedTimestamp old)) 7)
            (pc_SubConfigs old).
Proof.
  apply (proj2 (proj2 (update_forces_immutable_fields example_tree "b" example_payload 7))).
  reflexivity.
Defined.

Lemma move_parent_not_found_witness :
  MoveProgramConfig (Some example_owner) 30 "c1" "b" (Some "c") (example_store false []) =
    (Some (Errorf "parent program config with ID c not found"), example_store false []) /\
  exists stored,
    Collection (snd (MoveProgramConfig (Some example_owner) 30 "c1" "b" (Some "c")
                       (example_store false []))) !! "c1" = Some stored /\
    In "b" (ids (hc_ProgramConfigs stored)).
Proof.
  apply (move_parent_not_found_writes_nothing (Some example_owner) example_owner 30
           "c1" "b" "c" (example_store false []) (example_config_doc false 0)).
  - reflexivity.
  - vm_compute. reflexivity.
  - reflexivity.
  - cbn. tauto.
  - discriminate.
  - vm_compute. intros [H|H]; [discriminate|exact H].
Defined.

Lemma insert_then_remove_witness :
  exists T', Insert example_tree (node "n" "rofi" []) (Some "b") = Some T' /\
             removeNestedProgramConfig "n" T' = example_tree.
Proof.
  apply (insert_then_remove example_tree (node "n" "rofi" []) (Some "b")).
  - reflexivity.
  - cbn. intros H. repeat (destruct H as [H|H]; [discriminate|]). exact H.
  - intros p Hp _. injection Hp as <-. cbn. tauto.
Defined.

Lemma search_never_selects_foreign_private_witness :
  matches (fun _ _ _ => true) (example_config_doc true 0)
    (BM (buildSearchFilter (mkConfigSearchFilters "" [] "" "" (Some true) None None)
           (Some example_visitor))) = false.
Proof.
  apply (search_never_selects_foreign_private (fun _ _ _ => true)
           (mkConfigSearchFilters "" [] "" "" (Some true) None None)
           (Some example_visitor) (example_config_doc true 0)).
  - reflexivity.
  - discriminate.
Defined.

Lemma bumpPatchVersion_spec_witness :
  (bumpPatchVersion "1.2.3" = "1.2.4" /\
   exists patch', GoStrings.Split (bumpPatchVersion "1.2.3") "." = ["1"; "2"; patch'] /\
                  GoStrconv.Atoi patch' = Some 4) /\
  bumpPatchVersion "1.2" = "0.0.1" /\
  exists stored,
    Collection (snd (UpdateConfig (Some example_owner) 30 "c1" [("title", BString "Desk two")]
                       (example_store false []))) !! "c1" = Some stored /\
    hc_Version stored = "1.2.4".
Proof.
  split; [|split].
  - apply (proj1 (proj2 bumpPatchVersion_spec) "1" "2" "3" 3); reflexivity.
  - apply (proj1 (proj2 (proj2 bumpPatchVersion_spec))). vm_compute. lia.
  - apply (proj2 (proj2 (proj2 bumpPatchVersion_spec)) (Some example_owner) 30 "c1"
             [("title", BString "Desk two")] (example_store false [])
             (snd (UpdateConfig (Some example_owner) 30 "c1" [("title", BString "Desk two")]
                     (example_store false [])))
             (example_config_doc false 0)).
    + vm_compute. reflexivity.
    + vm_compute. reflexivity.
Defined.

(** Against C8 as first stated: two versions of three components with a
    numeric patch component whose patch is not increased by one: at the largest [int] the increment wraps
    around, and a number that does not fit an [int] counts as zero. *)
Lemma bumpPatchVersion_overflow_counterexample :
  GoStrings.Split "1.2.9223372036854775807" "." = ["1"; "2"; "9223372036854775807"] /\
  GoStrconv.Atoi "9223372036854775807" = Some 9223372036854775807 /\
  bumpPatchVersion "1.2.9223372036854775807" = "1.2.-9223372036854775808" /\
  GoStrings.Split "1.2.99999999999999999999" "." = ["1"; "2"; "99999999999999999999"] /\
  bumpPatchVersion "1.2.99999999999999999999" = "1.2.1".
Proof. repeat split; vm_compute; reflexivity. Qed.

Lemma handler_writes_title_into_private_witness :
  M_get "private" (buildUpdates example_body (example_config_doc false 0))
    = Some (BString "Desk two") /\
  Handler_UpdateConfig (Some example_owner) 30 "c1" example_body (example_store false []) =
    match UpdateConfig (Some example_owner) 30 "c1"
            (buildUpdates example_body (example_config_doc false 0))
            (example_store false []) with
    | (Some err, m') => (WriteError 500 (Error err), m')
    | (None, m') => (WriteBody "updated", m')
    end.
Proof.
  apply (handler_writes_title_into_private (Some example_owner) 30 "c1" example_body
           (example_config_doc false 0) (example_store false [])).
  - discriminate.
  - vm_compute. reflexivity.
  - discriminate.
Defined.

Lemma example_store_consistent private favs :
  (forall f, In f favs -> fav_ConfigID f = "c1") ->
  likes_consistent (example_store private favs).
Proof.
  intros Hall id cfg H. cbn in H.
  apply lookup_singleton_Some in H. destruct H as [<- <-]. cbn.
  unfold favoriteCount. f_equal. f_equal.
  induction favs as [|f favs IH]; [reflexivity|].
  cbn [List.filter]. rewrite (Hall f) by (left; reflexivity). cbn.
  f_equal. apply IH. intros g Hg. apply Hall. right. exact Hg.
Qed.

Lemma favorites_keep_like_counters_witness :
  let m := example_store false [mkUserFavorite "u1" "c1" 25] in
  (likes_consistent (snd (FavoriteConfig (Some example_visitor) 30 "c1" m)) /\
   likes_consistent (snd (UnfavoriteConfig (Some example_owner) "c1" m))) /\
  FavoriteConfig (Some example_owner) 30 "c1" m = (None, m) /\
  UnfavoriteConfig (Some example_visitor) "c1" m = (None, m).
Proof.
  cbn zeta. split; [|split].
  - split.
    + apply (proj1 (favorites_keep_like_counters (Some example_visitor) 30 "c1"
                      (example_store false [mkUserFavorite "u1" "c1" 25]))).
      apply example_store_consistent. intros f [<-|[]]. reflexivity.
    + apply (proj1 (favorites_keep_like_counters (Some example_owner) 30 "c1"
                      (example_store false [mkUserFavorite "u1" "c1" 25]))).
      apply example_store_consistent. intros f [<-|[]]. reflexivity.
  - apply (proj1 (proj2 (favorites_keep_like_counters (Some example_owner) 30 "c1"
                           (example_store false [mkUserFavorite "u1" "c1" 25])))
             example_owner).
    + reflexivity.
    + exists (mkUserFavorite "u1" "c1" 25). split; [left; reflexivity|reflexivity].
  - apply (proj2 (proj2 (favorites_keep_like_counters (Some example_visitor) 30 "c1"
                           (example_store false [mkUserFavorite "u1" "c1" 25])))
             example_visitor).
    + reflexivity.
    + intros f [<-|[]]. reflexivity.
Defined.

(** * Further properties *)

(** *** Extraction and move *)

Lemma nodes_cons x r : nodes (x :: r) = x :: nodes (pc_SubConfigs x) ++ nodes r.
Proof. destruct x; reflexivity. Qed.

Lemma extractNested_loop_acc p l :
  forall acc,
    extractNested_loop p acc l =
    (acc ++ fst (extractNested_loop p [] l), snd (extractNested_loop p [] l)).
Proof.
  induction l as [|y rest IHsub IHr] using forest_ind; intros acc.
  - cbn. rewrite app_nil_r. reflexivity.
  - rewrite !extractNested_loop_cons.
    destruct (String.eqb (pc_ID y) p); [cbn; rewrite app_nil_r; reflexivity|].
    destruct (extractProgramConfigNested p (pc_SubConfigs y)) as [sub [r|]];
      [reflexivity|].
    rewrite (IHr (acc ++ [y])), (IHr ([] ++ [y])). cbn [fst snd app].
    rewrite <- app_assoc. reflexivity.
Qed.

(** The extraction as a function of the list alone. *)
Lemma extractProgramConfig_cons p y rest :
  extractProgramConfig p (y :: rest) =
  if String.eqb (pc_ID y) p then ([], Some y)
  else match extractProgramConfig p (pc_SubConfigs y) with
       | (subNew, Some removed) => ([set_SubConfigs y subNew], Some removed)
       | (_, None) =>
           (y :: fst (extractProgramConfig p rest), snd (extractProgramConfig p rest))
       end.
Proof.
  unfold extractProgramConfig. rewrite !extract_loop_is_nested.
  rewrite extractNested_loop_cons. unfold extractProgramConfigNested.
  destruct (String.eqb (pc_ID y) p); [reflexivity|].
  destruct (extractNested_loop p [] (pc_SubConfigs y)) as [sub [r|]]; [reflexivity|].
  rewrite extractNested_loop_acc. reflexivity.
Qed.

Lemma extractProgramConfig_none p l :
  snd (extractProgramConfig p l) = None -> ~ In p (ids l) /\ fst (extractProgramConfig p l) = l.
Proof.
  induction l as [|y rest IHsub IHr] using forest_ind; [intros _; split; [intros []|reflexivity]|].
  rewrite extractProgramConfig_cons, ids_cons.
  destruct (String.eqb (pc_ID y) p) eqn:E; [discriminate|].
  apply String.eqb_neq in E.
  destruct (extractProgramConfig p (pc_SubConfigs y)) as [sub [r|]]; [discriminate|].
  cbn [fst snd] in *. intros H. destruct (IHr H) as [Hr ->]. destruct (IHsub eq_refl) as [Hs _].
  split; [|reflexivity].
  intros [Hin|Hin]; [congruence|]. apply in_app_or in Hin. tauto.
Qed.

Lemma extractProgramConfig_rest p l : ~ In p (ids (fst (extractProgramConfig p l))).
Proof.
  induction l as [|y rest IHsub IHr] using forest_ind; [intros []|].
  rewrite extractProgramConfig_cons.
  destruct (String.eqb (pc_ID y) p) eqn:E; [intros []|].
  apply String.eqb_neq in E.
  pose proof (extractProgramConfig_none p (pc_SubConfigs y)) as Hnone.
  destruct (extractProgramConfig p (pc_SubConfigs y)) as [sub [r|]]; cbn [fst snd] in *.
  - rewrite ids_cons. autorewrite with pc. cbn [ids flat_map]. rewrite app_nil_r.
    intros [H|H]; [congruence|]. exact (IHsub H).
  - destruct (Hnone eq_refl) as [Hs _]. rewrite ids_cons.
    intros [H|H]; [congruence|]. apply in_app_or in H. tauto.
Qed.

Lemma extractProgramConfig_some p l r :
  snd (extractProgramConfig p l) = Some r -> pc_ID r = p /\ In r (nodes l).
Proof.
  induction l as [|y rest IHsub IHr] using forest_ind; [discriminate|].
  rewrite extractProgramConfig_cons, nodes_cons.
  destruct (String.eqb (pc_ID y) p) eqn:E.
  - cbn [snd]. intros H. injection H as <-. apply String.eqb_eq in E.
    split; [exact E|left; reflexivity].
  - destruct (extractProgramConfig p (pc_SubConfigs y)) as [sub [r'|]]; cbn [fst snd] in *.
    + intros H. destruct (IHsub H) as [Hid Hin]. split; [exact Hid|].
      right. apply in_or_app. left. exact Hin.
    + intros H. destruct (IHr H) as [Hid Hin]. split; [exact Hid|].
      right. apply in_or_app. right. exact Hin.
Qed.

(** X1. What [extractProgramConfig] returns: the remaining tree never holds
    the target identity; without a match the tree comes back unchanged;
    with a match the detached node has the target identity and is a node of
    the input, with its subtree as it was. *)
Theorem extractProgramConfig_result (progID : string) (lst : list HyprProgramConfig) :
  ~ In progID (ids (fst (extractProgramConfig progID lst))) /\
  match snd (extractProgramConfig progID lst) with
  | None => ~ In progID (ids lst) /\ fst (extractProgramConfig progID lst) = lst
  | Some removed => pc_ID removed = progID /\ In removed (nodes lst)
  end.
Proof.
  split; [apply extractProgramConfig_rest|].
  destruct (snd (extractProgramConfig progID lst)) as [r|] eqn:E.
  - apply extractProgramConfig_some. exact E.
  - apply extractProgramConfig_none. exact E.
Qed.

Lemma extractProgramConfig_prefix p before :
  ~ In p (ids before) ->
  forall l, extractProgramConfig p (before ++ l) =
            (before ++ fst (extractProgramConfig p l), snd (extractProgramConfig p l)).
Proof.
  induction before as [|y before IH]; intros Hb l.
  - cbn [app]. destruct (extractProgramConfig p l). reflexivity.
  - rewrite ids_cons in Hb. rewrite <- app_comm_cons, extractProgramConfig_cons.
    destruct (String.eqb (pc_ID y) p) eqn:E.
    { apply String.eqb_eq in E. exfalso. apply Hb. left. exact E. }
    assert (Hs : snd (extractProgramConfig p (pc_SubConfigs y)) = None).
    { destruct (snd (extractProgramConfig p (pc_SubConfigs y))) as [r|] eqn:E'; [|reflexivity].
      exfalso. apply Hb. right. apply in_or_app. left.
      apply extractProgramConfig_found. exists r. exact E'. }
    destruct (extractProgramConfig p (pc_SubConfigs y)) as [sub o]. cbn [snd] in Hs. subst o.
    rewrite IH by (intros H; apply Hb; right; apply in_or_app; tauto). reflexivity.
Qed.

(** X2. A move to the top level keeps only the top-level nodes in front of
    the target: when the target is a top-level node, [MoveProgramConfig]
    with no parent succeeds and stores the nodes before the target followed
    by the target, so every top-level node after the target is gone from
    the stored tree. *)
Theorem move_to_top_level_drops_later_siblings
    (ctx : option UserSessionData) (user : UserSessionData) (now : Z)
    (configID progID : string) (m : Store) (cfg : HyprConfig)
    (before after : list HyprProgramConfig) (item : HyprProgramConfig) :
  getUserFromContext ctx = inl user ->
  Collection m !! configID = Some cfg ->
  forbidden cfg user = false ->
  hc_ProgramConfigs cfg = before ++ item :: after ->
  pc_ID item = progID ->
  ~ In progID (ids before) ->
  fst (MoveProgramConfig ctx now configID progID None m) = None /\
  hc_ProgramConfigs <$> Collection (snd (MoveProgramConfig ctx now configID progID None m))
                          !! configID
    = Some (before ++ [set_UpdatedTimestamp item now]).
Proof.
  intros Huser Hcfg Hallowed Htree Hid Hbefore.
  unfold MoveProgramConfig. rewrite Huser, Hcfg, Hallowed, Htree.
  rewrite extractProgramConfig_prefix by exact Hbefore.
  rewrite extractProgramConfig_cons.
  apply String.eqb_eq in Hid. rewrite Hid. cbn [fst snd]. rewrite app_nil_r.
  split; [reflexivity|].
  unfold writeProgramConfigs. cbn [Collection set_Collection].
  rewrite lookup_alter_eq, Hcfg. reflexivity.
Qed.

Lemma move_to_top_level_drops_later_siblings_witness :
  fst (MoveProgramConfig (Some example_owner) 30 "c1" "a" None (example_store false [])) = None /\
  hc_ProgramConfigs <$>
    Collection (snd (MoveProgramConfig (Some example_owner) 30 "c1" "a" None
                       (example_store false []))) !! "c1"
    = Some ([] ++ [set_UpdatedTimestamp
                     (node "a" "kitty" [node "b" "wofi" [node "c" "waybar" []]]) 30]).
Proof.
  apply (move_to_top_level_drops_later_siblings (Some example_owner) example_owner 30
           "c1" "a" (example_store false []) (example_config_doc false 0)
           [] [node "d" "foot" []]
           (node "a" "kitty" [node "b" "wofi" [node "c" "waybar" []]])).
  - reflexivity.
  - vm_compute. reflexivity.
  - reflexivity.
  - reflexivity.
  - reflexivity.
  - intros [].
Defined.

(** *** Insertion, removal and update as operations on the tree *)

Lemma insertIntoNested_replaced n p l :
  snd (insertIntoNested n p l) = true ->
  exists parent, pc_ID parent = p /\
    replaced parent (set_SubConfigs parent (pc_SubConfigs parent ++ [n])) l
      (fst (insertIntoNested n p l)).
Proof.
  induction l as [|y rest IHsub IHr] using forest_ind; [discriminate|].
  rewrite insertIntoNested_cons.
  destruct (String.eqb (pc_ID y) p) eqn:E.
  - intros _. exists y. apply String.eqb_eq in E. split; [exact E|]. constructor.
  - destruct (insertIntoNested n p (pc_SubConfigs y)) as [sub [|]]; cbn [fst snd] in *.
    + intros _. destruct (IHsub eq_refl) as [parent [Hid Hrep]].
      exists parent. split; [exact Hid|]. apply replaced_below. exact Hrep.
    + destruct (insertIntoNested n p rest) as [rest' ok]. cbn [fst snd] in *.
      intros H. destruct (IHr H) as [parent [Hid Hrep]].
      exists parent. split; [exact Hid|]. apply replaced_later. exact Hrep.
Qed.

(** X3. [insertIntoSubConfig] reports success exactly when the parent
    identity occurs in the tree; on failure the tree is unchanged; on
    success one node of that identity gets the new node as its last child
    and every other node, and the order of all children, stays as it was. *)
Theorem insertIntoSubConfig_appends_last_child
    (lst : list HyprProgramConfig) (newProg : HyprProgramConfig) (parentID : string) :
  let result := insertIntoSubConfig newProg parentID lst in
  (snd result = true <-> In parentID (ids lst)) /\
  (snd result = false -> fst result = lst) /\
  (snd result = true ->
   exists parent,
     pc_ID parent = parentID /\
     replaced parent (set_SubConfigs parent (pc_SubConfigs parent ++ [newProg]))
       lst (fst result)).
Proof.
  cbn zeta. rewrite insertIntoSubConfig_is_nested.
  split; [apply insertIntoNested_found|].
  split; [apply insertIntoNested_missed|apply insertIntoNested_replaced].
Qed.

Lemma filterSubConfigs_commute a b l :
  filterSubConfigs a (filterSubConfigs b l) = filterSubConfigs b (filterSubConfigs a l).
Proof.
  induction l as [|x r IHsub IHr] using forest_ind; [reflexivity|].
  rewrite (filterSubConfigs_cons b), (filterSubConfigs_cons a).
  destruct (String.eqb (pc_ID x) b) eqn:Eb; destruct (String.eqb (pc_ID x) a) eqn:Ea;
    rewrite ?filterSubConfigs_cons; autorewrite with pc; rewrite ?Ea, ?Eb;
    autorewrite with pc; rewrite ?IHr, ?IHsub; reflexivity.
Qed.

(** X4. Removals compose: removing an identity a second time changes
    nothing, and two removals give the same tree in either order. *)
Theorem removeNested_idempotent_and_commutes (a b : string) (lst : list HyprProgramConfig) :
  removeNestedProgramConfig a (removeNestedProgramConfig a lst)
    = removeNestedProgramConfig a lst /\
  removeNestedProgramConfig a (removeNestedProgramConfig b lst)
    = removeNestedProgramConfig b (removeNestedProgramConfig a lst).
Proof.
  rewrite !removeNested_is_filter. split.
  - apply filterSubConfigs_absent, ids_filterSubConfigs.
  - apply filterSubConfigs_commute.
Qed.

Lemma updateSubConfigRecursive_ids p u now l :
  ids (fst (updateSubConfigRecursive p u now l)) = ids l.
Proof.
  induction l as [|y rest IHsub IHr] using forest_ind; [reflexivity|].
  rewrite updateSubConfigRecursive_cons.
  destruct (String.eqb (pc_ID y) p) eqn:E.
  - apply String.eqb_eq in E. cbn [fst]. rewrite !ids_cons. cbn. rewrite E. reflexivity.
  - destruct (updateSubConfigRecursive p u now (pc_SubConfigs y)) as [sub [|]];
      cbn [fst] in *.
    + rewrite !ids_cons. autorewrite with pc. rewrite IHsub. reflexivity.
    + destruct (updateSubConfigRecursive p u now rest) as [rest' done]. cbn [fst] in *.
      rewrite !ids_cons. autorewrite with pc. rewrite IHsub, IHr. reflexivity.
Qed.

Lemma updateSubConfigRecursive_flag p u u' now now' l :
  snd (updateSubConfigRecursive p u now l) = snd (updateSubConfigRecursive p u' now' l).
Proof.
  pose proof (updateSubConfigRecursive_found p u now l) as H1.
  pose proof (updateSubConfigRecursive_found p u' now' l) as H2.
  destruct (snd (updateSubConfigRecursive p u now l));
    destruct (snd (updateSubConfigRecursive p u' now' l)); try reflexivity.
  - symmetry. apply H2, H1. reflexivity.
  - apply H1, H2. reflexivity.
Qed.

Lemma updateSubConfigRecursive_twice p u1 n1 u2 n2 l :
  updateSubConfigRecursive p u2 n2 (fst (updateSubConfigRecursive p u1 n1 l))
  = updateSubConfigRecursive p u2 n2 l.
Proof.
  induction l as [|y rest IHsub IHr] using forest_ind; [reflexivity|].
  rewrite (updateSubConfigRecursive_cons p u1).
  destruct (String.eqb (pc_ID y) p) eqn:E.
  - cbn [fst]. rewrite !updateSubConfigRecursive_cons, E.
    assert (Hid : pc_ID (replacement_top p u1 n1 y) = p) by reflexivity.
    apply String.eqb_eq in Hid. rewrite Hid. reflexivity.
  - pose proof (updateSubConfigRecursive_flag p u1 u2 n1 n2 (pc_SubConfigs y)) as Hflag.
    pose proof (updateSubConfigRecursive_missed p u1 n1 (pc_SubConfigs y)) as Hmiss.
    destruct (updateSubConfigRecursive p u1 n1 (pc_SubConfigs y)) as [sub1 d1];
      cbn [fst snd] in *.
    destruct d1.
    + cbn [fst]. rewrite !updateSubConfigRecursive_cons. autorewrite with pc.
      rewrite E, IHsub.
      destruct (updateSubConfigRecursive p u2 n2 (pc_SubConfigs y)) as [sub2 d2].
      cbn [snd] in Hflag. subst d2. autorewrite with pc. reflexivity.
    + rewrite Hmiss by reflexivity.
      destruct (updateSubConfigRecursive p u1 n1 rest) as [rest1 dr] eqn:Er.
      cbn [fst snd] in *. autorewrite with pc.
      rewrite !updateSubConfigRecursive_cons, E.
      destruct (updateSubConfigRecursive p u2 n2 (pc_SubConfigs y)) as [sub2 d2].
      cbn [snd] in Hflag. subst d2. rewrite IHr. reflexivity.
Qed.

(** X5. An update keeps the identities of the tree, in their order, and a
    second update of the same identity overrides the first: updating with
    one payload and then with another gives what the second update alone
    gives. *)
Theorem update_keeps_ids_and_last_update_wins
    (progID : string) (u1 u2 : HyprProgramConfig) (now1 now2 : Z)
    (lst : list HyprProgramConfig) :
  ids (fst (updateProgramConfigRecursive progID u1 now1 lst)) = ids lst /\
  updateProgramConfigRecursive progID u2 now2
    (fst (updateProgramConfigRecursive progID u1 now1 lst))
  = updateProgramConfigRecursive progID u2 now2 lst.
Proof.
  rewrite !updateProgramConfigRecursive_is_nested. split.
  - apply updateSubConfigRecursive_ids.
  - apply updateSubConfigRecursive_twice.
Qed.

(** *** Tree mutations through the repository *)

Lemma forbidden_same_owner cfg cfg' user :
  hc_OwnerID cfg' = hc_OwnerID cfg -> forbidden cfg' user = forbidden cfg user.
Proof. unfold forbidden. intros ->. reflexivity. Qed.

Lemma top_ids_in_ids x l : In x (map pc_ID l) -> In x (ids l).
Proof.
  induction l as [|y l IH]; [intros []|].
  rewrite ids_cons. cbn [map]. intros [H|H]; [left; exact H|].
  right. apply in_or_app. right. apply IH. exact H.
Qed.

Lemma existsb_top_false p l :
  ~ In p (map pc_ID l) -> existsb (fun pc => String.eqb (pc_ID pc) p) l = false.
Proof.
  induction l as [|y l IH]; [reflexivity|]. cbn [map existsb]. intros H.
  destruct (String.eqb (pc_ID y) p) eqn:E.
  - apply String.eqb_eq in E. exfalso. apply H. left. exact E.
  - apply IH. intros Hin. apply H. right. exact Hin.
Qed.

Lemma filter_top_absent p l :
  ~ In p (map pc_ID l) ->
  List.filter (fun pc => negb (String.eqb (pc_ID pc) p)) l = l.
Proof.
  induction l as [|y l IH]; [reflexivity|]. cbn [map List.filter]. intros H.
  destruct (String.eqb (pc_ID y) p) eqn:E.
  - apply String.eqb_eq in E. exfalso. apply H. left. exact E.
  - cbn [negb]. rewrite IH; [reflexivity|]. intros Hin. apply H. right. exact Hin.
Qed.

Lemma insertIntoNested_top_ids n p l :
  map pc_ID (fst (insertIntoNested n p l)) = map pc_ID l.
Proof.
  induction l as [|y rest IH]; [reflexivity|].
  rewrite insertIntoNested_cons.
  destruct (String.eqb (pc_ID y) p); [reflexivity|].
  destruct (insertIntoNested n p (pc_SubConfigs y)) as [sub [|]]; [reflexivity|].
  destruct (insertIntoNested n p rest) as [rest' ok]. cbn [fst map] in *.
  rewrite IH. reflexivity.
Qed.

(** X6. Adding a node and removing it again restores the stored tree: for
    a caller who may change the config, a new node whose identity (the
    generated one when it comes without) does not occur in the tree, and a
    parent that is absent, empty or present in the tree, [AddProgramConfig]
    succeeds, [RemoveProgramConfig] of the new identity succeeds on its
    result, and the config then stores the tree it had before. *)
Theorem add_then_remove_program_config
    (ctx : option UserSessionData) (user : UserSessionData) (uuid : string) (now now' : Z)
    (configID : string) (newProg : HyprProgramConfig) (parentID : option string)
    (m : Store) (cfg : HyprConfig) :
  getUserFromContext ctx = inl user ->
  Collection m !! configID = Some cfg ->
  forbidden cfg user = false ->
  let newID := if String.eqb (pc_ID newProg) "" then uuid else pc_ID newProg in
  ~ In newID (ids (hc_ProgramConfigs cfg)) ->
  (forall p, parentID = Some p -> p <> "" -> In p (ids (hc_ProgramConfigs cfg))) ->
  let added := AddProgramConfig ctx uuid now configID newProg parentID m in
  let removed := RemoveProgramConfig ctx now' configID newID (snd added) in
  fst added = None /\
  fst removed = None /\
  hc_ProgramConfigs <$> Collection (snd removed) !! configID = Some (hc_ProgramConfigs cfg).
Proof.
  intros Huser Hcfg Hallowed newID Hfresh Hparent. cbn zeta.
  set (N := set_UpdatedTimestamp
              (set_CreatedTimestamp
                 (if String.eqb (pc_ID newProg) "" then set_ID newProg uuid else newProg)
                 now) now).
  assert (HN : pc_ID N = newID).
  { unfold N, newID. destruct (String.eqb (pc_ID newProg) ""); reflexivity. }
  assert (Hadd : exists T',
             AddProgramConfig ctx uuid now configID newProg parentID m
             = (None, writeProgramConfigs m configID T' now) /\
             ((T' = hc_ProgramConfigs cfg ++ [N]) \/
              (map pc_ID T' = map pc_ID (hc_ProgramConfigs cfg) /\
               filterSubConfigs newID T' = hc_ProgramConfigs cfg))).
  { unfold AddProgramConfig. rewrite Huser, Hcfg, Hallowed. fold N.
    destruct parentID as [p|]; [|eexists; split; [reflexivity|left; reflexivity]].
    destruct (String.eqb p "") eqn:E; [eexists; split; [reflexivity|left; reflexivity]|].
    apply String.eqb_neq in E. specialize (Hparent p eq_refl E).
    rewrite insertIntoSubConfig_is_nested.
    apply (insertIntoNested_found N) in Hparent.
    pose proof (insertIntoNested_top_ids N p (hc_ProgramConfigs cfg)) as Htop.
    pose proof (insertIntoNested_remove N p (hc_ProgramConfigs cfg)) as Hrt.
    rewrite HN in Hrt. specialize (Hrt Hfresh).
    destruct (insertIntoNested N p (hc_ProgramConfigs cfg)) as [T' ok].
    cbn [fst snd] in *. subst ok. exists T'. split; [reflexivity|]. right. split; assumption. }
  destruct Hadd as [T' [-> HT']]. cbn [fst snd]. split; [reflexivity|].
  unfold RemoveProgramConfig, pullProgramConfig, writeProgramConfigs.
  rewrite Huser. cbn [Collection set_Collection].
  rewrite lookup_alter_eq, Hcfg. cbn [fmap option_fmap option_map].
  rewrite (forbidden_same_owner cfg) by reflexivity. rewrite Hallowed.
  cbn [hc_ProgramConfigs set_hc_UpdatedTimestamp set_hc_ProgramConfigs].
  assert (Htopfresh : ~ In newID (map pc_ID (hc_ProgramConfigs cfg)))
    by (intros H; apply Hfresh, top_ids_in_ids, H).
  destruct HT' as [->|[Htop Hrt]].
  - rewrite existsb_app. cbn [existsb]. apply String.eqb_eq in HN. rewrite HN.
    cbn [orb]. rewrite orb_true_r. cbn [Z.ltb Z.compare fst snd Collection set_Collection].
    split; [reflexivity|].
    rewrite lookup_alter_eq, lookup_insert_eq. cbn.
    rewrite List.filter_app. cbn [List.filter]. rewrite HN. cbn [negb].
    rewrite filter_top_absent, app_nil_r by exact Htopfresh. reflexivity.
  - rewrite existsb_top_false by (rewrite Htop; exact Htopfresh).
    cbn [Z.ltb Z.compare fst snd Collection set_Collection].
    split; [reflexivity|].
    rewrite lookup_alter_eq, lookup_alter_eq, Hcfg. cbn.
    rewrite removeNested_is_filter, Hrt. reflexivity.
Qed.

Lemma add_then_remove_program_config_witness :
  let added := AddProgramConfig (Some example_owner) "fresh-1" 30 "c1"
                 (node "" "rofi" []) (Some "b") (example_store false []) in
  let removed := RemoveProgramConfig (Some example_owner) 31 "c1" "fresh-1" (snd added) in
  fst added = None /\
  fst removed = None /\
  hc_ProgramConfigs <$> Collection (snd removed) !! "c1" = Some example_tree.
Proof.
  apply (add_then_remove_program_config (Some example_owner) example_owner "fresh-1" 30 31
           "c1" (node "" "rofi" []) (Some "b") (example_store false [])
           (example_config_doc false 0)).
  - reflexivity.
  - vm_compute. reflexivity.
  - reflexivity.
  - cbn. intros H. repeat (destruct H as [H|H]; [discriminate|]). exact H.
  - intros p Hp _. injection Hp as <-. cbn. tauto.
Defined.

Lemma sub_ids_in_ids y l : In y l -> incl (ids (pc_SubConfigs y)) (ids l).
Proof.
  induction l as [|x l IH]; [intros []|]. rewrite ids_cons.
  intros [->|H] p Hp; right; apply in_or_app; [left; exact Hp|right; exact (IH H p Hp)].
Qed.

Lemma filterSubConfigs_top p l :
  (forall y, In y l -> ~ In p (ids (pc_SubConfigs y))) ->
  filterSubConfigs p l = List.filter (fun pc => negb (String.eqb (pc_ID pc) p)) l.
Proof.
  induction l as [|x l IH]; [reflexivity|]. intros H.
  rewrite filterSubConfigs_cons. cbn [List.filter].
  rewrite IH by (intros y Hy; apply H; right; exact Hy).
  destruct (String.eqb (pc_ID x) p); [reflexivity|]. cbn [negb].
  rewrite filterSubConfigs_absent by (apply H; left; reflexivity).
  autorewrite with pc. reflexivity.
Qed.

Lemma unique_top_not_nested p l :
  NoDup (ids l) -> In p (map pc_ID l) ->
  forall y, In y l -> ~ In p (ids (pc_SubConfigs y)).
Proof.
  induction l as [|x l IH]; [intros _ []|].
  rewrite ids_cons. cbn [map]. intros Hnd Htop y Hy Hsub.
  apply NoDup_cons in Hnd. destruct Hnd as [Hx Hnd].
  apply NoDup_app in Hnd. destruct Hnd as [Hs [Hdisj Hl]].
  rewrite list_elem_of_In in Hx.
  destruct Htop as [<-|Htop].
  - apply Hx. apply in_or_app. destruct Hy as [->|Hy]; [left; exact Hsub|].
    right. exact (sub_ids_in_ids y l Hy _ Hsub).
  - destruct Hy as [->|Hy].
    + apply (Hdisj p); rewrite list_elem_of_In; [exact Hsub|].
      apply top_ids_in_ids. exact Htop.
    + exact (IH Hl Htop y Hy Hsub).
Qed.

Lemma existsb_top_true p l :
  existsb (fun pc => String.eqb (pc_ID pc) p) l = true -> In p (map pc_ID l).
Proof.
  induction l as [|y l IH]; [discriminate|]. cbn [existsb map].
  destruct (String.eqb (pc_ID y) p) eqn:E.
  - intros _. left. apply String.eqb_eq. exact E.
  - intros H. right. apply IH. exact H.
Qed.

(** X7. [RemoveProgramConfig] by a caller who may change the config always
    reports success.  When the identity does not occur, the stored tree
    stays as it is (no not-found error is raised); when the identities of
    the tree are pairwise distinct, the stored tree becomes the result of
    the nested removal and no longer holds the identity. *)
Theorem remove_program_config_effect
    (ctx : option UserSessionData) (user : UserSessionData) (now : Z)
    (configID progID : string) (m : Store) (cfg : HyprConfig) :
  getUserFromContext ctx = inl user ->
  Collection m !! configID = Some cfg ->
  forbidden cfg user = false ->
  let result := RemoveProgramConfig ctx now configID progID m in
  let stored := hc_ProgramConfigs <$> Collection (snd result) !! configID in
  fst result = None /\
  (~ In progID (ids (hc_ProgramConfigs cfg)) -> stored = Some (hc_ProgramConfigs cfg)) /\
  (NoDup (ids (hc_ProgramConfigs cfg)) ->
   stored = Some (removeNestedProgramConfig progID (hc_ProgramConfigs cfg)) /\
   forall tree, stored = Some tree -> ~ In progID (ids tree)).
Proof.
  intros Huser Hcfg Hallowed. cbn zeta.
  assert (Hgen :
    fst (RemoveProgramConfig ctx now configID progID m) = None /\
    hc_ProgramConfigs <$> Collection (snd (RemoveProgramConfig ctx now configID progID m))
                            !! configID
    = Some (if existsb (fun pc => String.eqb (pc_ID pc) progID) (hc_ProgramConfigs cfg)
            then List.filter (fun pc => negb (String.eqb (pc_ID pc) progID))
                   (hc_ProgramConfigs cfg)
            else removeNestedProgramConfig progID (hc_ProgramConfigs cfg))).
  { unfold RemoveProgramConfig, pullProgramConfig, writeProgramConfigs.
    rewrite Huser, Hcfg, Hallowed.
    destruct (existsb _ (hc_ProgramConfigs cfg));
      cbn [Z.ltb Z.compare fst snd Collection set_Collection]; (split; [reflexivity|]).
    - rewrite lookup_alter_eq, lookup_insert_eq. reflexivity.
    - rewrite lookup_alter_eq, Hcfg. reflexivity. }
  destruct Hgen as [Hnil Hstored]. split; [exact Hnil|]. rewrite Hstored. split.
  - intros Habsent.
    rewrite existsb_top_false by (intros H; apply Habsent, top_ids_in_ids, H).
    rewrite removeNested_is_filter, filterSubConfigs_absent by exact Habsent. reflexivity.
  - intros Hnd.
    assert (Heq : (if existsb (fun pc => String.eqb (pc_ID pc) progID) (hc_ProgramConfigs cfg)
                   then List.filter (fun pc => negb (String.eqb (pc_ID pc) progID))
                          (hc_ProgramConfigs cfg)
                   else removeNestedProgramConfig progID (hc_ProgramConfigs cfg))
                  = removeNestedProgramConfig progID (hc_ProgramConfigs cfg)).
    { destruct (existsb _ (hc_ProgramConfigs cfg)) eqn:E; [|reflexivity].
      rewrite removeNested_is_filter. symmetry. apply filterSubConfigs_top.
      apply unique_top_not_nested; [exact Hnd|]. apply existsb_top_true. exact E. }
    rewrite Heq. split; [reflexivity|].
    intros tree H. injection H as <-. rewrite removeNested_is_filter.
    apply ids_filterSubConfigs.
Qed.

Lemma remove_program_config_effect_witness :
  let result := RemoveProgramConfig (Some example_owner) 30 "c1" "b" (example_store false []) in
  let stored := hc_ProgramConfigs <$> Collection (snd result) !! "c1" in
  fst result = None /\
  (~ In "b" (ids example_tree) -> stored = Some example_tree) /\
  (NoDup (ids example_tree) ->
   stored = Some (removeNestedProgramConfig "b" example_tree) /\
   forall tree, stored = Some tree -> ~ In "b" (ids tree)).
Proof.
  apply (remove_program_config_effect (Some example_owner) example_owner 30 "c1" "b"
           (example_store false []) (example_config_doc false 0)).
  - reflexivity.
  - vm_compute. reflexivity.
  - reflexivity.
Defined.

(** *** What the tree mutations leave alone *)

Lemma same_meta_refl m : same_meta m m.
Proof. repeat split. Qed.

Lemma same_meta_trans m1 m2 m3 : same_meta m1 m2 -> same_meta m2 m3 -> same_meta m1 m3.
Proof.
  intros (F1 & S1 & P1 & C1) (F2 & S2 & P2 & C2).
  unfold same_meta. repeat split; try congruence.
Qed.

Lemma same_meta_alter m f k :
  (forall c, meta (f c) = meta c) ->
  same_meta m (set_Collection m (alter f k (Collection m))).
Proof.
  intros Hf. repeat split. intros id. cbn [Collection set_Collection].
  rewrite lookup_alter. destruct (decide (k = id)) as [->|]; [|reflexivity].
  destruct (Collection m !! id); [cbn; rewrite Hf|]; reflexivity.
Qed.

Lemma same_meta_insert m k cfg cfg' :
  Collection m !! k = Some cfg -> meta cfg' = meta cfg ->
  same_meta m (set_Collection m (<[k := cfg']> (Collection m))).
Proof.
  intros Hk Hm. repeat split. intros id. cbn [Collection set_Collection].
  rewrite lookup_insert. destruct (decide (k = id)) as [->|]; [|reflexivity].
  rewrite Hk. cbn. rewrite Hm. reflexivity.
Qed.

Lemma same_meta_write m configID programs now :
  same_meta m (writeProgramConfigs m configID programs now).
Proof. apply same_meta_alter. reflexivity. Qed.

(** X8. The four tree mutations change nothing but the tree and the
    updated timestamp of a config: whatever their arguments and whether
    they succeed or fail, they leave the identity, title, owner, privacy
    flag, like counter, version and creation timestamp of every stored
    config as they were (in particular the version is not bumped), they
    neither add nor delete a config, and they do not touch the favorites,
    the applied states or the allow list. *)
Theorem tree_mutations_keep_metadata
    (ctx : option UserSessionData) (uuid : string) (now : Z) (configID progID : string)
    (newProg updates : HyprProgramConfig) (parentID : option string) (m : Store) :
  same_meta m (snd (AddProgramConfig ctx uuid now configID newProg parentID m)) /\
  same_meta m (snd (RemoveProgramConfig ctx now configID progID m)) /\
  same_meta m (snd (MoveProgramConfig ctx now configID progID parentID m)) /\
  same_meta m (snd (UpdateProgramConfig ctx now configID progID updates m)).
Proof.
  split; [|split; [|split]].
  - unfold AddProgramConfig.
    destruct (getUserFromContext ctx); [|apply same_meta_refl].
    destruct (Collection m !! configID); [|apply same_meta_refl].
    destruct (forbidden _ _); [apply same_meta_refl|]. cbn zeta.
    destruct parentID as [p|]; [|apply same_meta_write].
    destruct (String.eqb p ""); [apply same_meta_write|].
    destruct (insertIntoSubConfig _ _ _) as [T' [|]];
      [apply same_meta_write|apply same_meta_refl].
  - unfold RemoveProgramConfig, pullProgramConfig.
    destruct (getUserFromContext ctx); [|apply same_meta_refl].
    destruct (Collection m !! configID) as [cfg|] eqn:Hcfg; [|apply same_meta_refl].
    destruct (forbidden _ _); [apply same_meta_refl|].
    destruct (existsb _ _); cbn [Z.ltb Z.compare snd].
    + eapply same_meta_trans; [|apply same_meta_alter; reflexivity].
      eapply same_meta_insert; [exact Hcfg|reflexivity].
    + apply same_meta_write.
  - unfold MoveProgramConfig.
    destruct (getUserFromContext ctx); [|apply same_meta_refl].
    destruct (Collection m !! configID); [|apply same_meta_refl].
    destruct (forbidden _ _); [apply same_meta_refl|].
    destruct (extractProgramConfig _ _) as [programs [removed|]]; [|apply same_meta_refl].
    cbn zeta. destruct parentID as [p|]; [|apply same_meta_write].
    destruct (String.eqb p ""); [apply same_meta_write|].
    destruct (insertIntoSubConfig _ _ _) as [T' [|]];
      [apply same_meta_write|apply same_meta_refl].
  - unfold UpdateProgramConfig.
    destruct (getUserFromContext ctx); [|apply same_meta_refl].
    destruct (Collection m !! configID); [|apply same_meta_refl].
    destruct (forbidden _ _); [apply same_meta_refl|].
    destruct (updateProgramConfigRecursive _ _ _ _) as [T' [|]];
      [apply same_meta_write|apply same_meta_refl].
Qed.

(** *** Whole-config update *)


Lemma GetConfig_stored ctx id m cfg :
  GetConfig ctx id m = inl cfg -> Collection m !! id = Some cfg.
Proof.
  unfold GetConfig. destruct (Collection m !! id) as [c|]; [|discriminate].
  destruct (hc_Private c).
  - destruct (getUserFromContext ctx) as [u|]; [|discriminate].
    destruct (_ && _); [discriminate|]. intros H. injection H as <-. reflexivity.
  - intros H. injection H as <-. reflexivity.
Qed.



Lemma buildUpdates_private updatesBody existing :
  hc_Private updatesBody <> hc_Private existing ->
  M_get "private" (buildUpdates updatesBody existing) = Some (BString (hc_Title updatesBody)).
Proof.
  intros Hdiff. unfold buildUpdates.
  assert (Hne : Bool.eqb (hc_Private updatesBody) (hc_Private existing) = false)
    by (apply Bool.eqb_false_iff; exact Hdiff).
  rewrite Hne. cbn [negb].
  destruct (_ && negb (StringSlicesEqual _ _)).
  - rewrite M_get_set_ne by discriminate. apply M_get_set_eq.
  - apply M_get_set_eq.
Qed.

Lemma mergeUpdates_private_string existing updates s :
  M_get "private" updates = Some (BString s) -> mergeUpdates existing updates = None.
Proof.
  intros H. unfold mergeUpdates.
  assert (Hf : field updates "private" asBool (hc_Private existing) = None)
    by (unfold field; rewrite H; reflexivity).
  rewrite Hf.
  repeat match goal with
         | |- context [match field ?d ?k ?dec ?e with _ => _ end] =>
             destruct (field d k dec e)
         end; reflexivity.
Qed.

(** X10. The privacy flag cannot be changed through the whole-config
    handler: when the flag of the request body differs from the stored
    one, the handler answers with an error of status 500 and the store is
    left as it was, because the field set carries a string under [private]
    and the repository cannot decode it into the boolean field. *)
Theorem handler_never_changes_privacy
    (ctx : option UserSessionData) (now : Z) (configID : string)
    (updatesBody existing : HyprConfig) (m : Store) :
  configID <> "" ->
  GetConfig ctx configID m = inl existing ->
  hc_Private updatesBody <> hc_Private existing ->
  exists message,
    Handler_UpdateConfig ctx now configID updatesBody m = (WriteError 500 message, m).
Proof.
  intros Hid Hget Hdiff.
  pose proof (GetConfig_stored _ _ _ _ Hget) as Hstored.
  pose proof (buildUpdates_private _ _ Hdiff) as Hprivate.
  unfold Handler_UpdateConfig. apply String.eqb_neq in Hid. rewrite Hid, Hget.
  destruct (buildUpdates updatesBody existing) as [|kv updates] eqn:Hb; [discriminate|].
  cbn [length Nat.eqb]. unfold UpdateConfig.
  destruct (getUserFromContext ctx) as [user|err]; [|eexists; reflexivity].
  rewrite Hstored. destruct (forbidden existing user); [eexists; reflexivity|]. cbn zeta.
  rewrite (mergeUpdates_private_string existing _ (hc_Title updatesBody)).
  - eexists. reflexivity.
  - rewrite !M_get_delete_ne by discriminate. rewrite !M_get_set_ne by discriminate.
    exact Hprivate.
Qed.

Lemma handler_never_changes_privacy_witness :
  exists message,
    Handler_UpdateConfig (Some example_owner) 30 "c1" example_body (example_store false [])
    = (WriteError 500 message, example_store false []).
Proof.
  apply (handler_never_changes_privacy (Some example_owner) 30 "c1" example_body
           (example_config_doc false 0) (example_store false [])).
  - discriminate.
  - vm_compute. reflexivity.
  - discriminate.
Defined.

(** *** Reading and listing *)

(** X11. [GetConfig] returns a config exactly when it is stored under the
    identity and is public, or the caller is signed in and is its owner or
    an administrator. *)
Theorem get_config_visibility
    (ctx : option UserSessionData) (id : string) (m : Store) (cfg : HyprConfig) :
  GetConfig ctx id m = inl cfg <->
  Collection m !! id = Some cfg /\
  (hc_Private cfg = false \/
   exists user, getUserFromContext ctx = inl user /\
                (hc_OwnerID cfg = UserID user \/ isAdmin (Roles user) = true)).
Proof.
  unfold GetConfig. destruct (Collection m !! id) as [c|].
  - destruct (hc_Private c) eqn:Hp.
    + destruct (getUserFromContext ctx) as [u|e].
      * destruct (String.eqb (hc_OwnerID c) (UserID u)) eqn:Eo;
          destruct (isAdmin (Roles u)) eqn:Ea; cbn [negb andb].
        -- apply String.eqb_eq in Eo. split.
           ++ intros H. injection H as <-. split; [reflexivity|]. right. eauto.
           ++ intros [H _]. congruence.
        -- apply String.eqb_eq in Eo. split.
           ++ intros H. injection H as <-. split; [reflexivity|]. right. eauto.
           ++ intros [H _]. congruence.
        -- split.
           ++ intros H. injection H as <-. split; [reflexivity|]. right. eauto.
           ++ intros [H _]. congruence.
        -- apply String.eqb_neq in Eo. split; [discriminate|].
           intros [H [Hpub|[user [Hu [Ho|Had]]]]]; injection H as <-;
             [congruence| |]; injection Hu as <-; congruence.
      * split; [discriminate|].
        intros [H [Hpub|[user [Hu _]]]]; [injection H as <-; congruence|discriminate].
    + split.
      * intros H. injection H as <-. split; [reflexivity|]. left. exact Hp.
      * intros [H _]. congruence.
  - split; [discriminate|]. intros [H _]. discriminate.
Qed.

(** X12. An administrator who is not the owner can read a private config
    by its identity, but neither the list nor any search selects it for
    them: the visibility clause of the two filters has no disjunct for
    administrators. *)
Theorem admin_reads_private_but_never_finds_it
    (regexMatch : string -> string -> string -> bool) (user : UserSessionData)
    (id : string) (m : Store) (cfg : HyprConfig) (filters : ConfigSearchFilters) :
  SignedIn user = true ->
  isAdmin (Roles user) = true ->
  Collection m !! id = Some cfg ->
  hc_Private cfg = true ->
  UserID user <> hc_OwnerID cfg ->
  GetConfig (Some user) id m = inl cfg /\
  matches regexMatch cfg (BM (listConfigsFilter (Some user))) = false /\
  matches regexMatch cfg (BM (buildSearchFilter filters (Some user))) = false.
Proof.
  intros Hsigned Hadmin Hstored Hprivate Hother. split; [|split].
  - unfold GetConfig, getUserFromContext. rewrite Hsigned, Hstored, Hprivate.
    cbn [negb]. rewrite Hadmin. cbn [negb]. rewrite andb_false_r. reflexivity.
  - apply (visibility_hides regexMatch cfg (Some user)); assumption.
  - destruct (buildSearchFilter_shape filters (Some user)) as [andParts ->].
    destruct (0 <? length andParts)%nat.
    + rewrite matches_cons, (visibility_hides regexMatch cfg (Some user)) by assumption.
      apply andb_false_r.
    + apply (visibility_hides regexMatch cfg (Some user)); assumption.
Qed.

Lemma admin_reads_private_but_never_finds_it_witness :
  GetConfig (Some (mkUserSessionData "root" ["admin"] true)) "c1" (example_store true [])
    = inl (example_config_doc true 0) /\
  matches (fun _ _ _ => true) (example_config_doc true 0)
    (BM (listConfigsFilter (Some (mkUserSessionData "root" ["admin"] true)))) = false /\
  matches (fun _ _ _ => true) (example_config_doc true 0)
    (BM (buildSearchFilter noFilters (Some (mkUserSessionData "root" ["admin"] true))))
    = false.
Proof.
  apply (admin_reads_private_but_never_finds_it (fun _ _ _ => true)
           (mkUserSessionData "root" ["admin"] true) "c1" (example_store true [])
           (example_config_doc true 0) noFilters).
  - reflexivity.
  - reflexivity.
  - vm_compute. reflexivity.
  - reflexivity.
  - discriminate.
Defined.

(** X13. The list filter selects exactly the configs that are public or
    owned by the caller, and a search that asks for nothing uses the very
    same filter. *)
Theorem list_filter_selects_public_or_own
    (regexMatch : string -> string -> string -> bool)
    (user : option UserSessionData) (cfg : HyprConfig) :
  (matches regexMatch cfg (BM (listConfigsFilter user)) = true <->
   hc_Private cfg = false \/ exists u, user = Some u /\ hc_OwnerID cfg = UserID u) /\
  buildSearchFilter noFilters user = listConfigsFilter user.
Proof.
  split; [|destruct user; reflexivity].
  destruct user as [u|].
  - change (listConfigsFilter (Some u)) with [("$or", visibility (Some u))].
    rewrite matches_cons. cbn [String.eqb Ascii.eqb Bool.eqb visibility app existsb].
    rewrite !matches_cons. unfold evalField. cbn.
    destruct (hc_Private cfg); cbn.
    + rewrite !andb_true_r, !orb_false_r. rewrite String.eqb_sym. split.
      * intros H. apply String.eqb_eq in H. right. exists u. split; [reflexivity|exact H].
      * intros [H|[u' [Hu H]]]; [discriminate|]. injection Hu as <-.
        apply String.eqb_eq. exact H.
    + split; [intros _; left; reflexivity|reflexivity].
  - change (listConfigsFilter None) with [("$or", visibility None)].
    rewrite matches_cons. cbn [String.eqb Ascii.eqb Bool.eqb visibility existsb].
    rewrite !matches_cons. unfold evalField. cbn.
    destruct (hc_Private cfg); cbn.
    + split; [discriminate|]. intros [H|[u [Hu _]]]; discriminate.
    + split; [intros _; left; reflexivity|reflexivity].
Qed.

(** *** Creating and deleting configs *)

(** X14. [DeleteConfig] succeeds exactly when the caller is signed in, the
    config exists and the caller is its owner or an administrator; when it
    fails the store is unchanged; when it succeeds the config can no longer
    be read by anyone, every other config is as before, and the favorite
    records and applied states that reference the deleted config are still
    there. *)
Theorem delete_config_effect (ctx : option UserSessionData) (id : string) (m : Store) :
  let result := DeleteConfig ctx id m in
  (fst result = None <->
   exists user cfg, getUserFromContext ctx = inl user /\
                    Collection m !! id = Some cfg /\ forbidden cfg user = false) /\
  (fst result <> None -> snd result = m) /\
  (fst result = None ->
   (forall reader, GetConfig reader id (snd result) = inr ErrNotFound) /\
   (forall other, other <> id -> Collection (snd result) !! other = Collection m !! other) /\
   FavoritesCollection (snd result) = FavoritesCollection m /\
   StateCollection (snd result) = StateCollection m).
Proof.
  cbn zeta. unfold DeleteConfig.
  destruct (getUserFromContext ctx) as [user|err].
  - destruct (Collection m !! id) as [cfg|] eqn:Hcfg.
    + destruct (forbidden cfg user) eqn:Hf; cbn [fst snd].
      * split; [split; [discriminate|]|split; [reflexivity|discriminate]].
        intros (u & c & Hu & Hc & Hfc). injection Hu as <-. injection Hc as <-. congruence.
      * split; [split; [intros _; eauto|reflexivity]|].
        split; [congruence|]. intros _. repeat split.
        -- intros reader. unfold GetConfig. cbn [Collection set_Collection].
           rewrite lookup_delete_eq. reflexivity.
        -- intros other Hne. cbn [Collection set_Collection].
           apply lookup_delete_ne. congruence.
    + cbn [fst snd]. split; [split; [discriminate|]|split; [reflexivity|discriminate]].
      intros (u & c & _ & Hc & _). discriminate.
  - cbn [fst snd]. split; [split; [discriminate|]|split; [reflexivity|discriminate]].
    intros (u & c & Hu & _). discriminate.
Qed.

(** X15. [CreateConfig] either fails and leaves the store as it is, or
    stores a config that passed validation under the generated identity,
    which was free, with the caller as owner and the two clock readings as
    timestamps, whatever identity and owner the caller supplied; the like
    counter and the version are stored as the caller supplied them; and
    the caller can read the new config back. *)
Theorem create_config_effect
    (ctx : option UserSessionData) (uuid : string) (created updated : Z)
    (cfg : HyprConfig) (m : Store) :
  match CreateConfig ctx uuid created updated cfg m with
  | (inr _, m') => m' = m
  | (inl stored, m') =>
      exists user,
        getUserFromContext ctx = inl user /\
        hc_ID stored = uuid /\
        hc_OwnerID stored = UserID user /\
        hc_CreatedTimestamp stored = created /\
        hc_UpdatedTimestamp stored = updated /\
        hc_Likes stored = hc_Likes cfg /\
        hc_Version stored = hc_Version cfg /\
        hc_ProgramConfigs stored = hc_ProgramConfigs cfg /\
        hc_Validate (checkProgramExists m) stored = None /\
        Collection m !! uuid = None /\
        Collection m' = <[uuid := stored]> (Collection m) /\
        GetConfig ctx uuid m' = inl stored
  end.
Proof.
  unfold CreateConfig.
  destruct (getUserFromContext ctx) as [user|err] eqn:Huser; [|reflexivity]. cbn zeta.
  destruct (hc_Validate _ _) eqn:Hv; [reflexivity|].
  cbn [hc_ID set_hc_UpdatedTimestamp set_hc_CreatedTimestamp set_hc_OwnerID set_hc_ID].
  destruct (Collection m !! uuid) eqn:Hfree; [reflexivity|].
  exists user. repeat (split; [reflexivity || exact Hv|]).
  unfold GetConfig. rewrite Huser. cbn [Collection set_Collection].
  rewrite lookup_insert_eq. cbn [hc_Private hc_OwnerID]. rewrite String.eqb_refl.
  cbn [negb andb]. destruct (hc_Private _); reflexivity.
Qed.

(** *** Applied configs *)

Lemma count_after_apply (st : gmap string UserHyprState) uid configID now :
  size (filter (fun kv : string * UserHyprState => st_ConfigID (snd kv) = configID)
          (<[uid := mkUserHyprState uid configID now]> st))
  = (size (filter (fun kv : string * UserHyprState => st_ConfigID (snd kv) = configID) st)
     + match st !! uid with
       | Some s => if String.eqb (st_ConfigID s) configID then 0 else 1
       | None => 1
       end)%nat.
Proof.
  rewrite map_filter_insert_True by reflexivity. rewrite map_size_insert.
  destruct (st !! uid) as [s|] eqn:Hs.
  - destruct (String.eqb (st_ConfigID s) configID) eqn:E.
    + apply String.eqb_eq in E.
      assert (H : filter (fun kv : string * UserHyprState => st_ConfigID (snd kv) = configID)
                    st !! uid = Some s)
        by (apply map_lookup_filter_Some; split; assumption).
      rewrite H. cbn. lia.
    + apply String.eqb_neq in E.
      assert (H : filter (fun kv : string * UserHyprState => st_ConfigID (snd kv) = configID)
                    st !! uid = None).
      { apply map_lookup_filter_None. right. intros x Hx. cbn. congruence. }
      rewrite H. lia.
  - assert (H : filter (fun kv : string * UserHyprState => st_ConfigID (snd kv) = configID)
                  st !! uid = None)
      by (apply map_lookup_filter_None; left; exact Hs).
    rewrite H. lia.
Qed.

(** X16. After a signed-in user applies a config, [GetAppliedConfig] gives
    that user what [GetConfig] gives for the applied identity (an error
    when the config does not exist or is not visible: [ApplyConfig] checks
    neither), the configs are untouched, and the number of users of the
    config grows by one unless the user had applied the same config
    before. *)
Theorem apply_then_get_applied
    (ctx : option UserSessionData) (user : UserSessionData) (now : Z)
    (configID : string) (m : Store) :
  getUserFromContext ctx = inl user ->
  let result := ApplyConfig ctx now configID m in
  fst result = None /\
  Collection (snd result) = Collection m /\
  GetAppliedConfig ctx (snd result) = GetConfig ctx configID m /\
  CountUsersUsingConfig configID (snd result) =
    CountUsersUsingConfig configID m
    + match StateCollection m !! UserID user with
      | Some s => if String.eqb (st_ConfigID s) configID then 0 else 1
      | None => 1
      end.
Proof.
  intros Huser. cbn zeta. unfold ApplyConfig. rewrite Huser. cbn [fst snd].
  split; [reflexivity|]. split; [reflexivity|]. split.
  - unfold GetAppliedConfig. rewrite Huser. cbn [StateCollection set_StateCollection].
    rewrite lookup_insert_eq. reflexivity.
  - unfold CountUsersUsingConfig. cbn [StateCollection set_StateCollection].
    rewrite count_after_apply.
    destruct (StateCollection m !! UserID user) as [s|];
      [destruct (String.eqb (st_ConfigID s) configID)|]; lia.
Qed.

Lemma apply_then_get_applied_witness :
  let result := ApplyConfig (Some example_visitor) 30 "c1" (example_store false []) in
  fst result = None /\
  Collection (snd result) = Collection (example_store false []) /\
  GetAppliedConfig (Some example_visitor) (snd result)
    = GetConfig (Some example_visitor) "c1" (example_store false []) /\
  CountUsersUsingConfig "c1" (snd result)
    = CountUsersUsingConfig "c1" (example_store false []) + 1.
Proof.
  apply (apply_then_get_applied (Some example_visitor) example_visitor 30 "c1"
           (example_store false [])).
  reflexivity.
Defined.

(** *** The allow list *)



(** *** Favorites *)

Lemma findFavorite_deleteFavorite_snoc u c favs f :
  findFavorite u c favs = None -> isFavorite u c f = true ->
  deleteFavorite u c (favs ++ [f]) = (favs, 1).
Proof.
  induction favs as [|g favs IH]; intros Hnone Hf.
  - cbn. rewrite Hf. reflexivity.
  - cbn [findFavorite] in Hnone. cbn [app deleteFavorite].
    destruct (isFavorite u c g); [discriminate|]. rewrite IH by assumption. reflexivity.
Qed.

(** X18. Favoriting and then unfavoriting restores the store: for a
    signed-in user who has not favorited the config, [FavoriteConfig]
    followed by [UnfavoriteConfig] succeeds twice and gives back the store
    as it was, the like counter and the favorite records included. *)
Theorem favorite_then_unfavorite
    (ctx : option UserSessionData) (user : UserSessionData) (now : Z)
    (configID : string) (m : Store) :
  getUserFromContext ctx = inl user ->
  findFavorite (UserID user) configID (FavoritesCollection m) = None ->
  fst (FavoriteConfig ctx now configID m) = None /\
  UnfavoriteConfig ctx configID (snd (FavoriteConfig ctx now configID m)) = (None, m).
Proof.
  intros Huser Hnone. unfold FavoriteConfig, insertFavorite.
  cbn [fav_UserID fav_ConfigID]. rewrite Huser, Hnone. cbn [fst snd]. split; [reflexivity|].
  unfold UnfavoriteConfig. rewrite Huser.
  cbn [FavoritesCollection incLikes set_Collection set_FavoritesCollection].
  rewrite findFavorite_deleteFavorite_snoc;
    [|exact Hnone|unfold isFavorite; cbn; rewrite !String.eqb_refl; reflexivity].
  cbn [Z.eqb]. f_equal. unfold incLikes, set_Collection, set_FavoritesCollection. cbn.
  destruct m as [coll favs st progs]. cbn. f_equal.
  apply map_eq. intros id.
  destruct (decide (configID = id)) as [->|Hne];
    [rewrite !lookup_alter_eq|rewrite !lookup_alter_ne by exact Hne; reflexivity].
  destruct (coll !! id) as [cfg|]; [|reflexivity]. cbn. f_equal.
  destruct cfg. unfold set_hc_Likes. cbn. f_equal. lia.
Qed.

Lemma favorite_then_unfavorite_witness :
  fst (FavoriteConfig (Some example_visitor) 30 "c1" (example_store false [])) = None /\
  UnfavoriteConfig (Some example_visitor) "c1"
    (snd (FavoriteConfig (Some example_visitor) 30 "c1" (example_store false [])))
  = (None, example_store false []).
Proof.
  apply (favorite_then_unfavorite (Some example_visitor) example_visitor 30 "c1"
           (example_store false [])).
  - reflexivity.
  - reflexivity.
Defined.

(** *** What validation establishes *)











(** *** What a search selects *)

Lemma buildSearchFilter_parts filters user :
  buildSearchFilter filters user =
  let andParts := queryPart filters ++ tagsPart filters ++ programPart filters
                  ++ ownerPart filters ++ privatePart filters ++ rangePart filters in
  if (0 <? length andParts)%nat
  then [("$and", BArray andParts); ("$or", visibility user)]
  else [("$or", visibility user)].
Proof.
  unfold buildSearchFilter, queryPart, tagsPart, programPart, ownerPart, privatePart,
    rangePart, visibility.
  destruct (negb (String.eqb (f_Query filters) ""));
    destruct (0 <? length (f_Tags filters))%nat;
    destruct (negb (String.eqb (f_Program filters) ""));
    destruct (negb (String.eqb (f_OwnerID filters) ""));
    destruct (f_Private filters);
    destruct (f_UpdatedFrom filters); destruct (f_UpdatedTo filters);
    destruct user; reflexivity.
Qed.

Lemma existsb_BString_In t l :
  existsb (bval_eqb (BString t)) (map BString l) = true <-> In t l.
Proof.
  induction l as [|x l IH]; cbn [map existsb bval_eqb]; [split; [discriminate|intros []]|].
  rewrite orb_true_iff, IH, String.eqb_eq. split.
  - intros [H|H]; [left; symmetry; exact H|right; exact H].
  - intros [H|H]; [left; symmetry; exact H|right; exact H].
Qed.

Lemma visibility_matches regexMatch cfg user :
  existsb (matches regexMatch cfg)
    (match visibility user with BArray l => l | _ => [] end) = true <->
  hc_Private cfg = false \/ exists u, user = Some u /\ hc_OwnerID cfg = UserID u.
Proof.
  destruct user as [u|]; cbn [visibility app existsb]; rewrite !matches_cons;
    unfold evalField; cbn; destruct (hc_Private cfg); cbn.
  - rewrite !andb_true_r, !orb_false_r, String.eqb_sym, String.eqb_eq. split.
    + intros H. right. exists u. split; [reflexivity|exact H].
    + intros [H|[u' [Hu H]]]; [discriminate|]. injection Hu as <-. exact H.
  - split; [intros _; left; reflexivity|reflexivity].
  - split; [discriminate|]. intros [H|[u [Hu _]]]; discriminate.
  - split; [intros _; left; reflexivity|reflexivity].
Qed.

Lemma ownerPart_matches regexMatch cfg filters :
  forallb (matches regexMatch cfg) (ownerPart filters) = true <->
  (f_OwnerID filters <> "" -> hc_OwnerID cfg = f_OwnerID filters).
Proof.
  unfold ownerPart. destruct (String.eqb (f_OwnerID filters) "") eqn:E; cbn [negb forallb].
  - apply String.eqb_eq in E. split; [intros _ H; contradiction|reflexivity].
  - apply String.eqb_neq in E. rewrite matches_cons. unfold evalField. cbn.
    rewrite !andb_true_r, orb_false_r, String.eqb_eq. split.
    + intros H _. symmetry. exact H.
    + intros H. symmetry. apply H. exact E.
Qed.

Lemma privatePart_matches regexMatch cfg filters :
  forallb (matches regexMatch cfg) (privatePart filters) = true <->
  (forall b, f_Private filters = Some b -> hc_Private cfg = b).
Proof.
  unfold privatePart. destruct (f_Private filters) as [b|]; cbn [forallb].
  - rewrite matches_cons. unfold evalField. cbn.
    rewrite !andb_true_r, orb_false_r, Bool.eqb_true_iff. split.
    + intros H b' Hb. injection Hb as <-. symmetry. exact H.
    + intros H. symmetry. apply H. reflexivity.
  - split; [intros _ b H; discriminate|reflexivity].
Qed.

Lemma programPart_matches regexMatch cfg filters :
  forallb (matches regexMatch cfg) (programPart filters) = true <->
  (f_Program filters <> "" ->
   exists pc, In pc (hc_ProgramConfigs cfg) /\ pc_Program pc = f_Program filters).
Proof.
  unfold programPart. destruct (String.eqb (f_Program filters) "") eqn:E; cbn [negb forallb].
  - apply String.eqb_eq in E. split; [intros _ H; contradiction|reflexivity].
  - apply String.eqb_neq in E. rewrite matches_cons. unfold evalField. cbn.
    rewrite !andb_true_r.
    rewrite <- (map_map pc_Program BString), existsb_BString_In, in_map_iff. split.
    + intros [pc [Hp Hin]] _. exists pc. split; assumption.
    + intros H. destruct (H E) as [pc [Hin Hp]]. exists pc. split; assumption.
Qed.

Lemma tagsPart_matches regexMatch cfg filters :
  forallb (matches regexMatch cfg) (tagsPart filters) = true <->
  (forall t, In t (f_Tags filters) -> In t (hc_Tags cfg)).
Proof.
  unfold tagsPart. destruct (f_Tags filters) as [|t0 tags] eqn:Ht.
  - cbn. split; [intros _ t []|reflexivity].
  - cbn [length Nat.ltb Nat.leb forallb]. rewrite matches_cons. unfold evalField.
    cbn -[existsb forallb map]. cbn [forallb fst snd]. unfold evalOperator.
    cbn -[existsb forallb map]. unfold BStrings. rewrite !andb_true_r.
    rewrite forallb_forall. split.
    + intros H t Hin. apply existsb_BString_In. apply H. apply in_map. exact Hin.
    + intros H w Hw. apply in_map_iff in Hw. destruct Hw as [t [<- Hin]].
      apply existsb_BString_In. apply H. exact Hin.
Qed.

Lemma rangePart_matches regexMatch cfg filters :
  forallb (matches regexMatch cfg) (rangePart filters) = true <->
  (forall s, f_UpdatedFrom filters = Some s -> s * 1000000000 <= hc_UpdatedTimestamp cfg) /\
  (forall s, f_UpdatedTo filters = Some s -> hc_UpdatedTimestamp cfg <= s * 1000000000).
Proof.
  unfold rangePart.
  destruct (f_UpdatedFrom filters) as [from|]; destruct (f_UpdatedTo filters) as [to|];
    cbn [forallb]; rewrite ?matches_cons; unfold evalField; cbn;
    rewrite ?andb_true_r, ?orb_false_r, ?andb_true_iff, ?Z.leb_le.
  - split.
    + intros [H1 H2]. split; intros s Hs; injection Hs as <-; assumption.
    + intros [H1 H2]. split; [apply H2|apply H1]; reflexivity.
  - split.
    + intros H. split; intros s Hs; [injection Hs as <-; exact H|discriminate].
    + intros [H _]. apply H. reflexivity.
  - split.
    + intros H. split; intros s Hs; [discriminate|injection Hs as <-; exact H].
    + intros [_ H]. apply H. reflexivity.
  - split; [intros _; split; intros s Hs; discriminate|reflexivity].
Qed.

Lemma existsb_regex (regexMatch : string -> string -> string -> bool) q l :
  existsb (fun v => match v with
                    | BString s => regexMatch q "i" s
                    | _ => false
                    end) (map BString l) = true <->
  exists s, In s l /\ regexMatch q "i" s = true.
Proof.
  rewrite existsb_exists. split.
  - intros [v [Hin Hv]]. apply in_map_iff in Hin. destruct Hin as [s [<- Hin]]. eauto.
  - intros [s [Hin Hs]]. exists (BString s). split; [apply in_map; exact Hin|exact Hs].
Qed.

Lemma queryPart_matches regexMatch cfg filters :
  forallb (matches regexMatch cfg) (queryPart filters) = true <->
  (f_Query filters <> "" ->
   exists s, In s (hc_Title cfg
                   :: (if String.eqb (hc_Description cfg) "" then [] else [hc_Description cfg])
                   ++ hc_Tags cfg) /\
             regexMatch (f_Query filters) "i" s = true).
Proof.
  unfold queryPart. destruct (String.eqb (f_Query filters) "") eqn:E; cbn [negb forallb].
  - apply String.eqb_eq in E. split; [intros _ H; contradiction|reflexivity].
  - apply String.eqb_neq in E. cbn zeta. rewrite matches_cons.
    cbn [String.eqb Ascii.eqb Bool.eqb existsb]. rewrite !matches_cons.
    unfold evalField.
    cbn -[existsb map]. unfold evalOperator. cbn -[existsb map].
    rewrite !andb_true_r, !orb_false_r, !orb_true_iff.
    change [BString (hc_Title cfg)] with (map BString [hc_Title cfg]).
    replace (if String.eqb (hc_Description cfg) "" then [] else [BString (hc_Description cfg)])
      with (map BString (if String.eqb (hc_Description cfg) "" then []
                         else [hc_Description cfg]))
      by (destruct (String.eqb (hc_Description cfg) ""); reflexivity).
    rewrite !existsb_regex. split.
    + intros H _. destruct H as [[s [Hin Hs]]|[[s [Hin Hs]]|[s [Hin Hs]]]];
        exists s; (split; [|exact Hs]).
      * destruct Hin as [<-|[]]. left. reflexivity.
      * right. apply in_or_app. left. exact Hin.
      * right. apply in_or_app. right. exact Hin.
    + intros H. destruct (H E) as [s [[<-|Hin] Hs]].
      * left. exists (hc_Title cfg). split; [left; reflexivity|exact Hs].
      * apply in_app_or in Hin. destruct Hin as [Hin|Hin]; right; [left|right]; eauto.
Qed.

(** X20. The filter that [buildSearchFilter] builds selects a config
    exactly when the config is public or owned by the caller and meets
    every condition that is set: the query matches its title, its
    description (when it has one) or one of its tags; it has all the
    requested tags; one of its top-level program configs (nested ones are
    not looked at) declares the requested program; its owner and its
    privacy flag are the requested ones; and its updated timestamp lies
    within the requested bounds, both inclusive. *)
Theorem search_filter_selects_exactly
    (regexMatch : string -> string -> string -> bool)
    (filters : ConfigSearchFilters) (user : option UserSessionData) (cfg : HyprConfig) :
  matches regexMatch cfg (BM (buildSearchFilter filters user)) = true <->
  (hc_Private cfg = false \/ exists u, user = Some u /\ hc_OwnerID cfg = UserID u) /\
  (f_Query filters <> "" ->
   exists s, In s (hc_Title cfg
                   :: (if String.eqb (hc_Description cfg) "" then [] else [hc_Description cfg])
                   ++ hc_Tags cfg) /\
             regexMatch (f_Query filters) "i" s = true) /\
  (forall t, In t (f_Tags filters) -> In t (hc_Tags cfg)) /\
  (f_Program filters <> "" ->
   exists pc, In pc (hc_ProgramConfigs cfg) /\ pc_Program pc = f_Program filters) /\
  (f_OwnerID filters <> "" -> hc_OwnerID cfg = f_OwnerID filters) /\
  (forall b, f_Private filters = Some b -> hc_Private cfg = b) /\
  (forall s, f_UpdatedFrom filters = Some s -> s * 1000000000 <= hc_UpdatedTimestamp cfg) /\
  (forall s, f_UpdatedTo filters = Some s -> hc_UpdatedTimestamp cfg <= s * 1000000000).
Proof.
  pose proof (visibility_matches regexMatch cfg user) as Hv.
  pose proof (queryPart_matches regexMatch cfg filters) as Hq.
  pose proof (tagsPart_matches regexMatch cfg filters) as Ht.
  pose proof (programPart_matches regexMatch cfg filters) as Hp.
  pose proof (ownerPart_matches regexMatch cfg filters) as Ho.
  pose proof (privatePart_matches regexMatch cfg filters) as Hpr.
  pose proof (rangePart_matches regexMatch cfg filters) as Hr.
  assert (Hall :
    forallb (matches regexMatch cfg)
      (queryPart filters ++ tagsPart filters ++ programPart filters
       ++ ownerPart filters ++ privatePart filters ++ rangePart filters) = true <->
    forallb (matches regexMatch cfg) (queryPart filters) = true /\
    forallb (matches regexMatch cfg) (tagsPart filters) = true /\
    forallb (matches regexMatch cfg) (programPart filters) = true /\
    forallb (matches regexMatch cfg) (ownerPart filters) = true /\
    forallb (matches regexMatch cfg) (privatePart filters) = true /\
    forallb (matches regexMatch cfg) (rangePart filters) = true).
  { rewrite !forallb_app, !andb_true_iff. reflexivity. }
  assert (Hvis : matches regexMatch cfg (BM [("$or", visibility user)])
                 = existsb (matches regexMatch cfg)
                     (match visibility user with BArray l => l | _ => [] end)).
  { rewrite matches_cons. cbn [String.eqb Ascii.eqb Bool.eqb].
    unfold visibility. destruct user; apply andb_true_r. }
  rewrite buildSearchFilter_parts. cbn zeta.
  set (parts := queryPart filters ++ _) in *.
  destruct (0 <? length parts)%nat eqn:Elen.
  - rewrite matches_cons. cbn [String.eqb Ascii.eqb Bool.eqb].
    rewrite Hvis, andb_true_iff. tauto.
  - assert (Hnil : parts = []) by (destruct parts; [reflexivity|discriminate]).
    rewrite Hnil in Hall. pose proof (proj1 Hall eq_refl) as Hparts.
    rewrite Hvis. tauto.
Qed.

(** *** What validation reports *)





(** *** Comparison of string slices *)

Lemma countStrings_snoc l x :
  countStrings (l ++ [x]) =
  <[x := S (default 0%nat (countStrings l !! x))]> (countStrings l).
Proof. unfold countStrings. rewrite fold_left_app. reflexivity. Qed.

Lemma countStrings_lookup l s :
  countStrings l !! s =
  if (count_occ string_dec l s =? 0)%nat then None else Some (count_occ string_dec l s).
Proof.
  induction l as [|x l IH] using rev_ind; [reflexivity|].
  rewrite countStrings_snoc, count_occ_app. cbn [count_occ].
  destruct (string_dec x s) as [->|Hne].
  - rewrite lookup_insert_eq, IH.
    destruct (count_occ string_dec l s) as [|n]; cbn; [reflexivity|].
    f_equal. lia.
  - rewrite lookup_insert_ne by exact Hne. rewrite Nat.add_0_r. exact IH.
Qed.

Lemma countStrings_eq a b :
  countStrings a = countStrings b <-> a ≡ₚ b.
Proof.
  rewrite (Permutation_count_occ string_dec). split.
  - intros H s. pose proof (countStrings_lookup a s) as Ha.
    pose proof (countStrings_lookup b s) as Hb. rewrite H in Ha. rewrite Ha in Hb.
    destruct (count_occ string_dec a s) as [|n]; destruct (count_occ string_dec b s) as [|k];
      cbn [Nat.eqb] in Hb; congruence.
  - intros H. apply map_eq. intros s. rewrite !countStrings_lookup, H. reflexivity.
Qed.

(** X22. [StringSlicesEqual] is true exactly when one slice is a
    rearrangement of the other: the same strings, each the same number of
    times.  Order is ignored, repetitions are not. *)
Theorem StringSlicesEqual_iff_permutation (a b : list string) :
  StringSlicesEqual a b = true <-> a ≡ₚ b.
Proof.
  rewrite <- countStrings_eq. unfold StringSlicesEqual.
  destruct ((length a =? 0)%nat && (length b =? 0)%nat) eqn:E.
  - apply andb_prop in E. destruct E as [Ea Eb].
    destruct a; [|discriminate]. destruct b; [|discriminate]. split; reflexivity.
  - cbn zeta. destruct (size (countStrings a) =? size (countStrings b))%nat eqn:Es;
      cbn [negb].
    + apply Nat.eqb_eq in Es. rewrite forallb_forall. split.
      * intros H. apply map_subseteq_size_eq; [|lia].
        apply map_subseteq_spec. intros k c Hk.
        apply elem_of_map_to_list, list_elem_of_In in Hk.
        specialize (H _ Hk). cbn [fst snd] in H.
        destruct (countStrings b !! k) as [cb|]; [|discriminate].
        apply Nat.eqb_eq in H. congruence.
      * intros H [k c] Hk. apply list_elem_of_In, elem_of_map_to_list in Hk.
        cbn [fst snd]. rewrite <- H, Hk. apply Nat.eqb_refl.
    + apply Nat.eqb_neq in Es. split; [discriminate|]. intros H. congruence.
Qed.

(** *** The bumped version is a version *)

Lemma ContainsChar_snoc a c sep :
  GoStrings.ContainsChar (a ++ String c "")%string sep =
  GoStrings.ContainsChar a sep || Ascii.eqb c sep.
Proof.
  induction a as [|x a IH].
  - cbn. apply orb_false_r.
  - rewrite append_cons. cbn [GoStrings.ContainsChar]. rewrite IH. apply orb_assoc.
Qed.

Lemma splitFrom_no_sep sep s :
  forall cur,
    GoStrings.ContainsChar cur sep = false ->
    Forall (fun p => GoStrings.ContainsChar p sep = false) (GoStrings.splitFrom sep cur s).
Proof.
  induction s as [|c s IH]; intros cur Hcur; cbn [GoStrings.splitFrom].
  - constructor; [exact Hcur|constructor].
  - destruct (Ascii.eqb c sep) eqn:E.
    + constructor; [exact Hcur|]. apply IH. reflexivity.
    + apply IH. rewrite ContainsChar_snoc, Hcur, E. reflexivity.
Qed.

Lemma wrap_range z : GoStrconv.minInt <= GoStrconv.wrap z <= GoStrconv.maxInt.
Proof.
  unfold GoStrconv.wrap, GoStrconv.minInt, GoStrconv.maxInt.
  pose proof (Z.mod_pos_bound (z + 2 ^ 63) (2 ^ 64) ltac:(lia)). lia.
Qed.

(** X23. Whatever its input, [bumpPatchVersion] returns a string of exactly
    three dot-separated components whose last one [strconv.Atoi] reads back
    as a number.  So bumping a bumped version never falls back to 0.0.1: it
    keeps the first two components and adds one to the third (with the
    wrap-around of [int]).  On an input of three components the first two
    are the input's, and a third component that is not a number in the
    range of [int] counts as 0. *)
Theorem bumpPatchVersion_result_is_a_version (v : string) :
  exists major minor n,
    GoStrings.Split (bumpPatchVersion v) "." = [major; minor; GoStrconv.Itoa n] /\
    GoStrconv.Atoi (GoStrconv.Itoa n) = Some n /\
    bumpPatchVersion (bumpPatchVersion v) =
      (major ++ "." ++ minor ++ "." ++ GoStrconv.Itoa (GoStrconv.wrap (n + 1)))%string /\
    (forall a b p,
       GoStrings.Split v "." = [a; b; p] ->
       major = a /\ minor = b /\
       n = GoStrconv.wrap (match GoStrconv.Atoi p with Some k => k | None => 0 end + 1)) /\
    (length (GoStrings.Split v ".") <> 3%nat -> major = "0" /\ minor = "0" /\ n = 1).
Proof.
  assert (Hgen : forall major minor n,
            GoStrings.ContainsChar major "." = false ->
            GoStrings.ContainsChar minor "." = false ->
            GoStrconv.minInt <= n <= GoStrconv.maxInt ->
            bumpPatchVersion v = (major ++ "." ++ minor ++ "." ++ GoStrconv.Itoa n)%string ->
            GoStrings.Split (bumpPatchVersion v) "." = [major; minor; GoStrconv.Itoa n] /\
            GoStrconv.Atoi (GoStrconv.Itoa n) = Some n /\
            bumpPatchVersion (bumpPatchVersion v) =
            (major ++ "." ++ minor ++ "." ++ GoStrconv.Itoa (GoStrconv.wrap (n + 1)))%string).
  { intros major minor n Hmajor Hminor Hn Hb.
    assert (Hs : GoStrings.Split (bumpPatchVersion v) "." = [major; minor; GoStrconv.Itoa n]).
    { rewrite Hb. apply Split_three; [exact Hmajor|exact Hminor|apply Itoa_no_dot]. }
    split; [exact Hs|]. split; [apply Atoi_Itoa; exact Hn|].
    unfold bumpPatchVersion at 1. rewrite Hs, Atoi_Itoa by exact Hn. reflexivity. }
  pose proof (splitFrom_no_sep "." v "" eq_refl) as Hparts.
  fold (GoStrings.Split v ".") in Hparts.
  destruct (GoStrings.Split v ".") as [|a [|b [|p [|d l]]]] eqn:Hsplit.
  1,2,3,5: exists "0", "0", 1;
    (destruct (Hgen "0" "0" 1) as [H1 [H2 H3]];
     [reflexivity|reflexivity|unfold GoStrconv.minInt, GoStrconv.maxInt; lia
     |unfold bumpPatchVersion; rewrite Hsplit; reflexivity|]);
    (split; [exact H1|split; [exact H2|split; [exact H3|split]]]);
    [intros ? ? ? Hx; discriminate Hx|intros _; repeat split..].
  inversion Hparts as [|? ? Ha Hrest]; subst.
  inversion Hrest as [|? ? Hb _]; subst.
  exists a, b, (GoStrconv.wrap (match GoStrconv.Atoi p with Some k => k | None => 0 end + 1)).
  destruct (Hgen a b (GoStrconv.wrap
                        (match GoStrconv.Atoi p with Some k => k | None => 0 end + 1)))
    as [H1 [H2 H3]]; [exact Ha|exact Hb|apply wrap_range| |].
  - unfold bumpPatchVersion. rewrite Hsplit. reflexivity.
  - split; [exact H1|split; [exact H2|split; [exact H3|split]]].
    + intros a' b' p' Hx. injection Hx as <- <- <-. repeat split.
    + intros Hlen. cbn in Hlen. congruence.
Qed.

(** *** Quoted text *)

Lemma run_quoted_skip c s :
  Ascii.eqb c quote = false ->
  GoRegexp.run reQuoted (String c s) "" "" [] = None.
Proof.
  intros H. unfold reQuoted. cbn [GoRegexp.run].
  rewrite Ascii.eqb_sym, H. reflexivity.
Qed.

Lemma run_star_closed body post :
  GoStrings.ContainsChar body quote = false ->
  forall m g caps,
    GoRegexp.run [GoRegexp.Star notQuote; GoRegexp.Close; GoRegexp.One (Ascii.eqb quote)]
      (body ++ String quote post)%string m g caps =
    Some ((m ++ body ++ String quote "")%string, caps ++ [(g ++ body)%string]).
Proof.
  induction body as [|c body IH]; intros Hbody m g caps.
  - change ("" ++ String quote post)%string with (String quote post).
    cbn [GoRegexp.run]. rewrite append_empty_r. reflexivity.
  - cbn [GoStrings.ContainsChar] in Hbody. apply orb_false_elim in Hbody.
    destruct Hbody as [Hc Hbody].
    specialize (IH Hbody (GoRegexp.snoc m c) (GoRegexp.snoc g c) caps).
    rewrite append_cons. cbn [GoRegexp.run] in IH |- *.
    unfold notQuote at 1. rewrite Hc. cbn [negb].
    rewrite IH. unfold GoRegexp.snoc. rewrite !append_snoc. reflexivity.
Qed.

Lemma run_star_open body :
  GoStrings.ContainsChar body quote = false ->
  forall m g caps,
    GoRegexp.run [GoRegexp.Star notQuote; GoRegexp.Close; GoRegexp.One (Ascii.eqb quote)]
      body m g caps = None.
Proof.
  induction body as [|c body IH]; intros Hbody m g caps.
  - reflexivity.
  - cbn [GoStrings.ContainsChar] in Hbody. apply orb_false_elim in Hbody.
    destruct Hbody as [Hc Hbody].
    specialize (IH Hbody (GoRegexp.snoc m c) (GoRegexp.snoc g c) caps).
    cbn [GoRegexp.run] in IH |- *.
    unfold notQuote at 1. rewrite Hc. cbn [negb].
    rewrite IH. rewrite Ascii.eqb_sym, Hc. reflexivity.
Qed.

Lemma findFrom_quoted_skip pre rest :
  GoStrings.ContainsChar pre quote = false ->
  GoRegexp.findFrom reQuoted (pre ++ rest)%string 0 = GoRegexp.findFrom reQuoted rest 0.
Proof.
  induction pre as [|c pre IH]; intros Hpre; [reflexivity|].
  cbn [GoStrings.ContainsChar] in Hpre. apply orb_false_elim in Hpre.
  destruct Hpre as [Hc Hpre].
  rewrite append_cons. cbn [GoRegexp.findFrom].
  rewrite run_quoted_skip by exact Hc. apply IH. exact Hpre.
Qed.

Lemma findFrom_quoted_none s :
  GoStrings.ContainsChar s quote = false ->
  GoRegexp.findFrom reQuoted s 0 = [].
Proof.
  intros Hs. rewrite <- (append_empty_r s), findFrom_quoted_skip by exact Hs. reflexivity.
Qed.

(** X24. [ExtractBetweenQuotes] returns the text between the first two
    double quotes of its input, whatever follows them, and fails with "no
    content found between quotes" when the input has a single double quote
    or none. *)
Theorem ExtractBetweenQuotes_first_quoted_text (pre body post : string) :
  GoStrings.ContainsChar pre quote = false ->
  GoStrings.ContainsChar body quote = false ->
  ExtractBetweenQuotes (pre ++ String quote (body ++ String quote post))%string = inl body /\
  ExtractBetweenQuotes (pre ++ String quote body)%string
    = inr (Errorf "no content found between quotes") /\
  ExtractBetweenQuotes (pre ++ body)%string = inr (Errorf "no content found between quotes").
Proof.
  intros Hpre Hbody. unfold ExtractBetweenQuotes, FindStringSubmatch,
    GoRegexp.FindAllStringSubmatch.
  split; [|split].
  - rewrite findFrom_quoted_skip by exact Hpre. cbn [GoRegexp.findFrom].
    assert (Hrun : GoRegexp.run reQuoted (String quote (body ++ String quote post)) "" "" []
                   = Some ((String quote "" ++ body ++ String quote "")%string, [body])).
    { unfold reQuoted. cbn [GoRegexp.run]. rewrite Ascii.eqb_refl.
      pose proof (run_star_closed body post Hbody (GoRegexp.snoc "" quote) "" []) as H.
      cbn [GoRegexp.run] in H. rewrite H. reflexivity. }
    rewrite Hrun. reflexivity.
  - rewrite findFrom_quoted_skip by exact Hpre. cbn [GoRegexp.findFrom].
    assert (Hrun : GoRegexp.run reQuoted (String quote body) "" "" [] = None).
    { unfold reQuoted. cbn [GoRegexp.run]. rewrite Ascii.eqb_refl.
      pose proof (run_star_open body Hbody (GoRegexp.snoc "" quote) "" []) as H.
      cbn [GoRegexp.run] in H. exact H. }
    rewrite Hrun, findFrom_quoted_none by exact Hbody. reflexivity.
  - rewrite findFrom_quoted_skip by exact Hpre.
    rewrite findFrom_quoted_none by exact Hbody. reflexivity.
Qed.

Lemma ExtractBetweenQuotes_first_quoted_text_witness :
  ExtractBetweenQuotes
    ("source = " ++ String quote ("~/.config/hypr/keys.conf" ++ String quote " # keys"))%string
  = inl "~/.config/hypr/keys.conf".
Proof.
  apply (proj1 (ExtractBetweenQuotes_first_quoted_text
                  "source = " "~/.config/hypr/keys.conf" " # keys" eq_refl eq_refl)).
Defined.

(** *** What the extractor never returns *)

Lemma commandOfPart_not_ignored pairs part c :
  In c (commandOfPart pairs part) -> c ∉ ignore.
Proof.
  unfold commandOfPart.
  destruct (GoStrings.Fields (GoStrings.TrimSpace part)) as [|p0 pts]; [intros []|].
  destruct (pairs !! p0) as [v|].
  - destruct (decide (GoStrings.TrimSpace v ∈ ignore)) as [H|H]; [intros []|].
    intros [<-|[]]. exact H.
  - destruct (decide (GoStrings.TrimSpace p0 ∈ ignore)) as [H|H]; [intros []|].
    intros [<-|[]]. exact H.
Qed.

(** X25. No command that [ExtractExecOnceCommands] returns is one of the
    ignored names [va11-popup] and [va11-confirm], whether the name stands
    in the text itself or is the value of a variable the text uses.  (The
    final deduplication, modelled from the specification, only drops
    repetitions.) *)
Theorem extractor_never_returns_ignored (input c : string) :
  In c (ExtractExecOnceCommands input) ->
  c <> "va11-popup" /\ c <> "va11-confirm" /\ In c (collectCommands input).
Proof.
  intros Hc. apply list_elem_of_In in Hc. unfold ExtractExecOnceCommands,
    DeduplicateStrings in Hc. apply dedupFrom_elem in Hc. destruct Hc as [Hc _].
  apply list_elem_of_In in Hc.
  assert (Hign : c ∉ ignore).
  { unfold collectCommands in Hc. apply in_flat_map in Hc. destruct Hc as [re [_ Hc]].
    apply in_flat_map in Hc. destruct Hc as [mt [_ Hc]].
    unfold commandsOfMatch in Hc.
    destruct (GoStrings.ContainsChar (sub mt 0) "#"); [destruct Hc|].
    apply in_flat_map in Hc. destruct Hc as [part [_ Hc]].
    eapply commandOfPart_not_ignored. exact Hc. }
  unfold ignore in Hign. rewrite not_elem_of_union, !not_elem_of_singleton in Hign.
  destruct Hign as [H1 H2]. split; [exact H1|split; [exact H2|exact Hc]].
Qed.

Lemma extractor_never_returns_ignored_witness :
  ExtractExecOnceCommands "exec-once = va11-popup & kitty" = ["kitty"] /\
  "kitty" <> "va11-popup".
Proof.
  assert (H : ExtractExecOnceCommands "exec-once = va11-popup & kitty" = ["kitty"])
    by (vm_compute; reflexivity).
  split; [exact H|].
  refine (proj1 (extractor_never_returns_ignored
                   "exec-once = va11-popup & kitty" "kitty" _)).
  rewrite H. left. reflexivity.
Defined.
